(** * fastapi_ecommerce: the review-to-product rating aggregation

    A shallow embedding of [app/routers/reviews.py], [app/routers/products.py],
    [app/models/reviews.py] and the request schemas of [app/schemas.py].

    The handlers are written once, as programs over the calls they make on
    the SQLAlchemy session ([Prog]); [run] interprets a program for one
    request against a database, and [Concurrent.steps] interleaves two
    requests call by call.

    Numbers: [grade], [stock] and keys are Python/SQL integers ([Z]).
    [rating] and [price] are floats ([schemas.py]: [float]); a float is
    held as the rational it denotes ([Q]), and [AVG(grade)], the one place
    where the handlers compute a float, rounds to binary64 ([binary64]). *)

From Stdlib Require Import ZArith QArith Qabs Qpower List String Bool Lia.
From Stdlib Require Import SpecFloat.
Import ListNotations.
Open Scope Z_scope.

(** ** Data model *)

(** The categories table, with the columns of [app/schemas.py], class
    [Category] ([app/models/categories.py] is not among the sources). *)
Module Category.
Record t : Type := mk
  { id : Z; name : string; parent_id : option Z; is_active : bool }.
End Category.

(** [app/schemas.py], class [ProductCreate]. *)
Module ProductCreate.
Record t : Type := mk
  { name : string; description : option string; price : Q;
    image_url : option string; stock : Z; category_id : Z }.
End ProductCreate.

(** The products table, with the columns of [app/schemas.py], class
    [Product], and [seller_id], which the products router reads and writes
    ([app/models/products.py] is not among the sources). *)
Module Product.
Record t : Type := mk
  { id : Z; name : string; description : option string; price : Q;
    image_url : option string; stock : Z; category_id : Z;
    seller_id : Z; is_active : bool; rating : Q }.

Definition with_id (pk : Z) (p : t) : t :=
  mk pk (name p) (description p) (price p) (image_url p) (stock p)
     (category_id p) (seller_id p) (is_active p) (rating p).

Definition with_rating (value : Q) (p : t) : t :=
  mk (id p) (name p) (description p) (price p) (image_url p) (stock p)
     (category_id p) (seller_id p) (is_active p) value.

Definition with_is_active (value : bool) (p : t) : t :=
  mk (id p) (name p) (description p) (price p) (image_url p) (stock p)
     (category_id p) (seller_id p) value (rating p).

(** [.values( **product.model_dump() )]: the six fields of [ProductCreate]. *)
Definition with_values (v : ProductCreate.t) (p : t) : t :=
  mk (id p) (ProductCreate.name v) (ProductCreate.description v)
     (ProductCreate.price v) (ProductCreate.image_url v)
     (ProductCreate.stock v) (ProductCreate.category_id v)
     (seller_id p) (is_active p) (rating p).
End Product.

(** [app/schemas.py], class [ReviewCreate]: [grade] is a plain [int]. *)
Module ReviewCreate.
Record t : Type := mk
  { product_id : Z; comment : option string; grade : Z }.
End ReviewCreate.

(** [app/models/reviews.py], class [Review]. [comment_date] is a time stamp,
    kept as an integer. *)
Module Review.
Record t : Type := mk
  { id : Z; user_id : Z; product_id : Z; comment : option string;
    comment_date : Z; grade : Z; is_active : bool }.

Definition with_id (pk : Z) (r : t) : t :=
  mk pk (user_id r) (product_id r) (comment r) (comment_date r) (grade r)
     (is_active r).

Definition with_is_active (value : bool) (r : t) : t :=
  mk (id r) (user_id r) (product_id r) (comment r) (comment_date r)
     (grade r) value.

(** [CheckConstraint('grade >= 1 AND grade <= 5', name='check_grade_range')] *)
Definition check_grade_range (r : t) : bool :=
  (1 <=? grade r) && (grade r <=? 5).
End Review.

(** [app/schemas.py], class [User]: the [current_user] that [get_buyer],
    [get_admin] and [get_current_seller] of [app/auth.py] hand to a handler;
    the handlers only read [id]. *)
Module User.
Record t : Type := mk
  { id : Z; email : string; is_active : bool; role : string }.
End User.

(** ** The database and the session *)

Record Database : Type := mkDatabase
  { products : list Product.t;
    categories : list Category.t;
    reviews : list Review.t }.

(** What a request can raise. [HTTPException] is FastAPI's; the others are
    Python's [AttributeError] and the SQLAlchemy errors of a failed
    statement, a violated constraint and a refresh of a missing row. *)
Inductive Exc : Type :=
| HTTPException (status_code : Z) (detail : string)
| AttributeError
| OperationalError
| IntegrityError
| InvalidRequestError.

(** A write of the session's open transaction, not yet committed. The
    session is SQLAlchemy's [AsyncSession], one per request ([Depends
    (get_async_db)]). *)
Inductive Write : Type :=
| InsertProduct (row : Product.t)
| InsertReview (row : Review.t)
| UpdateProducts (where_ : Product.t -> bool) (values : Product.t -> Product.t)
| UpdateReviews (where_ : Review.t -> bool) (values : Review.t -> Review.t).

(** Primary keys are handed out in increasing order. *)
Definition next_id (keys : list Z) : Z := 1 + fold_right Z.max 0 keys.

Definition update_where {A : Type} (where_ : A -> bool) (values : A -> A)
  (rows : list A) : list A :=
  map (fun row => if where_ row then values row else row) rows.

(** One statement against the tables. An INSERT returns the key it gave the
    row; an INSERT into reviews that violates the CHECK constraint fails. *)
Definition apply_write (w : Write) (d : Database)
  : option (Database * list Z) :=
  match w with
  | InsertProduct row =>
      let pk := next_id (map Product.id (products d)) in
      Some (mkDatabase (products d ++ [Product.with_id pk row])
              (categories d) (reviews d), [pk])
  | InsertReview row =>
      if Review.check_grade_range row then
        let pk := next_id (map Review.id (reviews d)) in
        Some (mkDatabase (products d) (categories d)
                (reviews d ++ [Review.with_id pk row]), [pk])
      else None
  | UpdateProducts where_ values =>
      Some (mkDatabase (update_where where_ values (products d))
              (categories d) (reviews d), [])
  | UpdateReviews where_ values =>
      Some (mkDatabase (products d) (categories d)
              (update_where where_ values (reviews d)), [])
  end.

(** The writes of a transaction in order; the keys of the inserted rows. *)
Fixpoint flush (ws : list Write) (d : Database) : option (Database * list Z) :=
  match ws with
  | [] => Some (d, [])
  | w :: ws' =>
      match apply_write w d with
      | None => None
      | Some (d', ks) =>
          match flush ws' d' with
          | None => None
          | Some (d'', ks') => Some (d'', ks ++ ks')
          end
      end
  end.

(** The connection of one request: the committed tables, the open
    transaction, and for each coming round trip to the database whether it
    fails ([true]); past the end of the list every round trip succeeds. *)
Record Conn : Type := mkConn
  { store : Database; txn : list Write; faults : list bool }.

(** ** Floats *)

(** A binary64 float has 53 significant bits. *)
Definition prec : Z := 53.

(** The exponent of the leading bit of [q], for [q] other than 0: the
    integer [k] with [2 ^ k <= |q| < 2 ^ (k + 1)]. *)
Definition ilog2 (q : Q) : Z :=
  let k := Z.log2 (Z.abs (Qnum q)) - Z.log2 (Zpos (Qden q)) in
  if Qle_bool (2 ^ k) (Qabs q) then k else k - 1.

(** The nearest integer, the even one of two that are as near. *)
Definition round_half_even (q : Q) : Z :=
  let d := Zpos (Qden q) in
  let m := Qnum q / d in
  match 2 * (Qnum q mod d) ?= d with
  | Lt => m
  | Gt => m + 1
  | Eq => if Z.even m then m else m + 1
  end.

(** The float nearest to [q] (round to nearest, ties to even), in lowest
    terms. The exponent is not bounded: a quotient of two 64-bit integers
    lies between [2 ^ -64] and [2 ^ 64], far from the subnormal numbers and
    from overflow. *)
Definition binary64 (q : Q) : Q :=
  let x := Qred q in
  if Qeq_bool x 0 then 0%Q
  else
    let e := ilog2 x - (prec - 1) in
    Qred (inject_Z (round_half_even (x * 2 ^ (- e))) * 2 ^ e).

(** The same quotient by the Standard Library's specification of IEEE 754
    arithmetic ([SpecFloat]), to compare [binary64] with. *)
Definition SF2Q (f : spec_float) : option Q :=
  match f with
  | S754_zero _ => Some 0%Q
  | S754_finite s m e =>
      Some (inject_Z (if s then Zneg m else Zpos m) * 2 ^ e)%Q
  | _ => None
  end.

Definition SFdiv_Z (a b : Z) : option Q :=
  SF2Q (SFdiv prec 1024 (binary_normalize prec 1024 a 0 false)
          (binary_normalize prec 1024 b 0 false)).

Fixpoint upto (n : nat) : list Z :=
  match n with
  | O => []
  | S k => upto k ++ [Z.of_nat n]
  end.

Definition agrees_with_SFdiv (a b : Z) : bool :=
  match SFdiv_Z a b with
  | Some q => Qeq_bool q (binary64 (inject_Z a / inject_Z b))
  | None => false
  end.

(** [func.avg(ReviewModel.grade)]: NULL over no rows, and over some rows
    the sum of the grades divided by their number, a float. The sum and
    the number of rows are integers below [2 ^ 53] for any table there can
    be, and so exact; the one rounding is that of the quotient. *)
Definition sum_grades (rows : list Review.t) : Z :=
  fold_right (fun r acc => Review.grade r + acc) 0 rows.

Definition avg_grade (rows : list Review.t) : option Q :=
  match rows with
  | [] => None
  | _ :: _ =>
      Some (binary64 (inject_Z (sum_grades rows)
                      / inject_Z (Z.of_nat (List.length rows))))%Q
  end.

(** The calls a handler makes on the session. *)
Inductive Op : Type -> Type :=
| Scalars_Product (where_ : Product.t -> bool) : Op (list Product.t)
| Scalars_Product_join_Category (where_ : Product.t -> Category.t -> bool)
  : Op (list Product.t)
| Scalars_Category (where_ : Category.t -> bool) : Op (list Category.t)
| Scalars_Review (where_ : Review.t -> bool) : Op (list Review.t)
| Execute_avg_grade (where_ : Review.t -> bool) : Op (option Q)
| Get_Product (pk : Z) : Op (option Product.t)
| Execute_update_Product (where_ : Product.t -> bool)
    (values : Product.t -> Product.t) : Op unit
| Execute_update_Review (where_ : Review.t -> bool)
    (values : Review.t -> Review.t) : Op unit
| Commit : Op (list Z)
| Refresh_Product (pk : Z) : Op Product.t
| Refresh_Review (pk : Z) : Op Review.t
| Add_Product (row : Product.t) : Op unit
| Add_Review (row : Review.t) : Op unit
| Setattr_rating (pk : Z) (value : Q) : Op unit.

(** [db.add(obj)] and [product.rating = value] only touch the session; every
    other call is awaited and goes to the database. *)
Definition awaited {X : Type} (o : Op X) : bool :=
  match o with
  | Add_Product _ | Add_Review _ | Setattr_rating _ _ => false
  | _ => true
  end.

Definition rollback (c : Conn) : Conn := mkConn (store c) [] (faults c).

Definition enqueue (w : Write) (c : Conn) : Conn :=
  mkConn (store c) (txn c ++ [w]) (faults c).

(** What the request sees: the committed tables with its own writes. *)
Definition view (c : Conn) : option Database :=
  match flush (txn c) (store c) with
  | None => None
  | Some (d, _) => Some d
  end.

Definition query {X : Type} (f : Database -> Exc + X) (c : Conn)
  : (Exc + X) * Conn :=
  match view c with
  | None => (inl IntegrityError, rollback c)
  | Some d =>
      match f d with
      | inl e => (inl e, rollback c)
      | inr x => (inr x, c)
      end
  end.

Definition find_Product (pk : Z) (d : Database) : option Product.t :=
  find (fun p => Product.id p =? pk) (products d).

Definition find_Review (pk : Z) (d : Database) : option Review.t :=
  find (fun r => Review.id r =? pk) (reviews d).

Definition join_Category (where_ : Product.t -> Category.t -> bool)
  (d : Database) : list Product.t :=
  flat_map
    (fun p =>
       map (fun _ => p)
         (filter
            (fun c => (Category.id c =? Product.category_id p) && where_ p c)
            (categories d)))
    (products d).

Definition perform {X : Type} (o : Op X) (c : Conn) : (Exc + X) * Conn :=
  match o in Op X return (Exc + X) * Conn with
  | Scalars_Product where_ =>
      query (fun d => inr (filter where_ (products d))) c
  | Scalars_Product_join_Category where_ =>
      query (fun d => inr (join_Category where_ d)) c
  | Scalars_Category where_ =>
      query (fun d => inr (filter where_ (categories d))) c
  | Scalars_Review where_ =>
      query (fun d => inr (filter where_ (reviews d))) c
  | Execute_avg_grade where_ =>
      query (fun d => inr (avg_grade (filter where_ (reviews d)))) c
  | Get_Product pk =>
      query (fun d => inr (find_Product pk d)) c
  | Execute_update_Product where_ values =>
      (inr tt, enqueue (UpdateProducts where_ values) c)
  | Execute_update_Review where_ values =>
      (inr tt, enqueue (UpdateReviews where_ values) c)
  | Commit =>
      match flush (txn c) (store c) with
      | None => (inl IntegrityError, rollback c)
      | Some (d, keys) => (inr keys, mkConn d [] (faults c))
      end
  | Refresh_Product pk =>
      query (fun d => match find_Product pk d with
                      | Some p => inr p
                      | None => inl InvalidRequestError
                      end) c
  | Refresh_Review pk =>
      query (fun d => match find_Review pk d with
                      | Some r => inr r
                      | None => inl InvalidRequestError
                      end) c
  | Add_Product row => (inr tt, enqueue (InsertProduct row) c)
  | Add_Review row => (inr tt, enqueue (InsertReview row) c)
  | Setattr_rating pk value =>
      (inr tt,
       enqueue (UpdateProducts (fun p => Product.id p =? pk)
                  (Product.with_rating value)) c)
  end.

(** An awaited call first learns whether the round trip fails; a failed one
    raises and the open transaction is lost. *)
Definition exec {X : Type} (o : Op X) (c : Conn) : (Exc + X) * Conn :=
  if awaited o then
    match faults c with
    | true :: rest => (inl OperationalError, mkConn (store c) [] rest)
    | false :: rest => perform o (mkConn (store c) (txn c) rest)
    | [] => perform o c
    end
  else perform o c.

(** ** Programs *)

Inductive Prog (A : Type) : Type :=
| Ret (a : A)
| Raise (e : Exc)
| Call {X : Type} (o : Op X) (k : X -> Prog A).

Arguments Ret {A} a.
Arguments Raise {A} e.
Arguments Call {A X} o k.

Fixpoint bind {A B : Type} (m : Prog A) (f : A -> Prog B) : Prog B :=
  match m with
  | Ret a => f a
  | Raise e => Raise e
  | Call o k => Call o (fun x => bind (k x) f)
  end.

Definition call {X : Type} (o : Op X) : Prog X := Call o Ret.

Declare Scope prog_scope.
Delimit Scope prog_scope with prog.
Notation "x <- m ;; k" := (bind m (fun x => k))
  (at level 61, m at next level, right associativity) : prog_scope.
Notation "m ;; k" := (bind m (fun _ => k))
  (at level 61, right associativity) : prog_scope.
Open Scope prog_scope.

(** One request, from its first call to its return or its exception. *)
Fixpoint run {A : Type} (p : Prog A) (c : Conn) : (Exc + A) * Conn :=
  match p with
  | Ret a => (inr a, c)
  | Raise e => (inl e, c)
  | Call o k =>
      match exec o c with
      | (inl e, c') => (inl e, c')
      | (inr x, c') => run (k x) c'
      end
  end.

(** A fresh session on the committed tables. *)
Definition connect (d : Database) (fl : list bool) : Conn := mkConn d [] fl.

(** ** [app/routers/reviews.py] *)

(** [result.scalar() or 0.0]: [None] and a zero are both falsy. *)
Definition or_zero (scalar : option Q) : Q :=
  match scalar with
  | None => 0
  | Some q => if Qeq_bool q 0 then 0 else q
  end%Q.

Definition active_reviews_of (product_id : Z) (r : Review.t) : bool :=
  (Review.product_id r =? product_id) && Bool.eqb (Review.is_active r) true.

Definition update_product_rating (product_id : Z) : Prog unit :=
  result <- call (Execute_avg_grade (active_reviews_of product_id)) ;;
  let avg_rating := or_zero result in
  product <- call (Get_Product product_id) ;;
  match product with
  | None => Raise AttributeError
  | Some p =>
      call (Setattr_rating (Product.id p) avg_rating) ;;
      call Commit ;;
      Ret tt
  end.

Definition active_product (product_id : Z) (p : Product.t) : bool :=
  (Product.id p =? product_id) && Bool.eqb (Product.is_active p) true.

Definition get_all_reviews : Prog (list Review.t) :=
  call (Scalars_Review (fun r => Bool.eqb (Review.is_active r) true)).

Definition get_review_by_product (product_id : Z) : Prog (list Review.t) :=
  result <- call (Scalars_Product (active_product product_id)) ;;
  match hd_error result with
  | None => Raise (HTTPException 404 "Product not found or inactive")
  | Some _ =>
      call (Scalars_Review
              (fun r => Bool.eqb (Review.is_active r) true
                        && (Review.product_id r =? product_id)))
  end.

(** [ReviewModel( **review.model_dump(), user_id=current_user.id )] with the
    column defaults [is_active=True] and [comment_date=datetime.now]; the
    key is given by the database. *)
Definition ReviewModel (review : ReviewCreate.t) (user_id : Z) (now : Z)
  : Review.t :=
  Review.mk 0 user_id (ReviewCreate.product_id review)
    (ReviewCreate.comment review) now (ReviewCreate.grade review) true.

Definition create_review (review : ReviewCreate.t) (current_user : User.t)
  (now : Z) : Prog Review.t :=
  result <- call (Scalars_Product
                    (active_product (ReviewCreate.product_id review))) ;;
  match hd_error result with
  | None => Raise (HTTPException 404 "Product not found or inactive")
  | Some _ =>
      if negb ((1 <=? ReviewCreate.grade review)
               && (ReviewCreate.grade review <=? 5))
      then Raise (HTTPException 400 "Grade should be from 1 to 5")
      else
        call (Add_Review (ReviewModel review (User.id current_user) now)) ;;
        keys <- call Commit ;;
        db_review <- call (Refresh_Review (last keys 0)) ;;
        update_product_rating (ReviewCreate.product_id review) ;;
        call Commit ;;
        Ret db_review
  end.

Definition delete_review (review_id : Z) (current_user : User.t)
  : Prog string :=
  result <- call (Scalars_Review
                    (fun r => (Review.id r =? review_id)
                              && Bool.eqb (Review.is_active r) true)) ;;
  match hd_error result with
  | None => Raise (HTTPException 404 "Review not found or inactive")
  | Some review =>
      call (Execute_update_Review (fun r => Review.id r =? review_id)
              (Review.with_is_active false)) ;;
      call Commit ;;
      review <- call (Refresh_Review (Review.id review)) ;;
      update_product_rating (Review.product_id review) ;;
      Ret "Review deleted"%string
  end.

(** ** [app/routers/products.py] *)

(** [select(ProductModel).join(CategoryModel)] joins a product with the
    category of its [category_id]. *)
Definition get_all_products : Prog (list Product.t) :=
  call (Scalars_Product_join_Category
          (fun p c => Bool.eqb (Product.is_active p) true
                      && Bool.eqb (Category.is_active c) true
                      && (0 <? Product.stock p))).

Definition active_category (category_id : Z) (c : Category.t) : bool :=
  (Category.id c =? category_id) && Bool.eqb (Category.is_active c) true.

Section ProductModel.

(** [app/models/products.py] is not among the sources: the column defaults
    that [ProductModel(...)] gives [is_active] and [rating] are taken as
    given. *)
Variable is_active_default : bool.
Variable rating_default : Q.

(** [ProductModel( **product.model_dump(), seller_id=current_user.id )] *)
Definition ProductModel (product : ProductCreate.t) (seller_id : Z)
  : Product.t :=
  Product.mk 0 (ProductCreate.name product)
    (ProductCreate.description product) (ProductCreate.price product)
    (ProductCreate.image_url product) (ProductCreate.stock product)
    (ProductCreate.category_id product) seller_id
    is_active_default rating_default.

Definition create_product (product : ProductCreate.t)
  (current_user : User.t) : Prog Product.t :=
  category_result <-
    call (Scalars_Category
            (active_category (ProductCreate.category_id product))) ;;
  match hd_error category_result with
  | None => Raise (HTTPException 400 "Category not found or inactive")
  | Some _ =>
      call (Add_Product (ProductModel product (User.id current_user))) ;;
      keys <- call Commit ;;
      db_product <- call (Refresh_Product (last keys 0)) ;;
      Ret db_product
  end.

End ProductModel.

Definition get_products_by_category (category_id : Z)
  : Prog (list Product.t) :=
  temp <- call (Scalars_Category (active_category category_id)) ;;
  match hd_error temp with
  | None => Raise (HTTPException 404 "Category not found or inactive")
  | Some _ =>
      call (Scalars_Product
              (fun p => Bool.eqb (Product.is_active p) true
                        && (Product.category_id p =? category_id)))
  end.

Definition get_product (product_id : Z) : Prog Product.t :=
  temp <- call (Scalars_Product (active_product product_id)) ;;
  match hd_error temp with
  | None => Raise (HTTPException 404 "Product not found or inactive")
  | Some product => Ret product
  end.

Definition update_product (product_id : Z) (product : ProductCreate.t)
  (current_user : User.t) : Prog Product.t :=
  result <- call (Scalars_Product (fun p => Product.id p =? product_id)) ;;
  match hd_error result with
  | None => Raise (HTTPException 404 "Product not found")
  | Some db_product =>
      if negb (Product.seller_id db_product =? User.id current_user)
      then Raise (HTTPException 403 "You can only update your own products")
      else
        category_result <-
          call (Scalars_Category
                  (active_category (ProductCreate.category_id product))) ;;
        match hd_error category_result with
        | None => Raise (HTTPException 400 "Category not found or inactive")
        | Some _ =>
            call (Execute_update_Product
                    (fun p => Product.id p =? product_id)
                    (Product.with_values product)) ;;
            call Commit ;;
            db_product <- call (Refresh_Product (Product.id db_product)) ;;
            Ret db_product
        end
  end.

Definition delete_product (product_id : Z) (current_user : User.t)
  : Prog Product.t :=
  result <- call (Scalars_Product (active_product product_id)) ;;
  match hd_error result with
  | None => Raise (HTTPException 404 "Product not found or inactive")
  | Some product =>
      if negb (Product.seller_id product =? User.id current_user)
      then Raise (HTTPException 403 "You can only delete your own products")
      else
        call (Execute_update_Product (fun p => Product.id p =? product_id)
                (Product.with_is_active false)) ;;
        call Commit ;;
        product <- call (Refresh_Product (Product.id product)) ;;
        Ret product
  end.

(** ** The endpoints of the two routers *)

Inductive Request : Type :=
| GET_products
| POST_products (product : ProductCreate.t) (current_user : User.t)
| GET_products_category (category_id : Z)
| GET_product (product_id : Z)
| PUT_product (product_id : Z) (product : ProductCreate.t)
    (current_user : User.t)
| DELETE_product (product_id : Z) (current_user : User.t)
| GET_reviews
| GET_reviews_of_product (product_id : Z)
| POST_reviews (review : ReviewCreate.t) (current_user : User.t) (now : Z)
| DELETE_review (review_id : Z) (current_user : User.t).

Inductive Response : Type :=
| ProductList (body : list Product.t)
| ProductBody (body : Product.t)
| ReviewList (body : list Review.t)
| ReviewBody (body : Review.t)
| MessageBody (message : string).

Definition handle (is_active_default : bool) (rating_default : Q)
  (rq : Request) : Prog Response :=
  match rq with
  | GET_products => x <- get_all_products ;; Ret (ProductList x)
  | POST_products product u =>
      x <- create_product is_active_default rating_default product u ;;
      Ret (ProductBody x)
  | GET_products_category cid =>
      x <- get_products_by_category cid ;; Ret (ProductList x)
  | GET_product pid => x <- get_product pid ;; Ret (ProductBody x)
  | PUT_product pid product u =>
      x <- update_product pid product u ;; Ret (ProductBody x)
  | DELETE_product pid u => x <- delete_product pid u ;; Ret (ProductBody x)
  | GET_reviews => x <- get_all_reviews ;; Ret (ReviewList x)
  | GET_reviews_of_product pid =>
      x <- get_review_by_product pid ;; Ret (ReviewList x)
  | POST_reviews review u now =>
      x <- create_review review u now ;; Ret (ReviewBody x)
  | DELETE_review rid u => x <- delete_review rid u ;; Ret (MessageBody x)
  end.

(** The two endpoints that call [update_product_rating]. *)
Definition triggers_recomputation (rq : Request) : bool :=
  match rq with
  | POST_reviews _ _ _ | DELETE_review _ _ => true
  | _ => false
  end.

(** ** What the specification says of the rating *)

(** The grades of the reviews of a product that are active. *)
Definition active_grades (d : Database) (product_id : Z) : list Z :=
  map Review.grade
    (filter (fun r => (Review.product_id r =? product_id) && Review.is_active r)
       (reviews d)).

(** Their arithmetic mean, and 0 when there is none. *)
Definition mean (grades : list Z) : Q :=
  match grades with
  | [] => 0
  | _ :: _ =>
      inject_Z (fold_right Z.add 0%Z grades)
      / inject_Z (Z.of_nat (List.length grades))
  end%Q.

(** The rating each product shows, by key. *)
Definition ratings (d : Database) : list (Z * Q) :=
  map (fun p => (Product.id p, Product.rating p)) (products d).

(** The value [update_product_rating] computes from the reviews of [d]. *)
Definition avg_rating (d : Database) (product_id : Z) : Q :=
  or_zero (avg_grade (filter (active_reviews_of product_id) (reviews d))).

(** The tables after a recomputation that wrote: those the request saw, with
    the rating of the product set. *)
Definition rated (v : Database) (product_id : Z) : Database :=
  mkDatabase
    (update_where (fun p => Product.id p =? product_id)
       (Product.with_rating (avg_rating v product_id)) (products v))
    (categories v) (reviews v).

(** The row [create_review] stores, and the tables with it. *)
Definition stored_review (d : Database) (review : ReviewCreate.t)
  (current_user : User.t) (now : Z) : Review.t :=
  Review.with_id (next_id (map Review.id (reviews d)))
    (ReviewModel review (User.id current_user) now).

Definition with_review (row : Review.t) (d : Database) : Database :=
  mkDatabase (products d) (categories d) (reviews d ++ [row]).

(** [1 <= grade <= 5], as [create_review] tests it. *)
Definition grade_in_range (grade : Z) : bool := (1 <=? grade) && (grade <=? 5).

(** The tables once [delete_review] has flagged the review, and the active
    grades of a product that remain, told from the tables before. *)
Definition deactivated (review_id : Z) (d : Database) : Database :=
  mkDatabase (products d) (categories d)
    (update_where (fun r => Review.id r =? review_id)
       (Review.with_is_active false) (reviews d)).

Definition remaining_grades (d : Database) (product_id review_id : Z)
  : list Z :=
  map Review.grade
    (filter (fun r => (Review.product_id r =? product_id)
                      && Review.is_active r
                      && negb (Review.id r =? review_id))
       (reviews d)).

(** ** Who writes [rating] *)

(** Column values that leave the key and the rating of a product alone. *)
Definition keeps_rating (values : Product.t -> Product.t) : Prop :=
  forall p, Product.id (values p) = Product.id p /\
            Product.rating (values p) = Product.rating p.

Definition safe_write (w : Write) : Prop :=
  match w with
  | UpdateProducts _ values => keeps_rating values
  | _ => True
  end.

(** The calls that do not assign [rating]. *)
Definition safe_op {X : Type} (o : Op X) : Prop :=
  match o with
  | Setattr_rating _ _ => False
  | Execute_update_Product _ values => keeps_rating values
  | _ => True
  end.

(** The programs all of whose calls are such. *)
Inductive rating_free {A : Type} : Prog A -> Prop :=
| rating_free_Ret (a : A) : rating_free (Ret a)
| rating_free_Raise (e : Exc) : rating_free (Raise e)
| rating_free_Call {X : Type} (o : Op X) (k : X -> Prog A) :
    safe_op o -> (forall x, rating_free (k x)) -> rating_free (Call o k).

(** The programs that assign [rating] nowhere but in
    [update_product_rating]: they are put together from calls that do not
    assign it and from whole calls of the recomputation. *)
Inductive rating_by_recomputation : forall {A : Type}, Prog A -> Prop :=
| by_Ret {A : Type} (a : A) : rating_by_recomputation (Ret a)
| by_Raise {A : Type} (e : Exc) : rating_by_recomputation (@Raise A e)
| by_call {X : Type} (o : Op X) :
    safe_op o -> rating_by_recomputation (call o)
| by_update_product_rating (product_id : Z) :
    rating_by_recomputation (update_product_rating product_id)
| by_bind {A B : Type} (m : Prog A) (f : A -> Prog B) :
    rating_by_recomputation m ->
    (forall a, rating_by_recomputation (f a)) ->
    rating_by_recomputation (bind m f).

(** Whether the first call of a program assigns [rating]. *)
Definition assigns_rating_first {A : Type} (p : Prog A) : bool :=
  match p with
  | Call (Setattr_rating _ _) _ => true
  | _ => false
  end.

(** Every product keeps its rating; products may have been added. *)
Definition ratings_kept (before after : Database) : Prop :=
  exists new, ratings after = ratings before ++ new.

(** The tables [v] on which a request of the reviews router calls the
    recomputation, and the product it calls it for: the tables [d] it began
    on with the review stored, or flagged. *)
Definition review_event (rq : Request) (d v : Database) (product_id : Z)
  : Prop :=
  match rq with
  | POST_reviews review current_user now =>
      v = with_review (stored_review d review current_user now) d
      /\ product_id = ReviewCreate.product_id review
  | DELETE_review review_id _ =>
      v = deactivated review_id d
      /\ exists review, find_Review review_id d = Some review
                        /\ product_id = Review.product_id review
  | _ => False
  end.

(** The exceptions a handler raises itself, as opposed to those of the
    session. *)
Definition is_http (e : Exc) : bool :=
  match e with HTTPException _ _ => true | _ => false end.

(** Programs that end in no [HTTPException]. *)
Definition http_free {A : Type} (p : Prog A) : Prop :=
  forall c e c', run p c = (inl e, c') -> is_http e = false.

(** ** A shop to run the handlers on *)

Module Example.

Definition tea : Product.t :=
  Product.mk 1 "tea" None (5 # 1) None 3 1 7 true 0.

Definition buyer : User.t := User.mk 9 "buyer@example.org" true "buyer".
Definition admin : User.t := User.mk 2 "admin@example.org" true "admin".

Definition shop : Database :=
  mkDatabase [tea] [Category.mk 1 "drinks" None true] [].

Definition after {A : Type} (p : Prog A) (d : Database) : Database :=
  store (snd (run p (connect d []))).

Definition review (grade : Z) : ReviewCreate.t :=
  ReviewCreate.mk 1 (Some "fine"%string) grade.

(** Three reviews of the tea, graded 5, 5 and 1, then the last one
    soft-deleted. *)
Definition shop_5 : Database := after (create_review (review 5) buyer 100) shop.
Definition shop_55 : Database :=
  after (create_review (review 5) buyer 101) shop_5.
Definition shop_551 : Database :=
  after (create_review (review 1) buyer 102) shop_55.
Definition shop_55x : Database := after (delete_review 3 admin) shop_551.

(** The same three reviews, all active, with the rating of the tea not
    yet recomputed. *)
Definition stale : Database :=
  mkDatabase (products shop) (categories shop) (reviews shop_551).

Definition seller : User.t := User.mk 7 "seller@example.org" true "seller".

Definition green_tea : ProductCreate.t :=
  ProductCreate.mk "green tea" None (6 # 1) None 10 1.

End Example.

(** ** Two requests at once *)

Module Concurrent.

Inductive Side : Type := First | Second.

(** A request in flight: the rest of its handler, the writes its session
    has not committed yet, and whether the session has a transaction open.
    A session begins a transaction with its first call and with its first
    call after a commit, and ends it with [db.commit()]; the session of a
    request that has raised is closed, and its transaction with it. *)
Record Task (A : Type) : Type := mkTask
  { code : Prog A; session : list Write; begun : bool }.
Arguments mkTask {A} code session begun.
Arguments code {A} t.
Arguments session {A} t.
Arguments begun {A} t.

(** The two requests share the committed tables and the storage. *)
Record World (A : Type) : Type := mkWorld
  { db : Database; io : list bool; first : Task A; second : Task A }.
Arguments mkWorld {A} db io first second.
Arguments db {A} w.
Arguments io {A} w.
Arguments first {A} w.
Arguments second {A} w.

Definition result {A : Type} (t : Task A) : option (Exc + A) :=
  match code t with
  | Ret a => Some (inr a)
  | Raise e => Some (inl e)
  | Call _ _ => None
  end.

Definition finished {A : Type} (t : Task A) : bool :=
  match result t with Some _ => true | None => false end.

Definition in_transaction {A : Type} (t : Task A) : bool :=
  begun t && negb (finished t).

Definition commits {X : Type} (o : Op X) : bool :=
  match o with
  | Commit => true
  | _ => false
  end.

(** The next call of a request, against the tables as they are now. *)
Definition step_task {A : Type} (t : Task A) (d : Database)
  (fl : list bool) : Task A * Database * list bool :=
  match code t with
  | Call o k =>
      match exec o (mkConn d (session t) fl) with
      | (inl e, c') => (mkTask (Raise e) (txn c') false, store c', faults c')
      | (inr x, c') =>
          (mkTask (k x) (txn c') (negb (commits o)), store c', faults c')
      end
  | _ => (t, d, fl)
  end.

(** One turn of the scheduler. The handlers take no lock: without
    [isolated] their calls interleave in any way. [isolated] is the
    condition of the specification's concurrency property, as far as the
    database can provide it: the transactions of the two sessions
    serialise. While one session has a transaction open, the other waits,
    and each [db.commit()] lets it in. The handlers commit in the middle
    ([create_review] at lines 84 and 31), so a request is several
    transactions, and those of two requests do interleave. *)
Definition turn {A : Type} (isolated : bool) (s : Side) (w : World A)
  : World A :=
  match s with
  | First =>
      if isolated && in_transaction (second w) then w
      else
        let '(t, d, fl) := step_task (first w) (db w) (io w) in
        mkWorld d fl t (second w)
  | Second =>
      if isolated && in_transaction (first w) then w
      else
        let '(t, d, fl) := step_task (second w) (db w) (io w) in
        mkWorld d fl (first w) t
  end.

Definition steps {A : Type} (isolated : bool) (schedule : list Side)
  (w : World A) : World A :=
  fold_left (fun w s => turn isolated s w) schedule w.

Definition spawn {A : Type} (d : Database) (fl : list bool)
  (p q : Prog A) : World A :=
  mkWorld d fl (mkTask p [] false) (mkTask q [] false).

End Concurrent.

Module Race.

(** Two buyers review the tea at once, with grades 5 and 2. *)
Definition two_reviews : Concurrent.World Review.t :=
  Concurrent.spawn Example.shop []
    (create_review (Example.review 5) Example.buyer 100)
    (create_review (Example.review 2) Example.buyer 101).

(** The first request gets to read the average, the second has the turns
    to run from start to end, then the first goes on; at the end the second
    has its turns again. *)
Definition interleaved : list Concurrent.Side :=
  repeat Concurrent.First 5 ++ repeat Concurrent.Second 9
  ++ repeat Concurrent.First 4 ++ repeat Concurrent.Second 9.

(** Transaction by transaction: both requests store their review, the first
    one before the second, and then recompute, the second one before the
    first. The first has a turn while the second is in its second
    transaction, and waits. *)
Definition by_transactions : list Concurrent.Side :=
  repeat Concurrent.First 3 ++ repeat Concurrent.Second 4
  ++ repeat Concurrent.First 1 ++ repeat Concurrent.Second 5
  ++ repeat Concurrent.First 6.

End Race.

(** ** The stages of [create_review] *)

Module Creation.

Record t : Type := mk
  { review : ReviewCreate.t; current_user : User.t; now : Z }.

Definition product_id (r : t) : Z := ReviewCreate.product_id (review r).

Definition model (r : t) : Review.t :=
  ReviewModel (review r) (User.id (current_user r)) (now r).

Definition program (r : t) : Prog Review.t :=
  create_review (review r) (current_user r) (now r).

(** What is left of [create_review] after [n] calls that all returned, for
    a product that is there and a grade in range: [row] is the review as
    stored (from the third call on) and [result] what [AVG] returned (from
    the fifth on). *)
Definition rest (r : t) (n : nat) (row : Review.t) (result : option Q)
  : Prog Review.t :=
  match n with
  | 0%nat => program r
  | 1%nat =>
      call (Add_Review (model r)) ;;
      keys <- call Commit ;;
      db_review <- call (Refresh_Review (last keys 0)) ;;
      update_product_rating (product_id r) ;;
      call Commit ;;
      Ret db_review
  | 2%nat =>
      keys <- call Commit ;;
      db_review <- call (Refresh_Review (last keys 0)) ;;
      update_product_rating (product_id r) ;;
      call Commit ;;
      Ret db_review
  | 3%nat =>
      db_review <- call (Refresh_Review (Review.id row)) ;;
      update_product_rating (product_id r) ;;
      call Commit ;;
      Ret db_review
  | 4%nat =>
      update_product_rating (product_id r) ;;
      call Commit ;;
      Ret row
  | 5%nat =>
      (product <- call (Get_Product (product_id r)) ;;
       match product with
       | None => Raise AttributeError
       | Some p =>
           call (Setattr_rating (Product.id p) (or_zero result)) ;;
           call Commit ;;
           Ret tt
       end) ;;
      call Commit ;;
      Ret row
  | 6%nat =>
      (call (Setattr_rating (product_id r) (or_zero result)) ;;
       call Commit ;;
       Ret tt) ;;
      call Commit ;;
      Ret row
  | 7%nat =>
      (call Commit ;; Ret tt) ;;
      call Commit ;;
      Ret row
  | 8%nat => call Commit ;; Ret row
  | _ => Ret row
  end.

(** The writes of the session at that stage, and whether a transaction is
    open. *)
Definition pending (r : t) (n : nat) (result : option Q) : list Write :=
  match n with
  | 2%nat => [InsertReview (model r)]
  | 7%nat =>
      [UpdateProducts (fun p => Product.id p =? product_id r)
         (Product.with_rating (or_zero result))]
  | _ => []
  end.

Definition in_txn (n : nat) : bool :=
  match n with
  | 1%nat | 2%nat | 4%nat | 5%nat | 6%nat | 7%nat => true
  | _ => false
  end.

Definition task (r : t) (n : nat) (row : Review.t) (result : option Q)
  : Concurrent.Task Review.t :=
  Concurrent.mkTask (rest r n row result) (pending r n result) (in_txn n).

(** Each inserted row has the key that was next when it was inserted. *)
Fixpoint keyed (before inserted : list Review.t) : Prop :=
  match inserted with
  | [] => True
  | row :: inserted' =>
      Review.id row = next_id (map Review.id before)
      /\ keyed (before ++ [row]) inserted'
  end.

(** The rows inserted so far: that of each request past its first commit,
    in either order. *)
Definition inserts (a b : bool) (rowA rowB : Review.t)
  (inserted : list Review.t) : Prop :=
  match a, b with
  | false, false => inserted = []
  | true, false => inserted = [rowA]
  | false, true => inserted = [rowB]
  | true, true => inserted = [rowA; rowB] \/ inserted = [rowB; rowA]
  end.

Definition stored (r : t) (n : nat) (row : Review.t) : Prop :=
  (3 <= n)%nat -> row = Review.with_id (Review.id row) (model r).

Definition read (r : t) (n : nat) (result : option Q) (d : Database)
  : Prop :=
  (5 <= n <= 7)%nat ->
  result = avg_grade (filter (active_reviews_of (product_id r)) (reviews d)).

(** The rating of the product is the one computed from the reviews there
    are. *)
Definition settled (d : Database) (product_id : Z) : Prop :=
  exists p, find_Product product_id d = Some p /\
            Product.rating p = avg_rating d product_id.

(** What holds at every turn of two creations for one product that started
    on the tables [d0], when the transactions serialise. *)
Definition invariant (d0 : Database) (a b : t)
  (w : Concurrent.World Review.t) : Prop :=
  exists nA nB rowA rowB resA resB inserted,
    Concurrent.io w = []
    /\ Concurrent.first w = task a nA rowA resA
    /\ Concurrent.second w = task b nB rowB resB
    /\ (exists p,
          hd_error (filter (active_product (product_id a))
                      (products (Concurrent.db w))) = Some p)
    /\ read a nA resA (Concurrent.db w)
    /\ read b nB resB (Concurrent.db w)
    /\ stored a nA rowA /\ stored b nB rowB
    /\ (in_txn nA = true -> in_txn nB = false)
    /\ reviews (Concurrent.db w) = reviews d0 ++ inserted
    /\ inserts (3 <=? nA)%nat (3 <=? nB)%nat rowA rowB inserted
    /\ keyed (reviews d0) inserted
    /\ ((8 <= nA)%nat -> (8 <= nB)%nat ->
        settled (Concurrent.db w) (product_id a)).

Definition swap {A : Type} (w : Concurrent.World A) : Concurrent.World A :=
  Concurrent.mkWorld (Concurrent.db w) (Concurrent.io w)
    (Concurrent.second w) (Concurrent.first w).

End Creation.

(** ** What the endpoints keep *)

(** The write a call adds to the open transaction. *)
Definition write_of {X : Type} (o : Op X) : option Write :=
  match o with
  | Execute_update_Product where_ values => Some (UpdateProducts where_ values)
  | Execute_update_Review where_ values => Some (UpdateReviews where_ values)
  | Add_Product row => Some (InsertProduct row)
  | Add_Review row => Some (InsertReview row)
  | Setattr_rating pk value =>
      Some (UpdateProducts (fun p => Product.id p =? pk)
              (Product.with_rating value))
  | _ => None
  end.

(** The programs whose writes all satisfy [ok]. *)
Inductive calls {A : Type} (ok : Write -> Prop) : Prog A -> Prop :=
| calls_Ret (a : A) : calls ok (Ret a)
| calls_Raise (e : Exc) : calls ok (Raise e)
| calls_Call {X : Type} (o : Op X) (k : X -> Prog A) :
    (forall w, write_of o = Some w -> ok w) ->
    (forall x, calls ok (k x)) -> calls ok (Call o k).

(** The writes of the two routers: an UPDATE of products keeps the key and
    the seller, an UPDATE of reviews only clears [is_active]. *)
Definition tame (w : Write) : Prop :=
  match w with
  | UpdateProducts _ values =>
      forall p, Product.id (values p) = Product.id p /\
                Product.seller_id (values p) = Product.seller_id p
  | UpdateReviews _ values =>
      forall r, values r = Review.with_is_active false r
  | InsertProduct _ | InsertReview _ => True
  end.

(** [after] is [before], row by row up to [rel], and then new rows. *)
Definition extends_by {A : Type} (rel : A -> A -> Prop)
  (before after : list A) : Prop :=
  exists kept new, Forall2 rel before kept /\ after = kept ++ new.

Definition flag_only (r r' : Review.t) : Prop :=
  r' = r \/ r' = Review.with_is_active false r.

Definition same_owner (p p' : Product.t) : Prop :=
  Product.id p' = Product.id p /\
  Product.seller_id p' = Product.seller_id p.

(** No row is removed; a product keeps its key and its seller, a review
    everything but [is_active], which can only be cleared; the categories
    are not touched. *)
Definition history (d d' : Database) : Prop :=
  extends_by same_owner (products d) (products d') /\
  categories d' = categories d /\
  extends_by flag_only (reviews d) (reviews d').

Fixpoint distinct (keys : list Z) : bool :=
  match keys with
  | [] => true
  | k :: rest => negb (existsb (Z.eqb k) rest) && distinct rest
  end.

(** Primary keys: no two products and no two reviews share an [id]. *)
Definition unique_keys (d : Database) : bool :=
  distinct (map Product.id (products d))
  && distinct (map Review.id (reviews d)).

(** Every stored grade is from 1 to 5. *)
Definition grades_in_range (d : Database) : bool :=
  forallb Review.check_grade_range (reviews d).

(** Foreign key: every review is of a product in the tables. *)
Definition references_products (d : Database) : bool :=
  forallb
    (fun r => existsb (fun p => Product.id p =? Review.product_id r)
                (products d))
    (reviews d).

(** The exceptions that are not [HTTPException]s, and the programs that
    raise no other. *)
Inductive raises_no_http {A : Type} : Prog A -> Prop :=
| raises_no_http_Ret (a : A) : raises_no_http (Ret a)
| raises_no_http_Raise (e : Exc) :
    is_http e = false -> raises_no_http (Raise e)
| raises_no_http_Call {X : Type} (o : Op X) (k : X -> Prog A) :
    (forall x, raises_no_http (k x)) -> raises_no_http (Call o k).

(** The calls that only read. *)
Definition reads {X : Type} (o : Op X) : bool :=
  match o with
  | Scalars_Product _ | Scalars_Product_join_Category _ | Scalars_Category _
  | Scalars_Review _ | Execute_avg_grade _ | Get_Product _
  | Refresh_Product _ | Refresh_Review _ => true
  | _ => false
  end.

(** The programs that raise their [HTTPException]s before they write: reads
    and checks first, and from the first write on no [HTTPException]. *)
Inductive validates_first {A : Type} : Prog A -> Prop :=
| validates_first_rest (p : Prog A) : raises_no_http p -> validates_first p
| validates_first_Raise (e : Exc) : validates_first (Raise e)
| validates_first_Call {X : Type} (o : Op X) (k : X -> Prog A) :
    reads o = true -> (forall x, validates_first (k x)) ->
    validates_first (Call o k).

(** The five GET endpoints. *)
Definition is_get (rq : Request) : bool :=
  match rq with
  | GET_products | GET_products_category _ | GET_product _
  | GET_reviews | GET_reviews_of_product _ => true
  | _ => false
  end.

(** The writes of the endpoints other than review creation: [tame], and no
    INSERT into reviews. *)
Definition tame_no_review (w : Write) : Prop :=
  tame w /\ match w with InsertReview _ => False | _ => True end.

(** The row [create_product] stores, and the tables after the three
    writes of the products router. *)
Definition stored_product (is_active_default : bool) (rating_default : Q)
  (d : Database) (product : ProductCreate.t) (current_user : User.t)
  : Product.t :=
  Product.with_id (next_id (map Product.id (products d)))
    (ProductModel is_active_default rating_default product
       (User.id current_user)).

Definition with_product (row : Product.t) (d : Database) : Database :=
  mkDatabase (products d ++ [row]) (categories d) (reviews d).

Definition updated (product_id : Z) (product : ProductCreate.t)
  (d : Database) : Database :=
  mkDatabase
    (update_where (fun p => Product.id p =? product_id)
       (Product.with_values product) (products d))
    (categories d) (reviews d).

Definition soft_deleted (product_id : Z) (d : Database) : Database :=
  mkDatabase
    (update_where (fun p => Product.id p =? product_id)
       (Product.with_is_active false) (products d))
    (categories d) (reviews d).

(** A second shop: the tea with its three reviews, and a coffee of another
    seller, out of stock and not reviewed. *)
Module Market.

Definition coffee : Product.t :=
  Product.mk 2 "coffee" None (7 # 1) None 0 1 8 true 0.

Definition stalls : Database := with_product coffee Example.shop_551.

End Market.

(** The tables [d] once a request has written there the rating it computed
    from the tables it had [seen]. *)
Definition rated_from (seen d : Database) (product_id : Z) : Database :=
  mkDatabase
    (update_where (fun p => Product.id p =? product_id)
       (Product.with_rating (avg_rating seen product_id)) (products d))
    (categories d) (reviews d).

(** * Properties *)

(** ** The interpreter *)

Lemma run_Ret {A : Type} (a : A) (c : Conn) : run (Ret a) c = (inr a, c).
Proof. reflexivity. Qed.

Lemma run_Raise {A : Type} (e : Exc) (c : Conn) :
  run (@Raise A e) c = (inl e, c).
Proof. reflexivity. Qed.

Lemma run_bind {A B : Type} (m : Prog A) (f : A -> Prog B) (c : Conn) :
  run (bind m f) c =
  match run m c with
  | (inl e, c') => (inl e, c')
  | (inr a, c') => run (f a) c'
  end.
Proof.
  revert c. induction m as [a | e | X o k IH]; intros c; simpl; trivial.
  destruct (exec o c) as [[e | x] c']; trivial.
Qed.

Lemma run_call {X : Type} (o : Op X) (c : Conn) : run (call o) c = exec o c.
Proof.
  unfold call. simpl. now destruct (exec o c) as [[e | x] c'].
Qed.

Arguments bind : simpl never.
Arguments run : simpl never.
Arguments update_product_rating : simpl never.

Lemma flush_app (ws ws' : list Write) (d : Database) :
  flush (ws ++ ws') d =
  match flush ws d with
  | None => None
  | Some (d', ks) =>
      match flush ws' d' with
      | None => None
      | Some (d'', ks') => Some (d'', ks ++ ks')
      end
  end.
Proof.
  revert d. induction ws as [| w ws IH]; intros d; simpl.
  - now destruct (flush ws' d) as [[d'' ks'] |].
  - destruct (apply_write w d) as [[d1 k1] |]; trivial.
    rewrite IH. destruct (flush ws d1) as [[d2 k2] |]; trivial.
    destruct (flush ws' d2) as [[d3 k3] |]; trivial.
    now rewrite app_assoc.
Qed.

(** The CHECK constraint: a transaction that commits has inserted no review
    with a grade outside 1..5. *)
Lemma flush_check_grade_range (ws : list Write) (d d' : Database)
  (ks : list Z) (row : Review.t) :
  flush ws d = Some (d', ks) -> In (InsertReview row) ws ->
  1 <= Review.grade row <= 5.
Proof.
  revert d ks. induction ws as [| w ws IH]; simpl; intros d ks H Hin;
    [contradiction |].
  destruct (apply_write w d) as [[d1 k1] |] eqn:E1; [| discriminate].
  destruct (flush ws d1) as [[d2 k2] |] eqn:E2; [| discriminate].
  destruct Hin as [-> | Hin].
  - simpl in E1. unfold Review.check_grade_range in E1.
    destruct ((1 <=? Review.grade row) && (Review.grade row <=? 5)) eqn:Eg;
      [lia | discriminate].
  - inversion H; subst. exact (IH d1 k2 E2 Hin).
Qed.

(** An awaited call either loses its round trip or is performed with the
    rest of the storage's answers. *)
Lemma exec_awaited {X : Type} (o : Op X) (c : Conn) :
  awaited o = true ->
  (exists rest, faults c = true :: rest /\
                exec o c = (inl OperationalError, mkConn (store c) [] rest))
  \/ exec o c = perform o (mkConn (store c) (txn c) (tl (faults c))).
Proof.
  intros Ha. unfold exec. rewrite Ha.
  destruct c as [s t [| [|] rest]]; simpl; eauto.
Qed.

Lemma exec_no_fault {X : Type} (o : Op X) (d : Database) (t : list Write) :
  exec o (mkConn d t []) = perform o (mkConn d t []).
Proof. unfold exec. now destruct (awaited o). Qed.

(** The next call of a run whose storage answers. *)
Ltac answered :=
  rewrite run_bind, run_call, exec_no_fault;
  cbn [perform]; unfold query, view, enqueue;
  cbn [flush apply_write txn store faults app].

(** A read never changes the committed tables; when it answers, it answers
    from the request's view and keeps the open transaction. *)
Lemma exec_query {X : Type} (o : Op X) (f : Database -> Exc + X) :
  awaited o = true ->
  (forall c, perform o c = query f c) ->
  forall c r c', exec o c = (r, c') ->
    store c' = store c /\
    match r with
    | inr x => exists v, view c = Some v /\ f v = inr x /\
                         txn c' = txn c /\ faults c' = tl (faults c)
    | inl _ => txn c' = []
    end.
Proof.
  intros Ha Hp c r c' He.
  destruct (exec_awaited o c Ha) as [(rest & _ & E) | E]; rewrite E in He.
  - inversion He; subst; simpl; auto.
  - rewrite Hp in He. unfold query, view in *. simpl in He.
    destruct (flush (txn c) (store c)) as [[v ks] |].
    + destruct (f v) as [e | x] eqn:Ef; inversion He; subst; simpl; auto.
      split; trivial. exists v; auto.
    + inversion He; subst; simpl; auto.
Qed.

Ltac invert_query E :=
  eapply exec_query in E; [| reflexivity | intro; reflexivity].

Lemma exec_Commit (c : Conn) (r : Exc + list Z) (c' : Conn) :
  exec Commit c = (r, c') ->
  match r with
  | inr keys => flush (txn c) (store c) = Some (store c', keys) /\
                txn c' = [] /\ faults c' = tl (faults c)
  | inl _ => store c' = store c /\ txn c' = []
  end.
Proof.
  intros He.
  destruct (exec_awaited Commit c eq_refl) as [(rest & _ & E) | E];
    rewrite E in He.
  - inversion He; subst; simpl; auto.
  - simpl in He. destruct (flush (txn c) (store c)) as [[d ks] |];
      inversion He; subst; simpl; auto.
Qed.

(** ** Tables *)

Lemma find_update_where (pk : Z) (values : Product.t -> Product.t)
  (rows : list Product.t) :
  (forall p, Product.id (values p) = Product.id p) ->
  find (fun p => Product.id p =? pk)
    (update_where (fun p => Product.id p =? pk) values rows)
  = option_map values (find (fun p => Product.id p =? pk) rows).
Proof.
  intros Hid. induction rows as [| p rows IH]; simpl; trivial.
  destruct (Product.id p =? pk) eqn:E.
  - now rewrite Hid, E.
  - now rewrite E.
Qed.

Lemma find_Product_id (pk : Z) (d : Database) (p : Product.t) :
  find_Product pk d = Some p -> Product.id p = pk.
Proof.
  unfold find_Product. intros H. apply find_some in H. lia.
Qed.

Lemma update_where_twice {A : Type} (where_ : A -> bool) (values : A -> A)
  (rows : list A) :
  (forall x, where_ (values x) = where_ x) ->
  (forall x, values (values x) = values x) ->
  update_where where_ values (update_where where_ values rows)
  = update_where where_ values rows.
Proof.
  intros Hw Hv. unfold update_where. rewrite map_map. apply map_ext.
  intros x. destruct (where_ x) eqn:E.
  - now rewrite Hw, E, Hv.
  - now rewrite E.
Qed.

(** ** Rounding to a float *)

Lemma round_half_even_close (q : Q) :
  (Qabs (inject_Z (round_half_even q) - q) <= 1 # 2)%Q.
Proof.
  destruct q as [n d]. unfold round_half_even. cbn [Qnum Qden].
  pose proof (Z.div_mod n (Zpos d) ltac:(lia)) as Hdiv.
  pose proof (Z.mod_pos_bound n (Zpos d) ltac:(lia)) as Hmod.
  set (m := n / Zpos d) in *. set (r := n mod Zpos d) in *.
  assert (forall k : Z, 2 * Z.abs (k * Zpos d - n) <= Zpos d ->
            (Qabs (inject_Z k - (n # d)) <= 1 # 2)%Q) as Hq.
  { intros k Hk. unfold Qle, Qabs, Qminus, Qplus, Qopp, inject_Z.
    cbn [Qnum Qden]. rewrite Pos.mul_1_l. lia. }
  destruct (2 * r ?= Zpos d) eqn:E;
    [apply Z.compare_eq in E | rewrite Z.compare_lt_iff in E
    | rewrite Z.compare_gt_iff in E];
    [destruct (Z.even m) |..]; apply Hq; lia.
Qed.

Lemma round_half_even_ge (a : Z) (q : Q) :
  (inject_Z a <= q)%Q -> a <= round_half_even q.
Proof.
  destruct q as [n d]. unfold Qle, inject_Z, round_half_even.
  cbn [Qnum Qden]. intros H.
  assert (a <= n / Zpos d) as Hm
      by (apply Z.div_le_lower_bound; lia).
  destruct (2 * (n mod Zpos d) ?= Zpos d);
    [destruct (Z.even (n / Zpos d)) |..]; lia.
Qed.

Lemma round_half_even_le (b : Z) (q : Q) :
  (q <= inject_Z b)%Q -> round_half_even q <= b.
Proof.
  destruct q as [n d]. unfold Qle, inject_Z, round_half_even.
  cbn [Qnum Qden]. intros H.
  pose proof (Z.div_mod n (Zpos d) ltac:(lia)) as Hdiv.
  pose proof (Z.mod_pos_bound n (Zpos d) ltac:(lia)) as Hmod.
  set (m := n / Zpos d) in *. set (r := n mod Zpos d) in *.
  assert (m <= b) as Hm by nia.
  assert (0 < r -> m + 1 <= b) as Hr by nia.
  destruct (2 * r ?= Zpos d) eqn:E;
    [apply Z.compare_eq in E | rewrite Z.compare_lt_iff in E
    | rewrite Z.compare_gt_iff in E];
    [destruct (Z.even m) |..]; lia.
Qed.

Lemma two_not_0 : ~ (2 == 0)%Q.
Proof. discriminate. Qed.

Lemma pow2_pos (e : Z) : (0 < 2 ^ e)%Q.
Proof. now apply Qpower_0_lt. Qed.

Lemma pow2_inv (e : Z) : (2 ^ (- e) * 2 ^ e == 1)%Q.
Proof.
  rewrite <- Qpower_plus by exact two_not_0.
  now replace (- e + e) with 0 by lia.
Qed.


Lemma Qabs_frac (q : Q) :
  (Qabs q == inject_Z (Z.abs (Qnum q)) / inject_Z (Zpos (Qden q)))%Q.
Proof.
  destruct q as [n d]. unfold Qabs, Qeq, Qdiv, Qmult, Qinv, inject_Z.
  cbn [Qnum Qden]. rewrite Pos.mul_1_l. lia.
Qed.

Lemma Qnum_not_0 (q : Q) : ~ (q == 0)%Q -> 0 < Z.abs (Qnum q).
Proof.
  intros Hq. destruct q as [[| p | p] d]; cbn [Qnum]; try lia.
  exfalso. apply Hq. reflexivity.
Qed.

(** [ilog2 q] is not above the binary logarithm of [|q|]. *)
Lemma ilog2_le (q : Q) : ~ (q == 0)%Q -> (2 ^ ilog2 q <= Qabs q)%Q.
Proof.
  intros Hq. unfold ilog2.
  pose proof (Qnum_not_0 q Hq) as Hn.
  set (n := Z.abs (Qnum q)) in *. set (d := Zpos (Qden q)).
  destruct (Qle_bool (2 ^ (Z.log2 n - Z.log2 d)) (Qabs q)) eqn:E;
    [now apply Qle_bool_iff |].
  pose proof (Z.log2_spec n Hn) as [Ha _].
  pose proof (Z.log2_spec d ltac:(unfold d; lia)) as [_ Hb].
  pose proof (Z.log2_nonneg n) as A0. pose proof (Z.log2_nonneg d) as B0.
  replace (Z.log2 n - Z.log2 d - 1) with (Z.log2 n + - (Z.log2 d + 1))
    by lia.
  rewrite Qpower_plus, Qpower_opp by exact two_not_0.
  rewrite <- !(Zpower_Qpower 2) by lia.
  rewrite Qabs_frac. fold n d.
  assert (0 < inject_Z (2 ^ (Z.log2 d + 1)))%Q as P1
      by (rewrite <- (Zlt_Qlt 0); lia).
  assert (0 < inject_Z d)%Q as P2 by (rewrite <- (Zlt_Qlt 0); unfold d; lia).
  unfold Qdiv.
  apply Qle_trans with (inject_Z n * / inject_Z (2 ^ (Z.log2 d + 1)))%Q.
  - apply Qmult_le_compat_r; [now rewrite <- Zle_Qle |].
    apply Qlt_le_weak, Qinv_lt_0_compat, P1.
  - rewrite Qmult_le_l by (rewrite <- (Zlt_Qlt 0); lia).
    apply Qlt_le_weak, (Qinv_lt_contravar _ _ P2 P1).
    rewrite <- Zlt_Qlt. exact Hb.
Qed.

(** [ilog2 q] is the exponent of the leading bit: with it the significand
    [|q| / 2 ^ (ilog2 q - 52)] lies from [2 ^ 52] to [2 ^ 53]. *)
Lemma ilog2_lt (q : Q) : ~ (q == 0)%Q -> (Qabs q < 2 ^ (ilog2 q + 1))%Q.
Proof.
  intros Hq. unfold ilog2.
  pose proof (Qnum_not_0 q Hq) as Hn.
  set (n := Z.abs (Qnum q)) in *. set (d := Zpos (Qden q)).
  destruct (Qle_bool (2 ^ (Z.log2 n - Z.log2 d)) (Qabs q)) eqn:E.
  - pose proof (Z.log2_spec n Hn) as [_ Ha].
    pose proof (Z.log2_spec d ltac:(unfold d; lia)) as [Hb _].
    pose proof (Z.log2_nonneg n) as A0. pose proof (Z.log2_nonneg d) as B0.
    replace (Z.log2 n - Z.log2 d + 1) with (Z.log2 n + 1 + - Z.log2 d)
      by lia.
    rewrite Qpower_plus, Qpower_opp by exact two_not_0.
    rewrite <- !(Zpower_Qpower 2) by lia.
    rewrite Qabs_frac. fold n d.
    assert (0 < inject_Z (2 ^ Z.log2 d))%Q as P1
        by (rewrite <- (Zlt_Qlt 0); lia).
    assert (0 < inject_Z d)%Q as P2
        by (rewrite <- (Zlt_Qlt 0); unfold d; lia).
    unfold Qdiv.
    apply Qlt_le_trans with (inject_Z (2 ^ (Z.log2 n + 1)) * / inject_Z d)%Q.
    + apply Qmult_lt_compat_r; [now apply Qinv_lt_0_compat |].
      rewrite <- Zlt_Qlt. exact Ha.
    + rewrite Qmult_le_l by (rewrite <- (Zlt_Qlt 0); lia).
      apply Qle_shift_inv_r; [exact P2 |].
      rewrite Qmult_comm. apply Qle_shift_div_l; [exact P1 |].
      rewrite Qmult_1_l, <- Zle_Qle. exact Hb.
  - replace (Z.log2 n - Z.log2 d - 1 + 1) with (Z.log2 n - Z.log2 d) by lia.
    apply Qnot_le_lt. intros H. apply Qle_bool_iff in H. congruence.
Qed.

Lemma Qred_twice (q : Q) : Qred (Qred q) = Qred q.
Proof. apply Qred_complete, Qred_correct. Qed.

Lemma Qred_inject_Z (z : Z) : Qred (inject_Z z) = inject_Z z.
Proof.
  unfold Qred, inject_Z.
  pose proof (Z.ggcd_gcd z 1) as Hg.
  pose proof (Z.ggcd_correct_divisors z 1) as Hd.
  destruct (Z.ggcd z 1) as [g [a b]]. cbn [fst snd] in *.
  rewrite Z.gcd_1_r in Hg. subst g. destruct Hd as [-> Hb].
  replace b with 1 by lia. now rewrite Z.mul_1_l.
Qed.

(** ** [binary64] *)

(** The value is in lowest terms. *)
Lemma binary64_Qred (q : Q) : Qred (binary64 q) = binary64 q.
Proof.
  unfold binary64. destruct (Qeq_bool (Qred q) 0); [reflexivity |].
  apply Qred_twice.
Qed.

(** Equal rationals round to the same float. *)
Lemma binary64_ext (p q : Q) : (p == q)%Q -> binary64 p = binary64 q.
Proof. intros H. unfold binary64. now rewrite (Qred_complete p q H). Qed.

Lemma binary64_0 (q : Q) : (binary64 q == 0)%Q -> binary64 q = 0%Q.
Proof.
  intros H. rewrite <- binary64_Qred. now rewrite (Qred_complete _ _ H).
Qed.

(** What [binary64] computes, for a rational other than 0. *)
Lemma binary64_spec (q : Q) :
  ~ (q == 0)%Q ->
  let e := ilog2 (Qred q) - (prec - 1) in
  (binary64 q
   == inject_Z (round_half_even (Qred q * 2 ^ (- e))) * 2 ^ e)%Q.
Proof.
  intros Hq e. unfold binary64.
  destruct (Qeq_bool (Qred q) 0) eqn:E.
  - apply Qeq_bool_iff in E. rewrite Qred_correct in E. contradiction.
  - fold e. apply Qred_correct.
Qed.

(** The rounding error is at most half a unit in the last of 53 places. *)
Lemma binary64_close (q : Q) :
  (Qabs (binary64 q - q) <= Qabs q * (1 # 2 ^ 53))%Q.
Proof.
  destruct (Qeq_dec q 0) as [Hq | Hq].
  - rewrite (binary64_ext q 0 Hq), Hq. discriminate.
  - pose proof (binary64_spec q Hq) as Hs. cbv zeta in Hs.
    set (x := Qred q) in *. set (e := ilog2 x - (prec - 1)) in *.
    assert (x == q)%Q as Hx by apply Qred_correct.
    assert (~ (x == 0)%Q) as Hx0 by now rewrite Hx.
    pose proof (ilog2_le x Hx0) as Hl.
    pose proof (round_half_even_close (x * 2 ^ (- e))) as Hr.
    set (m := round_half_even (x * 2 ^ (- e))) in *.
    assert (binary64 q - q
            == (inject_Z m - x * 2 ^ (- e)) * 2 ^ e)%Q as ->.
    { rewrite Hs, <- Hx.
      setoid_replace ((inject_Z m - x * 2 ^ (- e)) * 2 ^ e)%Q
        with (inject_Z m * 2 ^ e - x * (2 ^ (- e) * 2 ^ e))%Q by ring.
      rewrite pow2_inv. ring. }
    rewrite Qabs_Qmult, (Qabs_pos (2 ^ e))
      by apply Qlt_le_weak, pow2_pos.
    apply Qle_trans with ((1 # 2) * 2 ^ e)%Q.
    + apply Qmult_le_compat_r; [exact Hr | apply Qlt_le_weak, pow2_pos].
    + rewrite <- Hx.
      apply Qle_trans with (2 ^ ilog2 x * (1 # 2 ^ 53))%Q.
      * replace (ilog2 x) with (e + 52) by (unfold e, prec; lia).
        rewrite Qpower_plus by exact two_not_0.
        setoid_replace (2 ^ e * 2 ^ 52 * (1 # 2 ^ 53))%Q
          with ((1 # 2) * 2 ^ e)%Q; [apply Qle_refl |].
        setoid_replace (2 ^ 52 : Q)%Q with (inject_Z (2 ^ 52))
          by (now rewrite Zpower_Qpower).
        change (inject_Z (2 ^ 52)) with (4503599627370496 # 1)%Q.
        change (1 # 2 ^ 53)%Q with (1 # 9007199254740992)%Q.
        ring.
      * apply Qmult_le_compat_r; [exact Hl | discriminate].
Qed.

(** A float is not rounded across an integer, up to [2 ^ 53]. *)
Lemma binary64_exponent (q : Q) :
  ~ (q == 0)%Q -> (Qabs q < 2 ^ 53)%Q -> ilog2 (Qred q) - (prec - 1) <= 0.
Proof.
  intros Hq Hb.
  assert (~ (Qred q == 0)%Q) as Hx by now rewrite Qred_correct.
  pose proof (ilog2_le _ Hx) as Hl.
  rewrite (Qabs_wd _ _ (Qred_correct q)) in Hl.
  assert (ilog2 (Qred q) < 53)
    by (apply (Qpower_lt_compat_l_inv 2); [| reflexivity];
        eapply Qle_lt_trans; eassumption).
  unfold prec. lia.
Qed.

Lemma binary64_ge (a : Z) (q : Q) :
  (Qabs q < 2 ^ 53)%Q -> (inject_Z a <= q)%Q -> (inject_Z a <= binary64 q)%Q.
Proof.
  intros Hb Ha. destruct (Qeq_dec q 0) as [Hq | Hq].
  - rewrite (binary64_ext q 0 Hq). change (binary64 0) with 0%Q.
    now rewrite Hq in Ha.
  - rewrite (binary64_spec q Hq). cbv zeta.
    pose proof (binary64_exponent q Hq Hb) as He.
    set (e := ilog2 (Qred q) - (prec - 1)) in *.
    assert (2 ^ (- e) == inject_Z (2 ^ (- e)))%Q as Hn
        by (now rewrite Zpower_Qpower by lia).
    assert (a * 2 ^ (- e) <= round_half_even (Qred q * 2 ^ (- e))) as Hm.
    { apply round_half_even_ge. rewrite inject_Z_mult, <- Hn, Qred_correct.
      apply Qmult_le_compat_r; [exact Ha | apply Qlt_le_weak, pow2_pos]. }
    apply Qle_trans with (inject_Z (a * 2 ^ (- e)) * 2 ^ e)%Q.
    + rewrite inject_Z_mult, <- Hn, <- Qmult_assoc, pow2_inv, Qmult_1_r.
      apply Qle_refl.
    + apply Qmult_le_compat_r; [now rewrite <- Zle_Qle |].
      apply Qlt_le_weak, pow2_pos.
Qed.

Lemma binary64_le (b : Z) (q : Q) :
  (Qabs q < 2 ^ 53)%Q -> (q <= inject_Z b)%Q -> (binary64 q <= inject_Z b)%Q.
Proof.
  intros Hb Ha. destruct (Qeq_dec q 0) as [Hq | Hq].
  - rewrite (binary64_ext q 0 Hq). change (binary64 0) with 0%Q.
    now rewrite Hq in Ha.
  - rewrite (binary64_spec q Hq). cbv zeta.
    pose proof (binary64_exponent q Hq Hb) as He.
    set (e := ilog2 (Qred q) - (prec - 1)) in *.
    assert (2 ^ (- e) == inject_Z (2 ^ (- e)))%Q as Hn
        by (now rewrite Zpower_Qpower by lia).
    assert (round_half_even (Qred q * 2 ^ (- e)) <= b * 2 ^ (- e)) as Hm.
    { apply round_half_even_le. rewrite inject_Z_mult, <- Hn, Qred_correct.
      apply Qmult_le_compat_r; [exact Ha | apply Qlt_le_weak, pow2_pos]. }
    apply Qle_trans with (inject_Z (b * 2 ^ (- e)) * 2 ^ e)%Q.
    + apply Qmult_le_compat_r; [now rewrite <- Zle_Qle |].
      apply Qlt_le_weak, pow2_pos.
    + rewrite inject_Z_mult, <- Hn, <- Qmult_assoc, pow2_inv, Qmult_1_r.
      apply Qle_refl.
Qed.

(** Rounding does not cross an integer. *)
Lemma binary64_between (a b : Z) (q : Q) :
  Z.abs a < 2 ^ 53 -> Z.abs b < 2 ^ 53 ->
  (inject_Z a <= q <= inject_Z b)%Q ->
  (inject_Z a <= binary64 q <= inject_Z b)%Q.
Proof.
  intros Ha Hb [Hl Hu].
  assert (Qabs q < 2 ^ 53)%Q as Hq.
  { apply Qle_lt_trans with (inject_Z (Z.max (Z.abs a) (Z.abs b))).
    - apply Qabs_Qle_condition. split.
      + apply Qle_trans with (inject_Z a); [| exact Hl].
        rewrite <- inject_Z_opp, <- Zle_Qle. lia.
      + apply Qle_trans with (inject_Z b); [exact Hu |].
        rewrite <- Zle_Qle. lia.
    - change (2 ^ 53)%Q with (inject_Z (2 ^ 53)). rewrite <- Zlt_Qlt. lia. }
  split; [now apply binary64_ge | now apply binary64_le].
Qed.

(** Integers of at most 53 bits are floats. *)
Lemma binary64_inject_Z (z : Z) :
  Z.abs z < 2 ^ 53 -> binary64 (inject_Z z) = inject_Z z.
Proof.
  intros Hz.
  assert (Qabs (inject_Z z) < 2 ^ 53)%Q as Hb.
  { change (2 ^ 53)%Q with (inject_Z (2 ^ 53)).
    change (Qabs (inject_Z z)) with (inject_Z (Z.abs z)).
    now rewrite <- Zlt_Qlt. }
  assert (binary64 (inject_Z z) == inject_Z z)%Q as H
      by (apply Qle_antisym;
          [apply binary64_le | apply binary64_ge]; trivial; apply Qle_refl).
  rewrite <- binary64_Qred, (Qred_complete _ _ H). apply Qred_inject_Z.
Qed.

(** [binary64] against the Standard Library's IEEE 754 division, on every
    quotient of a sum of at most 30 grades from 1 to 5 by their number. *)
Lemma binary64_agrees_with_SFdiv :
  forallb (fun n => forallb (fun s => agrees_with_SFdiv s n)
                      (upto (5 * Z.to_nat n)))
    (upto 30) = true.
Proof. vm_compute. reflexivity. Qed.

(** ** The mean *)

Lemma sum_grades_map (rows : list Review.t) :
  sum_grades rows = fold_right Z.add 0 (map Review.grade rows).
Proof. induction rows as [| r rows IH]; simpl; congruence. Qed.

(** [AVG(grade) or 0.0] is the mean of the selected grades, as a float. *)
Lemma or_zero_avg_grade (rows : list Review.t) :
  or_zero (avg_grade rows) = binary64 (mean (map Review.grade rows)).
Proof.
  destruct rows as [| r rows]; [reflexivity |].
  unfold avg_grade, or_zero.
  rewrite sum_grades_map.
  change (mean (map Review.grade (r :: rows))) with
    (inject_Z (fold_right Z.add 0%Z (map Review.grade (r :: rows)))
     / inject_Z (Z.of_nat (List.length (map Review.grade (r :: rows)))))%Q.
  rewrite length_map.
  match goal with |- (if Qeq_bool ?q 0 then _ else _) = _ =>
    destruct (Qeq_bool q 0) eqn:E; [| reflexivity] end.
  apply Qeq_bool_iff in E. symmetry. now apply binary64_0.
Qed.

Lemma active_reviews_of_spec (product_id : Z) (rows : list Review.t) :
  filter (active_reviews_of product_id) rows
  = filter (fun r => (Review.product_id r =? product_id) && Review.is_active r)
      rows.
Proof.
  apply filter_ext. intros r. unfold active_reviews_of.
  now destruct (Review.is_active r).
Qed.

Lemma avg_rating_mean (d : Database) (product_id : Z) :
  avg_rating d product_id = binary64 (mean (active_grades d product_id)).
Proof.
  unfold avg_rating, active_grades.
  rewrite or_zero_avg_grade, active_reviews_of_spec. reflexivity.
Qed.

(** The value computed is the mean to floating-point tolerance: half a unit
    in the last place. *)
Lemma avg_rating_close (d : Database) (product_id : Z) :
  (Qabs (avg_rating d product_id - mean (active_grades d product_id))
   <= Qabs (mean (active_grades d product_id)) * (1 # 2 ^ 53))%Q.
Proof. rewrite avg_rating_mean. apply binary64_close. Qed.

Lemma avg_rating_none (d : Database) (product_id : Z) :
  active_grades d product_id = [] -> avg_rating d product_id = 0%Q.
Proof.
  unfold avg_rating, active_grades. rewrite active_reviews_of_spec.
  intros H. apply map_eq_nil in H. now rewrite H.
Qed.

(** ** [update_product_rating] *)

Lemma view_flush (c : Conn) (v : Database) :
  view c = Some v -> exists ks, flush (txn c) (store c) = Some (v, ks).
Proof.
  unfold view. destruct (flush (txn c) (store c)) as [[d ks] |];
    intros H; inversion H; subst; eauto.
Qed.

(** Every run of the recomputation: an exception leaves the committed
    tables as they were, a return has committed the request's view with the
    new rating. *)
Lemma update_product_rating_run (product_id : Z) (c : Conn)
  (r : Exc + unit) (c' : Conn) :
  run (update_product_rating product_id) c = (r, c') ->
  match r with
  | inl _ => store c' = store c
  | inr _ => exists v p,
      view c = Some v /\ find_Product product_id v = Some p /\
      store c' = rated v product_id /\ txn c' = [] /\
      faults c' = tl (tl (tl (faults c)))
  end.
Proof.
  unfold update_product_rating. rewrite run_bind, run_call.
  destruct (exec (Execute_avg_grade (active_reviews_of product_id)) c)
    as [[e1 | result] c1] eqn:E1;
    invert_query E1;
    [ intros H; inversion H; subst; tauto |].
  destruct E1 as (S1 & v & Hv & Hres & T1 & F1).
  rewrite run_bind, run_call.
  destruct (exec (Get_Product product_id) c1) as [[e2 | product] c2] eqn:E2;
    invert_query E2;
    [ intros H; inversion H; subst; destruct E2; congruence |].
  destruct E2 as (S2 & v' & Hv' & Hget & T2 & F2).
  assert (v' = v) as ->
      by (unfold view in *; rewrite S1, T1 in Hv'; congruence).
  destruct product as [p |];
    [| simpl; intros H; inversion H; subst; congruence].
  inversion Hget as [Hp]. inversion Hres as [Hr].
  cbv iota. rewrite run_bind, run_call. unfold exec at 1.
  cbn [awaited perform]. rewrite run_bind, run_call.
  match goal with |- context [exec Commit ?cc] =>
    destruct (exec Commit cc) as [[e3 | keys] c3] eqn:E3 end;
    apply exec_Commit in E3; simpl in E3.
  - intros H; inversion H; subst. destruct E3; congruence.
  - simpl. intros H; inversion H; subst.
    destruct E3 as (Hfl & T3 & F3).
    exists v, p. repeat split; trivial.
    + destruct (view_flush _ _ Hv) as (ks & Hks).
      rewrite flush_app, T2, S2, T1, S1, Hks in Hfl. simpl in Hfl.
      inversion Hfl as [[Hd Hk]]. unfold rated.
      now rewrite (find_Product_id _ _ _ Hp).
    + now rewrite F3, F2, F1.
Qed.

Lemma find_Product_rated (v : Database) (product_id : Z) (p : Product.t) :
  find_Product product_id v = Some p ->
  find_Product product_id (rated v product_id)
  = Some (Product.with_rating (avg_rating v product_id) p).
Proof.
  intros H. unfold find_Product, rated. simpl.
  rewrite find_update_where by reflexivity.
  unfold find_Product in H. now rewrite H.
Qed.

Lemma avg_rating_rated (v : Database) (product_id pid : Z) :
  avg_rating (rated v product_id) pid = avg_rating v pid.
Proof. reflexivity. Qed.

Lemma rated_twice (v : Database) (product_id : Z) :
  rated (rated v product_id) product_id = rated v product_id.
Proof.
  unfold rated at 1. rewrite avg_rating_rated. unfold rated. simpl.
  now rewrite update_where_twice by reflexivity.
Qed.

(** With the storage answering and the product there, the recomputation
    returns. *)
Lemma update_product_rating_completes (product_id : Z) (d : Database)
  (p : Product.t) :
  find_Product product_id d = Some p ->
  run (update_product_rating product_id) (connect d [])
  = (inr tt, connect (rated d product_id) []).
Proof.
  intros Hp. unfold update_product_rating, connect.
  answered. answered. rewrite Hp. answered. answered.
  unfold rated, avg_rating. now rewrite (find_Product_id _ _ _ Hp).
Qed.

(** C1: after a completed run of [update_product_rating], the rating of the
    product is the arithmetic mean of the grades of its active reviews as a
    float: the binary64 number nearest to the mean, so within half a unit
    in the last place of it (the mean of 5, 5 and 1 is stored as
    8256599316845909 / 2 ^ 51, just below 11/3); and it is 0 when the
    product has no active review. *)
Theorem update_product_rating_is_mean (product_id : Z) (c c' : Conn) :
  run (update_product_rating product_id) c = (inr tt, c') ->
  exists p, find_Product product_id (store c') = Some p /\
    Product.rating p = binary64 (mean (active_grades (store c') product_id))
    /\
    (Qabs (Product.rating p - mean (active_grades (store c') product_id))
     <= Qabs (mean (active_grades (store c') product_id)) * (1 # 2 ^ 53))%Q
    /\
    (active_grades (store c') product_id = [] -> Product.rating p = 0%Q).
Proof.
  intros H. apply update_product_rating_run in H.
  destruct H as (v & p & _ & Hp & -> & _).
  exists (Product.with_rating (avg_rating v product_id) p).
  split; [now apply find_Product_rated |].
  cbn [Product.rating Product.with_rating].
  change (active_grades (rated v product_id) product_id)
    with (active_grades v product_id).
  split; [apply avg_rating_mean |].
  split; [apply avg_rating_close | apply avg_rating_none].
Qed.

Lemma update_product_rating_is_mean_witness :
  let c' := snd (run (update_product_rating 1) (connect Example.stale [])) in
  exists p, find_Product 1 (store c') = Some p /\
    Product.rating p = binary64 (mean (active_grades (store c') 1)) /\
    (Qabs (Product.rating p - mean (active_grades (store c') 1))
     <= Qabs (mean (active_grades (store c') 1)) * (1 # 2 ^ 53))%Q /\
    (active_grades (store c') 1 = [] -> Product.rating p = 0%Q).
Proof.
  exact (update_product_rating_is_mean 1 (connect Example.stale []) _
           eq_refl).
Defined.

(** C4: a run of [update_product_rating] either returns, and then the
    committed tables are those the request read with the rating of the
    product set to the value computed from them, or it raises, and then the
    committed tables, the rating with them, are as they were before. *)
Theorem update_product_rating_all_or_nothing (product_id : Z) (c : Conn) :
  match run (update_product_rating product_id) c with
  | (inr _, c') =>
      exists v p, view c = Some v /\ find_Product product_id v = Some p /\
        store c' = rated v product_id /\
        find_Product product_id (store c')
        = Some (Product.with_rating (avg_rating v product_id) p)
  | (inl _, c') => store c' = store c /\ ratings (store c') = ratings (store c)
  end.
Proof.
  destruct (run (update_product_rating product_id) c) as [[e | []] c'] eqn:E;
    apply update_product_rating_run in E.
  - now rewrite E.
  - destruct E as (v & p & Hv & Hp & Hs & _). exists v, p.
    repeat split; trivial. rewrite Hs. now apply find_Product_rated.
Qed.

(** C6: when no product has the key, [update_product_rating] raises to its
    caller (the [AttributeError] of [product.rating = ...] on [None] when
    the storage answers) and commits nothing. *)
Theorem update_product_rating_missing_product (product_id : Z)
  (d : Database) (fl : list bool) :
  find_Product product_id d = None ->
  exists e c',
    run (update_product_rating product_id) (connect d fl) = (inl e, c') /\
    store c' = d /\ (fl = [] -> e = AttributeError).
Proof.
  intros Hnone.
  destruct (run (update_product_rating product_id) (connect d fl))
    as [[e | []] c'] eqn:E.
  - exists e, c'. split; trivial. split.
    + now apply update_product_rating_run in E.
    + intros ->. revert E. unfold update_product_rating, connect.
      answered. answered. rewrite Hnone, run_Raise. congruence.
  - apply update_product_rating_run in E.
    destruct E as (v & p & Hv & Hp & _). unfold view in Hv. simpl in Hv.
    inversion Hv; subst. congruence.
Qed.

Lemma update_product_rating_missing_product_witness :
  exists e c',
    run (update_product_rating 4) (connect Example.shop_551 [])
    = (inl e, c') /\
    store c' = Example.shop_551 /\ (@nil bool = [] -> e = AttributeError).
Proof.
  exact (update_product_rating_missing_product 4 Example.shop_551 []
           eq_refl).
Defined.

(** C9: after a completed run of [update_product_rating], a second run
    with the same reviews in the tables that returns leaves the product with
    the rating the first run gave it; and on the very tables the first run
    left, a second run, whatever the storage does, changes nothing. *)
Theorem update_product_rating_idempotent (product_id : Z) (c c1 c2 : Conn) :
  run (update_product_rating product_id) c = (inr tt, c1) ->
  txn c2 = [] ->
  reviews (store c2) = reviews (store c1) ->
  (forall c3,
     run (update_product_rating product_id) c2 = (inr tt, c3) ->
     exists p1 p3,
       find_Product product_id (store c1) = Some p1 /\
       find_Product product_id (store c3) = Some p3 /\
       Product.rating p3 = Product.rating p1)
  /\
  (store c2 = store c1 ->
   store (snd (run (update_product_rating product_id) c2)) = store c1).
Proof.
  intros H1 Ht Hr. apply update_product_rating_run in H1.
  destruct H1 as (v & p & _ & Hp & Hc1 & _).
  assert (view c2 = Some (store c2)) as Hview
      by (unfold view; now rewrite Ht).
  split.
  - intros c3 H3. apply update_product_rating_run in H3.
    destruct H3 as (v' & p' & Hv' & Hp' & Hc3 & _).
    rewrite Hview in Hv'. inversion Hv'; subst v'.
    exists (Product.with_rating (avg_rating v product_id) p),
      (Product.with_rating (avg_rating (store c2) product_id) p').
    split; [rewrite Hc1; now apply find_Product_rated |].
    split; [rewrite Hc3; now apply find_Product_rated |].
    unfold avg_rating. cbn [Product.rating Product.with_rating].
    now rewrite Hr, Hc1.
  - intros Hs.
    destruct (run (update_product_rating product_id) c2) as [[e | []] c3]
      eqn:E2; apply update_product_rating_run in E2; cbn [snd].
    + congruence.
    + destruct E2 as (v' & p' & Hv' & _ & Hc3 & _).
      rewrite Hview in Hv'. inversion Hv'; subst v'.
      rewrite Hc3, Hs, Hc1. apply rated_twice.
Qed.

Lemma update_product_rating_idempotent_witness :
  let c1 := snd (run (update_product_rating 1) (connect Example.stale [])) in
  (forall c3,
     run (update_product_rating 1) c1 = (inr tt, c3) ->
     exists p1 p3,
       find_Product 1 (store c1) = Some p1 /\
       find_Product 1 (store c3) = Some p3 /\
       Product.rating p3 = Product.rating p1)
  /\
  (store c1 = store c1 ->
   store (snd (run (update_product_rating 1) c1)) = store c1).
Proof.
  intros c1.
  exact (update_product_rating_idempotent 1 (connect Example.stale []) c1 c1
           eq_refl eq_refl eq_refl).
Defined.

(** ** [create_review] *)

Lemma next_id_above (keys : list Z) (k : Z) : In k keys -> k < next_id keys.
Proof.
  intros Hin. unfold next_id.
  enough (k <= fold_right Z.max 0 keys) by lia.
  induction keys as [| k' keys IH]; simpl in *; [tauto |].
  destruct Hin as [-> | H]; [lia |]. specialize (IH H). lia.
Qed.

Lemma find_Review_stored (d : Database) (row : Review.t) :
  Review.id row = next_id (map Review.id (reviews d)) ->
  find_Review (Review.id row) (with_review row d) = Some row.
Proof.
  intros Hid. unfold find_Review, with_review. simpl.
  assert (forall rows, (forall r, In r rows -> Review.id r <> Review.id row) ->
            find (fun r => Review.id r =? Review.id row) (rows ++ [row])
            = Some row) as Hfind.
  { induction rows as [| r rows IH]; simpl; intros Hne.
    - now rewrite Z.eqb_refl.
    - destruct (Review.id r =? Review.id row) eqn:E.
      + apply Z.eqb_eq in E. exfalso. apply (Hne r); auto.
      + apply IH. intros r' Hr'. apply Hne. auto. }
  apply Hfind. intros r Hr. rewrite Hid.
  assert (Review.id r < next_id (map Review.id (reviews d)))
    by (apply next_id_above, in_map, Hr).
  lia.
Qed.

(** An active product with the key is a product with the key. *)
Lemma active_product_found (product_id : Z) (d : Database) (p : Product.t) :
  hd_error (filter (active_product product_id) (products d)) = Some p ->
  exists p', find_Product product_id d = Some p'.
Proof.
  intros H. unfold find_Product.
  destruct (find (fun q => Product.id q =? product_id) (products d))
    as [p' |] eqn:E; [eauto |].
  assert (In p (filter (active_product product_id) (products d))) as Hin.
  { destruct (filter (active_product product_id) (products d));
      inversion H; subst; simpl; auto. }
  apply filter_In in Hin. destruct Hin as [Hin Hact].
  apply (find_none _ _ E) in Hin. unfold active_product in Hact.
  simpl in Hin. rewrite Hin in Hact. discriminate.
Qed.

(** With the storage answering, an active product and a grade from 1 to 5,
    [create_review] stores the review, recomputes the rating and returns. *)
Lemma create_review_completes (d : Database) (review : ReviewCreate.t)
  (current_user : User.t) (now : Z) (p : Product.t) :
  hd_error (filter (active_product (ReviewCreate.product_id review))
              (products d)) = Some p ->
  grade_in_range (ReviewCreate.grade review) = true ->
  let row := stored_review d review current_user now in
  run (create_review review current_user now) (connect d [])
  = (inr row,
     connect (rated (with_review row d) (ReviewCreate.product_id review)) []).
Proof.
  intros Hp Hg row. unfold create_review, connect.
  answered. rewrite Hp. unfold grade_in_range in Hg. rewrite Hg.
  cbn [negb hd_error]. answered. answered.
  assert (Review.check_grade_range
            (ReviewModel review (User.id current_user) now) = true) as ->
      by exact Hg.
  fold (stored_review d review current_user now). fold row.
  fold (with_review row d). cbn [app last].
  answered. change (next_id (map Review.id (reviews d))) with (Review.id row).
  rewrite find_Review_stored by reflexivity.
  rewrite run_bind.
  destruct (active_product_found _ _ _ Hp) as (p' & Hp').
  fold (connect (with_review row d) []).
  rewrite (update_product_rating_completes _ (with_review row d) p')
    by exact Hp'.
  unfold connect. answered. reflexivity.
Qed.

Lemma grade_in_range_spec (grade : Z) :
  grade_in_range grade = true <-> 1 <= grade <= 5.
Proof. unfold grade_in_range. lia. Qed.

(** The session raises no [HTTPException]. *)
Lemma exec_not_http {X : Type} (o : Op X) (c : Conn) (e : Exc) (c' : Conn) :
  exec o c = (inl e, c') -> is_http e = false.
Proof.
  unfold exec.
  assert (perform o c = (inl e, c') -> is_http e = false) as Hperform.
  { clear. destruct o; simpl; unfold query, view;
      try (destruct (flush (txn c) (store c)) as [[d ks] |]);
      try (destruct (find_Product pk d)); try (destruct (find_Review pk d));
      intros H; inversion H; reflexivity. }
  destruct (awaited o); [| exact Hperform].
  destruct c as [s t [| [|] rest]]; [exact Hperform | |].
  - intros H; inversion H; reflexivity.
  - clear. destruct o; simpl; unfold query, view; simpl;
      try (destruct (flush t s) as [[d ks] |]);
      try (destruct (find_Product pk d)); try (destruct (find_Review pk d));
      intros H; inversion H; reflexivity.
Qed.

Section HttpFree.

Lemma http_free_call {X : Type} (o : Op X) : http_free (call o).
Proof. intros c e c'. rewrite run_call. apply exec_not_http. Qed.

Lemma http_free_Ret {A : Type} (a : A) : http_free (Ret a).
Proof. intros c e c'. rewrite run_Ret. discriminate. Qed.

Lemma http_free_Raise {A : Type} (e : Exc) :
  is_http e = false -> http_free (@Raise A e).
Proof. intros He c e' c'. rewrite run_Raise. congruence. Qed.

Lemma http_free_bind {A B : Type} (m : Prog A) (f : A -> Prog B) :
  http_free m -> (forall a, http_free (f a)) -> http_free (bind m f).
Proof.
  intros Hm Hf c e c'. rewrite run_bind.
  destruct (run m c) as [[e1 | a] c1] eqn:E.
  - intros H; inversion H; subst. eapply Hm, E.
  - apply Hf.
Qed.

Lemma http_free_update_product_rating (product_id : Z) :
  http_free (update_product_rating product_id).
Proof.
  unfold update_product_rating.
  apply http_free_bind; [apply http_free_call | intros result].
  apply http_free_bind; [apply http_free_call | intros [p |]].
  - repeat (apply http_free_bind; [apply http_free_call | intros ?]).
    apply http_free_Ret.
  - now apply http_free_Raise.
Qed.

End HttpFree.

(** Every run of [create_review] that ends in an [HTTPException]: it is the
    404 of the product check or, past that check, the 400 of the grade
    check, and the committed tables are as they were. *)
Lemma create_review_rejected (review : ReviewCreate.t) (current_user : User.t)
  (now : Z) (c : Conn) (e : Exc) (c' : Conn) :
  run (create_review review current_user now) c = (inl e, c') ->
  is_http e = true ->
  store c' = store c /\
  exists v, view c = Some v /\
    match hd_error (filter (active_product (ReviewCreate.product_id review))
                      (products v)) with
    | None => e = HTTPException 404 "Product not found or inactive"
    | Some _ => e = HTTPException 400 "Grade should be from 1 to 5" /\
                grade_in_range (ReviewCreate.grade review) = false
    end.
Proof.
  unfold create_review. rewrite run_bind, run_call.
  destruct (exec (Scalars_Product
                    (active_product (ReviewCreate.product_id review))) c)
    as [[e1 | result] c1] eqn:E1.
  - intros H He; inversion H; subst.
    apply exec_not_http in E1. congruence.
  - invert_query E1. destruct E1 as (S1 & v & Hv & Hres & _).
    inversion Hres as [Hr]. clear Hres.
    destruct (hd_error (filter _ (products v))) as [p |] eqn:Ehd.
    + fold (grade_in_range (ReviewCreate.grade review)).
      destruct (grade_in_range (ReviewCreate.grade review)) eqn:Eg;
        cbn [negb].
      * intros H He. exfalso.
        assert (is_http e = false); [| congruence].
        revert H. generalize c1 e c'.
        change (http_free
                  (call (Add_Review
                           (ReviewModel review (User.id current_user) now)) ;;
                   keys <- call Commit ;;
                   db_review <- call (Refresh_Review (last keys 0)) ;;
                   update_product_rating (ReviewCreate.product_id review) ;;
                   call Commit ;; Ret db_review)).
        repeat first
          [ apply http_free_Ret
          | apply http_free_bind;
            [ first [ apply http_free_call
                    | apply http_free_update_product_rating ]
            | intros ? ] ].
      * rewrite run_Raise. intros H _; inversion H; subst.
        split; [exact S1 | exists v; rewrite Ehd; auto].
    + rewrite run_Raise. intros H _; inversion H; subst.
      split; [exact S1 | exists v; rewrite Ehd; auto].
Qed.

(** A grade outside 1..5 never gets past [create_review], whatever the
    tables, the open transaction and the storage. *)
Lemma create_review_bad_grade (review : ReviewCreate.t) (current_user : User.t)
  (now : Z) (c : Conn) :
  grade_in_range (ReviewCreate.grade review) = false ->
  exists e c',
    run (create_review review current_user now) c = (inl e, c') /\
    store c' = store c.
Proof.
  intros Hg. unfold create_review. rewrite run_bind, run_call.
  destruct (exec (Scalars_Product
                    (active_product (ReviewCreate.product_id review))) c)
    as [[e1 | result] c1] eqn:E1; invert_query E1.
  - exists e1, c1. tauto.
  - destruct E1 as (S1 & _).
    fold (grade_in_range (ReviewCreate.grade review)). rewrite Hg.
    destruct (hd_error result); cbn [negb]; rewrite run_Raise; eauto.
Qed.

Lemma create_review_bad_grade_400 (review : ReviewCreate.t)
  (current_user : User.t) (now : Z) (d : Database) (p : Product.t) :
  grade_in_range (ReviewCreate.grade review) = false ->
  hd_error (filter (active_product (ReviewCreate.product_id review))
              (products d)) = Some p ->
  run (create_review review current_user now) (connect d [])
  = (inl (HTTPException 400 "Grade should be from 1 to 5"), connect d []).
Proof.
  intros Hg Hp. unfold create_review, connect. answered. rewrite Hp.
  fold (grade_in_range (ReviewCreate.grade review)). rewrite Hg.
  reflexivity.
Qed.

(** C3: [create_review] rejects a grade outside 1..5: the request ends in
    an exception and the tables are as they were, so no such review is
    stored (with an active product and the storage answering, the exception
    is the 400 of the grade check); a grade from 1 to 5, for an active
    product, is accepted and the review is stored with it. *)
Theorem create_review_grade_range (review : ReviewCreate.t)
  (current_user : User.t) (now : Z) :
  let grade := ReviewCreate.grade review in
  let product_id := ReviewCreate.product_id review in
  (grade < 1 \/ 5 < grade ->
   (forall c, exists e c',
       run (create_review review current_user now) c = (inl e, c') /\
       store c' = store c) /\
   (forall d p,
       hd_error (filter (active_product product_id) (products d)) = Some p ->
       run (create_review review current_user now) (connect d [])
       = (inl (HTTPException 400 "Grade should be from 1 to 5"),
          connect d [])))
  /\
  (1 <= grade <= 5 ->
   forall d p,
     hd_error (filter (active_product product_id) (products d)) = Some p ->
     exists row c',
       run (create_review review current_user now) (connect d [])
       = (inr row, c') /\
       Review.grade row = grade /\ Review.product_id row = product_id /\
       Review.is_active row = true /\
       reviews (store c') = reviews d ++ [row]).
Proof.
  intros grade product_id. split.
  - intros Hout.
    assert (grade_in_range grade = false) as Hg
        by (unfold grade_in_range; lia).
    split.
    + intros c. now apply create_review_bad_grade.
    + intros d p Hp. now apply create_review_bad_grade_400 with p.
  - intros Hin d p Hp. apply grade_in_range_spec in Hin.
    exists (stored_review d review current_user now).
    eexists. split; [now apply create_review_completes with p |].
    repeat split.
Qed.

Lemma create_review_grade_range_witness :
  (run (create_review (Example.review 0) Example.buyer 100)
     (connect Example.shop [])
   = (inl (HTTPException 400 "Grade should be from 1 to 5"),
      connect Example.shop []))
  /\ (run (create_review (Example.review 6) Example.buyer 100)
        (connect Example.shop [])
      = (inl (HTTPException 400 "Grade should be from 1 to 5"),
         connect Example.shop []))
  /\ (exists row c',
        run (create_review (Example.review 1) Example.buyer 100)
          (connect Example.shop []) = (inr row, c') /\
        Review.grade row = 1 /\ Review.product_id row = 1 /\
        Review.is_active row = true /\
        reviews (store c') = reviews Example.shop ++ [row])
  /\ (exists row c',
        run (create_review (Example.review 5) Example.buyer 100)
          (connect Example.shop []) = (inr row, c') /\
        Review.grade row = 5 /\ Review.product_id row = 1 /\
        Review.is_active row = true /\
        reviews (store c') = reviews Example.shop ++ [row]).
Proof.
  split; [| split; [| split]].
  - apply (proj2 (proj1 (create_review_grade_range (Example.review 0)
                           Example.buyer 100) (or_introl eq_refl))
             Example.shop Example.tea eq_refl).
  - apply (proj2 (proj1 (create_review_grade_range (Example.review 6)
                           Example.buyer 100) (or_intror eq_refl))
             Example.shop Example.tea eq_refl).
  - apply (proj2 (create_review_grade_range (Example.review 1)
                    Example.buyer 100)) with (p := Example.tea);
      [simpl; lia | reflexivity].
  - apply (proj2 (create_review_grade_range (Example.review 5)
                    Example.buyer 100)) with (p := Example.tea);
      [simpl; lia | reflexivity].
Defined.

(** C8: a review graded g, 1 <= g <= 5, for an active product without
    active reviews makes the rating of the product the number g itself. *)
Theorem create_review_first_rating (review : ReviewCreate.t)
  (current_user : User.t) (now : Z) (d : Database) (p : Product.t) :
  let grade := ReviewCreate.grade review in
  let product_id := ReviewCreate.product_id review in
  hd_error (filter (active_product product_id) (products d)) = Some p ->
  1 <= grade <= 5 ->
  active_grades d product_id = [] ->
  exists row c' p',
    run (create_review review current_user now) (connect d [])
    = (inr row, c') /\
    find_Product product_id (store c') = Some p' /\
    Product.rating p' = inject_Z grade.
Proof.
  intros grade product_id Hp Hg Hnone.
  pose proof (proj2 (grade_in_range_spec grade) Hg) as Hg'.
  destruct (active_product_found _ _ _ Hp) as (p0 & Hp0).
  set (row := stored_review d review current_user now).
  exists row, (connect (rated (with_review row d) product_id) []),
    (Product.with_rating (avg_rating (with_review row d) product_id) p0).
  split; [now apply create_review_completes with p |].
  split; [now apply find_Product_rated |].
  cbn [Product.rating Product.with_rating].
  unfold avg_rating, with_review. cbn [reviews].
  rewrite filter_app.
  unfold active_grades in Hnone. apply map_eq_nil in Hnone.
  rewrite active_reviews_of_spec, Hnone.
  cbn [filter app].
  assert (active_reviews_of product_id row = true) as ->
      by (unfold active_reviews_of; simpl; fold product_id;
          now rewrite Z.eqb_refl).
  rewrite or_zero_avg_grade. cbn [map].
  change (Review.grade row) with grade.
  rewrite (binary64_ext (mean [grade]) (inject_Z grade))
    by (unfold mean, Qeq, Qdiv, Qmult, Qinv, inject_Z; simpl; lia).
  apply binary64_inject_Z. lia.
Qed.

Lemma create_review_first_rating_witness :
  exists row c' p',
    run (create_review (Example.review 4) Example.buyer 100)
      (connect Example.shop []) = (inr row, c') /\
    find_Product 1 (store c') = Some p' /\
    Product.rating p' = inject_Z 4.
Proof.
  apply (create_review_first_rating (Example.review 4) Example.buyer 100
           Example.shop Example.tea); [reflexivity | simpl; lia | reflexivity].
Defined.

(** C10: [create_review] checks the product before the grade. When no
    active product has the key, the request ends in the 404, whatever the
    grade; and a request that ends in an [HTTPException] (the 404 or the
    400) has committed nothing: no review row, no rating. *)
Theorem create_review_checks_product_first (review : ReviewCreate.t)
  (current_user : User.t) (now : Z) :
  let product_id := ReviewCreate.product_id review in
  (forall d fl,
     hd_error (filter (active_product product_id) (products d)) = None ->
     hd false fl = false ->
     run (create_review review current_user now) (connect d fl)
     = (inl (HTTPException 404 "Product not found or inactive"),
        connect d (tl fl)))
  /\
  (forall c e c',
     run (create_review review current_user now) c = (inl e, c') ->
     is_http e = true ->
     store c' = store c /\ reviews (store c') = reviews (store c) /\
     ratings (store c') = ratings (store c)).
Proof.
  intros product_id. split.
  - intros d fl Hnone Hfl. unfold create_review, connect.
    rewrite run_bind, run_call.
    destruct fl as [| [|] rest]; try discriminate; unfold exec;
      cbn [awaited perform faults store txn tl]; unfold query, view;
      cbn [flush txn store]; fold product_id; rewrite Hnone; reflexivity.
  - intros c e c' Hrun He.
    destruct (create_review_rejected _ _ _ _ _ _ Hrun He) as (Hs & _).
    now rewrite Hs.
Qed.

Lemma create_review_checks_product_first_witness :
  run (create_review (ReviewCreate.mk 8 None 6) Example.buyer 100)
    (connect Example.shop [])
  = (inl (HTTPException 404 "Product not found or inactive"),
     connect Example.shop [])
  /\ (let c' := snd (run (create_review (Example.review 0) Example.buyer 100)
                       (connect Example.shop [])) in
      store c' = Example.shop /\ reviews (store c') = reviews Example.shop /\
      ratings (store c') = ratings Example.shop).
Proof.
  split.
  - exact (proj1 (create_review_checks_product_first
                    (ReviewCreate.mk 8 None 6) Example.buyer 100)
             Example.shop [] eq_refl eq_refl).
  - exact (proj2 (create_review_checks_product_first
                    (Example.review 0) Example.buyer 100)
             (connect Example.shop []) _ _ eq_refl eq_refl).
Defined.

(** ** [delete_review] *)

Lemma active_review_selected (review_id : Z) (d : Database)
  (review : Review.t) :
  find_Review review_id d = Some review ->
  Review.is_active review = true ->
  hd_error (filter (fun r => (Review.id r =? review_id)
                             && Bool.eqb (Review.is_active r) true)
              (reviews d)) = Some review.
Proof.
  unfold find_Review. intros Hfind Hact.
  induction (reviews d) as [| r rows IH]; simpl in *; [discriminate |].
  destruct (Review.id r =? review_id) eqn:E; simpl.
  - inversion Hfind; subst. now rewrite Hact.
  - now apply IH.
Qed.

Lemma find_Review_deactivated (review_id : Z) (d : Database)
  (review : Review.t) :
  find_Review review_id d = Some review ->
  find_Review review_id (deactivated review_id d)
  = Some (Review.with_is_active false review).
Proof.
  unfold find_Review, deactivated. simpl. intros Hfind.
  induction (reviews d) as [| r rows IH]; simpl in *; [discriminate |].
  destruct (Review.id r =? review_id) eqn:E; simpl; rewrite E.
  - now inversion Hfind.
  - now apply IH.
Qed.

Lemma active_grades_deactivated (d : Database) (product_id review_id : Z) :
  active_grades (deactivated review_id d) product_id
  = remaining_grades d product_id review_id.
Proof.
  unfold active_grades, remaining_grades, deactivated. simpl.
  induction (reviews d) as [| r rows IH]; simpl; trivial.
  destruct (Review.id r =? review_id) eqn:E; simpl.
  - rewrite !andb_false_r. exact IH.
  - rewrite andb_true_r.
    destruct ((Review.product_id r =? product_id) && Review.is_active r);
      simpl; now rewrite IH.
Qed.

(** With the storage answering, an active review and its product there,
    [delete_review] flags the review, recomputes the rating and returns. *)
Lemma delete_review_completes (review_id : Z) (current_user : User.t)
  (d : Database) (review : Review.t) (p : Product.t) :
  find_Review review_id d = Some review ->
  Review.is_active review = true ->
  find_Product (Review.product_id review) d = Some p ->
  run (delete_review review_id current_user) (connect d [])
  = (inr "Review deleted"%string,
     connect (rated (deactivated review_id d) (Review.product_id review)) []).
Proof.
  intros Hfind Hact Hp. unfold delete_review, connect.
  answered. rewrite (active_review_selected _ _ _ Hfind Hact).
  answered. answered. fold (deactivated review_id d).
  assert (Review.id review = review_id) as ->
      by (unfold find_Review in Hfind; apply find_some in Hfind; lia).
  answered. rewrite (find_Review_deactivated _ _ _ Hfind).
  rewrite run_bind. cbn [Review.product_id Review.with_is_active].
  fold (connect (deactivated review_id d) []).
  rewrite (update_product_rating_completes _ (deactivated review_id d) p)
    by exact Hp.
  reflexivity.
Qed.

(** C2: soft-deleting an active review leaves the rating of its product at
    the mean of the active grades that remain, as a float (the binary64
    number nearest to the mean, within half a unit in the last place of
    it), and at 0 when none remains. With the active grades 5, 5 and 1 the
    rating is the float nearest to 11/3, which is
    8256599316845909 / 2 ^ 51; once the review graded 1 is soft-deleted it
    is 5. *)
Theorem delete_review_recomputes_mean :
  (forall review_id current_user d review p,
     find_Review review_id d = Some review ->
     Review.is_active review = true ->
     find_Product (Review.product_id review) d = Some p ->
     let product_id := Review.product_id review in
     exists c' p',
       run (delete_review review_id current_user) (connect d [])
       = (inr "Review deleted"%string, c') /\
       active_grades (store c') product_id
       = remaining_grades d product_id review_id /\
       find_Product product_id (store c') = Some p' /\
       Product.rating p'
       = binary64 (mean (remaining_grades d product_id review_id)) /\
       (Qabs (Product.rating p'
              - mean (remaining_grades d product_id review_id))
        <= Qabs (mean (remaining_grades d product_id review_id))
           * (1 # 2 ^ 53))%Q /\
       (remaining_grades d product_id review_id = [] ->
        Product.rating p' = 0%Q))
  /\
  (active_grades Example.shop_551 1 = [5; 5; 1] /\
   ratings Example.shop_551 = [(1, binary64 (11 # 3))] /\
   binary64 (11 # 3) = (8256599316845909 # 2 ^ 51)%Q /\
   (Qabs (binary64 (11 # 3) - (11 # 3)) <= (11 # 3) * (1 # 2 ^ 53))%Q /\
   active_grades Example.shop_55x 1 = [5; 5] /\
   ratings Example.shop_55x = [(1, 5%Q)]).
Proof.
  split.
  - intros review_id current_user d review p Hfind Hact Hp product_id.
    exists (connect (rated (deactivated review_id d) product_id) []),
      (Product.with_rating
         (avg_rating (deactivated review_id d) product_id) p).
    split; [now apply delete_review_completes with p |].
    split; [apply (active_grades_deactivated d) |].
    split; [now apply (find_Product_rated (deactivated review_id d)) |].
    cbn [Product.rating Product.with_rating].
    rewrite <- active_grades_deactivated.
    split; [apply avg_rating_mean |].
    split; [apply avg_rating_close | apply avg_rating_none].
  - split; [reflexivity |]. split; [vm_compute; reflexivity |].
    split; [vm_compute; reflexivity |].
    split; [apply (binary64_close (11 # 3)) |].
    split; vm_compute; reflexivity.
Qed.

Lemma delete_review_recomputes_mean_witness :
  exists c' p',
    run (delete_review 3 Example.admin) (connect Example.shop_551 [])
    = (inr "Review deleted"%string, c') /\
    active_grades (store c') 1 = remaining_grades Example.shop_551 1 3 /\
    find_Product 1 (store c') = Some p' /\
    Product.rating p' = binary64 (mean (remaining_grades Example.shop_551 1 3))
    /\
    (Qabs (Product.rating p' - mean (remaining_grades Example.shop_551 1 3))
     <= Qabs (mean (remaining_grades Example.shop_551 1 3))
        * (1 # 2 ^ 53))%Q /\
    (remaining_grades Example.shop_551 1 3 = [] -> Product.rating p' = 0%Q).
Proof.
  exact (proj1 delete_review_recomputes_mean 3 Example.admin
           Example.shop_551
           (Review.mk 3 9 1 (Some "fine"%string) 102 1 true)
           (Product.with_rating (binary64 (11 # 3)) Example.tea)
           eq_refl eq_refl eq_refl).
Defined.

(** ** The writers of [rating] *)

Lemma ratings_kept_refl (d : Database) : ratings_kept d d.
Proof. exists []. now rewrite app_nil_r. Qed.

Lemma ratings_kept_trans (d1 d2 d3 : Database) :
  ratings_kept d1 d2 -> ratings_kept d2 d3 -> ratings_kept d1 d3.
Proof.
  intros [n1 H1] [n2 H2]. exists (n1 ++ n2). now rewrite H2, H1, app_assoc.
Qed.

Lemma ratings_kept_same (d d' : Database) : d' = d -> ratings_kept d d'.
Proof. intros ->. apply ratings_kept_refl. Qed.

Lemma ratings_kept_products (d d' : Database) :
  products d' = products d -> ratings_kept d d'.
Proof.
  intros H. exists []. unfold ratings. now rewrite H, app_nil_r.
Qed.

Lemma apply_write_ratings (w : Write) (d d' : Database) (ks : list Z) :
  safe_write w -> apply_write w d = Some (d', ks) -> ratings_kept d d'.
Proof.
  destruct w as [row | row | where_ values | where_ values]; simpl;
    intros Hsafe H.
  - inversion H; subst. unfold ratings_kept, ratings. simpl.
    rewrite map_app. eauto.
  - destruct (Review.check_grade_range row); inversion H; subst.
    now apply ratings_kept_products.
  - inversion H; subst. exists []. unfold ratings, update_where. simpl.
    rewrite app_nil_r, map_map. apply map_ext. intros p.
    destruct (where_ p); trivial. now destruct (Hsafe p) as [-> ->].
  - inversion H; subst. now apply ratings_kept_products.
Qed.

Lemma flush_ratings (ws : list Write) (d d' : Database) (ks : list Z) :
  Forall safe_write ws -> flush ws d = Some (d', ks) -> ratings_kept d d'.
Proof.
  intros Hsafe. revert d ks.
  induction Hsafe as [| w ws Hw Hws IH]; simpl; intros d ks H.
  - inversion H; subst. apply ratings_kept_refl.
  - destruct (apply_write w d) as [[d1 k1] |] eqn:E1; [| discriminate].
    destruct (flush ws d1) as [[d2 k2] |] eqn:E2; [| discriminate].
    inversion H; subst.
    eapply ratings_kept_trans; [eapply apply_write_ratings | eapply IH]; eauto.
Qed.

(** A call that does not assign [rating] keeps the ratings and leaves the
    open transaction without such a write. *)
Lemma exec_rating_free {X : Type} (o : Op X) (c : Conn) (r : Exc + X)
  (c' : Conn) :
  safe_op o -> Forall safe_write (txn c) -> exec o c = (r, c') ->
  Forall safe_write (txn c') /\ ratings_kept (store c) (store c').
Proof.
  intros Ho Hc He.
  assert (forall f : Database -> Exc + X,
            (forall c, perform o c = query f c) -> awaited o = true ->
            Forall safe_write (txn c') /\ ratings_kept (store c) (store c'))
    as Hquery.
  { intros f Hf Ha.
    destruct (exec_query o f Ha Hf c r c' He) as (Hs & Hr). split.
    - destruct r as [e | x]; [now rewrite Hr |].
      destruct Hr as (v & _ & _ & -> & _). exact Hc.
    - now apply ratings_kept_same. }
  destruct o; simpl in Ho;
    try (eapply Hquery; [intro; reflexivity | reflexivity]).
  - (* Execute_update_Product *)
    destruct (exec_awaited (Execute_update_Product where_ values) c eq_refl)
      as [(rest & _ & E) | E]; rewrite E in He; inversion He; subst; simpl;
      split; auto using ratings_kept_refl. apply Forall_app. auto.
  - (* Execute_update_Review *)
    destruct (exec_awaited (Execute_update_Review where_ values) c eq_refl)
      as [(rest & _ & E) | E]; rewrite E in He; inversion He; subst; simpl;
      split; auto using ratings_kept_refl. apply Forall_app.
    split; [assumption | repeat constructor].
  - (* Commit *)
    apply exec_Commit in He. destruct r as [e | keys].
    + destruct He as (-> & ->). split; [constructor | apply ratings_kept_refl].
    + destruct He as (Hfl & -> & _). split; [constructor |].
      eapply flush_ratings; eauto.
  - (* Add_Product *)
    unfold exec in He. simpl in He. inversion He; subst. simpl.
    split; [apply Forall_app; auto | apply ratings_kept_refl].
  - (* Add_Review *)
    unfold exec in He. simpl in He. inversion He; subst. simpl.
    split; [apply Forall_app; auto | apply ratings_kept_refl].
  - (* Setattr_rating *)
    contradiction.
Qed.

Lemma run_Call {A X : Type} (o : Op X) (k : X -> Prog A) (c : Conn) :
  run (Call o k) c =
  match exec o c with
  | (inl e, c') => (inl e, c')
  | (inr x, c') => run (k x) c'
  end.
Proof. reflexivity. Qed.

(** A program none of whose calls assigns [rating] keeps every rating. *)
Lemma run_rating_free {A : Type} (p : Prog A) :
  rating_free p ->
  forall c r c', Forall safe_write (txn c) -> run p c = (r, c') ->
    Forall safe_write (txn c') /\ ratings_kept (store c) (store c').
Proof.
  induction 1 as [a | e | X o k Ho Hk IH]; intros c r c' Hc Hrun.
  - rewrite run_Ret in Hrun. inversion Hrun; subst.
    split; [assumption | apply ratings_kept_refl].
  - rewrite run_Raise in Hrun. inversion Hrun; subst.
    split; [assumption | apply ratings_kept_refl].
  - rewrite run_Call in Hrun.
    destruct (exec o c) as [[e | x] c1] eqn:E;
      destruct (exec_rating_free o c _ c1 Ho Hc E) as (Hc1 & Hk1).
    + now inversion Hrun; subst.
    + destruct (IH x c1 r c' Hc1 Hrun) as (Hc' & Hk').
      split; [assumption | eapply ratings_kept_trans; eauto].
Qed.

Lemma rating_free_bind {A B : Type} (m : Prog A) (f : A -> Prog B) :
  rating_free m -> (forall a, rating_free (f a)) -> rating_free (bind m f).
Proof.
  intros Hm Hf. induction Hm as [a | e | X o k Ho Hk IH].
  - apply Hf.
  - constructor.
  - change (bind (Call o k) f) with (Call o (fun x => bind (k x) f)).
    constructor; assumption.
Qed.

Lemma rating_free_call {X : Type} (o : Op X) :
  safe_op o -> rating_free (call o).
Proof. intros Ho. constructor; [assumption | constructor]. Qed.

Ltac rating_free :=
  repeat first
    [ apply rating_free_Ret
    | apply rating_free_Raise
    | apply rating_free_call;
      first [ exact I | intros p; split; reflexivity ]
    | apply rating_free_bind; [| intros ?]
    | match goal with
      | |- rating_free (match ?x with _ => _ end) => destruct x
      end ].

(** The endpoints other than the two of the reviews router that write make
    no call that assigns [rating]. *)
Lemma handle_rating_free (is_active_default : bool) (rating_default : Q)
  (rq : Request) :
  triggers_recomputation rq = false ->
  rating_free (handle is_active_default rating_default rq).
Proof.
  destruct rq; simpl; intros H; try discriminate;
    unfold get_all_products, create_product, get_products_by_category,
      get_product, update_product, delete_product, get_all_reviews,
      get_review_by_product;
    rating_free.
Qed.

(** ** Two requests, call by call *)

Lemma bind_Ret {A B : Type} (a : A) (f : A -> Prog B) : bind (Ret a) f = f a.
Proof. reflexivity. Qed.

(** A call that returns, as a step of a request. *)
Lemma step_task_call {A X : Type} (t : Concurrent.Task A) (d : Database)
  (fl : list bool) (o : Op X) (k : X -> Prog A) (x : X) (c' : Conn) :
  Concurrent.code t = Call o k ->
  exec o (mkConn d (Concurrent.session t) fl) = (inr x, c') ->
  Concurrent.step_task t d fl
  = (Concurrent.mkTask (k x) (txn c') (negb (Concurrent.commits o)),
     store c', faults c').
Proof.
  intros Hc He. unfold Concurrent.step_task. now rewrite Hc, He.
Qed.

Lemma step_task_finished {A : Type} (t : Concurrent.Task A) (d : Database)
  (fl : list bool) :
  Concurrent.finished t = true -> Concurrent.step_task t d fl = (t, d, fl).
Proof.
  unfold Concurrent.finished, Concurrent.result, Concurrent.step_task.
  destruct (Concurrent.code t); trivial; discriminate.
Qed.

Lemma finished_result {A : Type} (t : Concurrent.Task A) :
  Concurrent.finished t = true -> exists r, Concurrent.result t = Some r.
Proof.
  unfold Concurrent.finished.
  destruct (Concurrent.result t) as [r |]; [eauto | discriminate].
Qed.

(** The result of the call a request makes when the storage answers. *)
Ltac performed tac :=
  rewrite exec_no_fault; cbn [perform Concurrent.session Creation.task
                                Creation.pending];
  unfold query, view, enqueue;
  cbn [flush apply_write txn store faults app];
  tac; reflexivity.

Ltac stage tac :=
  erewrite step_task_call; [| reflexivity | performed tac];
  cbn [store txn faults Concurrent.commits negb]; cbv beta;
  rewrite ?bind_Ret; cbv beta.

Section Stages.

Variable r : Creation.t.
Variable row : Review.t.
Variable result : option Q.
Variable d : Database.

Hypothesis grade_ok :
  grade_in_range (ReviewCreate.grade (Creation.review r)) = true.

Lemma stage_0 (p : Product.t) :
  hd_error (filter (active_product (Creation.product_id r)) (products d))
  = Some p ->
  Concurrent.step_task (Creation.task r 0 row result) d []
  = (Creation.task r 1 row result, d, []).
Proof.
  intros Hp. unfold Creation.product_id in Hp.
  unfold Creation.task.
  stage idtac.
  rewrite Hp.
  unfold grade_in_range in grade_ok. rewrite grade_ok. reflexivity.
Qed.

Lemma stage_1 :
  Concurrent.step_task (Creation.task r 1 row result) d []
  = (Creation.task r 2 row result, d, []).
Proof. unfold Creation.task. stage idtac. reflexivity. Qed.

Lemma stage_2 :
  let row' :=
    stored_review d (Creation.review r) (Creation.current_user r)
      (Creation.now r) in
  Concurrent.step_task (Creation.task r 2 row result) d []
  = (Creation.task r 3 row' result, with_review row' d, []).
Proof.
  intros row'. unfold Creation.task.
  assert (Review.check_grade_range (Creation.model r) = true) as Hck
      by exact grade_ok.
  stage ltac:(rewrite Hck). reflexivity.
Qed.

Lemma stage_3 :
  find_Review (Review.id row) d = Some row ->
  Concurrent.step_task (Creation.task r 3 row result) d []
  = (Creation.task r 4 row result, d, []).
Proof.
  intros Hf. unfold Creation.task. stage ltac:(rewrite Hf). reflexivity.
Qed.

Lemma stage_4 :
  Concurrent.step_task (Creation.task r 4 row result) d []
  = (Creation.task r 5 row
       (avg_grade
          (filter (active_reviews_of (Creation.product_id r)) (reviews d))),
     d, []).
Proof. unfold Creation.task. stage idtac. reflexivity. Qed.

Lemma stage_5 (p : Product.t) :
  find_Product (Creation.product_id r) d = Some p ->
  Concurrent.step_task (Creation.task r 5 row result) d []
  = (Creation.task r 6 row result, d, []).
Proof.
  intros Hp. unfold Creation.task.
  stage ltac:(rewrite Hp).
  rewrite (find_Product_id _ _ _ Hp). reflexivity.
Qed.

Lemma stage_6 :
  Concurrent.step_task (Creation.task r 6 row result) d []
  = (Creation.task r 7 row result, d, []).
Proof. unfold Creation.task. stage idtac. reflexivity. Qed.

Lemma stage_7 :
  Concurrent.step_task (Creation.task r 7 row result) d []
  = (Creation.task r 8 row result,
     mkDatabase
       (update_where (fun p => Product.id p =? Creation.product_id r)
          (Product.with_rating (or_zero result)) (products d))
       (categories d) (reviews d),
     []).
Proof. unfold Creation.task. stage idtac. reflexivity. Qed.

Lemma stage_8 :
  Concurrent.step_task (Creation.task r 8 row result) d []
  = (Creation.task r 9 row result, d, []).
Proof. unfold Creation.task. stage idtac. reflexivity. Qed.

End Stages.

(** ** Two review creations, transaction by transaction *)

Lemma in_transaction_task (r : Creation.t) (n : nat) (row : Review.t)
  (result : option Q) :
  Concurrent.in_transaction (Creation.task r n row result)
  = Creation.in_txn n.
Proof. do 9 (destruct n as [| n]; [reflexivity |]). reflexivity. Qed.

Lemma finished_task (r : Creation.t) (n : nat) (row : Review.t)
  (result : option Q) :
  Concurrent.finished (Creation.task r n row result) = (9 <=? n)%nat.
Proof. do 9 (destruct n as [| n]; [reflexivity |]). reflexivity. Qed.

Lemma result_task (r : Creation.t) (n : nat) (row : Review.t)
  (result : option Q) :
  (9 <= n)%nat ->
  Concurrent.result (Creation.task r n row result) = Some (inr row).
Proof.
  intros H. do 9 (destruct n as [| n]; [lia |]). reflexivity.
Qed.

Lemma in_txn_read (n : nat) :
  Creation.in_txn n = false -> ~ (5 <= n <= 7)%nat.
Proof.
  do 8 (destruct n as [| n]; [simpl; intros; try discriminate; lia |]).
  intros _. lia.
Qed.

Lemma find_keyed (pre post : list Review.t) (row : Review.t) :
  Review.id row = next_id (map Review.id pre) ->
  find (fun r => Review.id r =? Review.id row) (pre ++ row :: post)
  = Some row.
Proof.
  intros Hid.
  assert (forall r, In r pre -> Review.id r <> Review.id row) as Hne.
  { intros r Hr. rewrite Hid.
    assert (Review.id r < next_id (map Review.id pre))
      by (apply next_id_above, in_map, Hr).
    lia. }
  clear Hid. induction pre as [| r pre IH]; simpl.
  - now rewrite Z.eqb_refl.
  - destruct (Review.id r =? Review.id row) eqn:E.
    + apply Z.eqb_eq in E. exfalso. apply (Hne r); simpl; auto.
    + apply IH. intros r' Hr'. apply Hne. simpl. auto.
Qed.

Lemma find_keyed_In (inserted before : list Review.t) (row : Review.t) :
  Creation.keyed before inserted -> In row inserted ->
  find (fun r => Review.id r =? Review.id row) (before ++ inserted)
  = Some row.
Proof.
  revert before.
  induction inserted as [| r0 inserted IH]; intros before Hk Hin;
    [contradiction |].
  destruct Hk as [Hid Hk]. destruct Hin as [-> | Hin].
  - now apply find_keyed.
  - change (r0 :: inserted) with ([r0] ++ inserted). rewrite app_assoc.
    now apply IH.
Qed.

Lemma keyed_app (inserted before : list Review.t) (row : Review.t) :
  Creation.keyed before inserted ->
  Review.id row = next_id (map Review.id (before ++ inserted)) ->
  Creation.keyed before (inserted ++ [row]).
Proof.
  revert before.
  induction inserted as [| r0 inserted IH]; intros before Hk Hid; simpl.
  - rewrite app_nil_r in Hid. auto.
  - destruct Hk as [H0 Hk]. split; [exact H0 |].
    apply IH; [exact Hk |]. now rewrite <- app_assoc.
Qed.

Lemma inserts_sym (a b : bool) (rowA rowB : Review.t)
  (inserted : list Review.t) :
  Creation.inserts a b rowA rowB inserted ->
  Creation.inserts b a rowB rowA inserted.
Proof. destruct a, b; simpl; tauto. Qed.

Lemma inserts_In (b : bool) (rowA rowB : Review.t)
  (inserted : list Review.t) :
  Creation.inserts true b rowA rowB inserted -> In rowA inserted.
Proof.
  destruct b; simpl; [intros [-> | ->] | intros ->]; simpl; auto.
Qed.

Lemma inserts_first (b : bool) (rowA rowB row : Review.t)
  (inserted : list Review.t) :
  Creation.inserts false b rowA rowB inserted ->
  Creation.inserts true b row rowB (inserted ++ [row]).
Proof. destruct b; simpl; intros ->; simpl; auto. Qed.

Lemma filter_update_where {X : Type} (keep where_ : X -> bool)
  (values : X -> X) (rows : list X) :
  (forall x, keep (values x) = keep x) ->
  filter keep (update_where where_ values rows)
  = update_where where_ values (filter keep rows).
Proof.
  intros Hkeep. induction rows as [| x rows IH]; simpl; trivial.
  assert (keep (if where_ x then values x else x) = keep x) as ->
      by (destruct (where_ x); [apply Hkeep | reflexivity]).
  destruct (keep x); simpl; now rewrite IH.
Qed.

(** Writing a rating leaves an active product active. *)
Lemma active_product_with_rating (product_id k : Z) (q : Q)
  (rows : list Product.t) (p : Product.t) :
  hd_error (filter (active_product product_id) rows) = Some p ->
  exists p',
    hd_error
      (filter (active_product product_id)
         (update_where (fun x => Product.id x =? k) (Product.with_rating q)
            rows))
    = Some p'.
Proof.
  intros H. rewrite filter_update_where by reflexivity.
  destruct (filter (active_product product_id) rows) as [| x rows'];
    [discriminate |].
  simpl. eauto.
Qed.

(** Recomputing a rating leaves an active product active. *)
Lemma active_product_rated (product_id pid : Z) (d : Database)
  (p : Product.t) :
  hd_error (filter (active_product product_id) (products d)) = Some p ->
  exists p',
    hd_error (filter (active_product product_id) (products (rated d pid)))
    = Some p'.
Proof.
  intros H. unfold rated. cbn [products].
  rewrite filter_update_where by reflexivity.
  destruct (filter (active_product product_id) (products d)) as [| q rows];
    [discriminate |].
  simpl. eauto.
Qed.

Lemma active_grades_with_review (row : Review.t) (d : Database)
  (product_id : Z) :
  Review.product_id row = product_id -> Review.is_active row = true ->
  active_grades (with_review row d) product_id
  = active_grades d product_id ++ [Review.grade row].
Proof.
  intros Hp Ha. unfold active_grades, with_review. cbn [reviews].
  rewrite filter_app, map_app. simpl. now rewrite Hp, Z.eqb_refl, Ha.
Qed.

Lemma swap_swap {A : Type} (w : Concurrent.World A) :
  Creation.swap (Creation.swap w) = w.
Proof. now destruct w. Qed.

Lemma turn_Second_swap {A : Type} (isolated : bool)
  (w : Concurrent.World A) :
  Concurrent.turn isolated Concurrent.Second w
  = Creation.swap
      (Concurrent.turn isolated Concurrent.First (Creation.swap w)).
Proof.
  destruct w as [d fl t1 t2]. unfold Concurrent.turn, Creation.swap.
  cbn [Concurrent.first Concurrent.second Concurrent.db Concurrent.io].
  destruct (isolated && Concurrent.in_transaction t1); [reflexivity |].
  now destruct (Concurrent.step_task t2 d fl) as [[t d'] fl'].
Qed.

Section TwoCreations.

Variable d0 : Database.
Variables a b : Creation.t.

Hypothesis grade_a :
  grade_in_range (ReviewCreate.grade (Creation.review a)) = true.

Ltac kept :=
  repeat match goal with
  | |- _ /\ _ => split
  | |- exists _ : Product.t, hd_error _ = Some _ => eassumption
  end;
  try reflexivity; try assumption;
  try (unfold Creation.read, Creation.stored; intros; lia);
  try (intros _; assumption);
  try (intros _; reflexivity);
  try (let H := fresh in intros H; discriminate H);
  try match goal with
      | H : forall d', Creation.read _ _ _ d' |- Creation.read _ _ _ _ =>
          apply H
      | H : Creation.stored ?r _ ?row |- Creation.stored ?r _ ?row =>
          intros _; apply H; lia
      | H : Creation.read ?r _ ?res ?d |- Creation.read ?r _ ?res ?d =>
          intros _; apply H; lia
      | |- exists _ : Product.t, hd_error _ = Some _ => eexists; eassumption
      end.

Lemma turn_First_invariant (w : Concurrent.World Review.t) :
  Creation.invariant d0 a b w ->
  Creation.invariant d0 a b (Concurrent.turn true Concurrent.First w).
Proof.
  intros Hinv. pose proof Hinv as Hinv0.
  destruct Hinv
    as (nA & nB & rowA & rowB & resA & resB & inserted & Hio & H1 & H2
        & [p Hp] & RA & RB & SA & SB & Hx & Hrev & Hins & Hkey & Hset).
  destruct w as [d fl t1 t2].
  cbn [Concurrent.first Concurrent.second Concurrent.db Concurrent.io] in *.
  subst fl t1 t2. unfold Concurrent.turn.
  cbn [andb Concurrent.first Concurrent.second Concurrent.db Concurrent.io].
  rewrite in_transaction_task.
  destruct (Creation.in_txn nB) eqn:EB; [exact Hinv0 |]. clear Hinv0.
  pose proof (in_txn_read nB EB) as NB.
  assert (forall d', Creation.read b nB resB d') as RB'
      by (intros d' H; contradiction).
  destruct nA as [| [| [| [| [| [| [| [| [| nA]]]]]]]]].
  - rewrite (stage_0 a rowA resA d grade_a p Hp).
    exists 1%nat, nB, rowA, rowB, resA, resB, inserted. kept.
  - rewrite stage_1.
    exists 2%nat, nB, rowA, rowB, resA, resB, inserted. kept.
  - rewrite (stage_2 a rowA resA d grade_a). cbv zeta.
    set (row := stored_review d _ _ _).
    exists 3%nat, nB, row, rowB, resA, resB, (inserted ++ [row]).
    cbn [Concurrent.first Concurrent.second Concurrent.db Concurrent.io].
    kept.
    + cbn [reviews with_review]. now rewrite Hrev, app_assoc.
    + now apply inserts_first with rowA.
    + apply keyed_app; [exact Hkey |]. rewrite <- Hrev. reflexivity.
  - assert (find_Review (Review.id rowA) d = Some rowA) as Hf.
    { unfold find_Review. rewrite Hrev.
      apply find_keyed_In; [exact Hkey |]. now apply inserts_In in Hins. }
    rewrite (stage_3 a rowA resA d Hf).
    exists 4%nat, nB, rowA, rowB, resA, resB, inserted. kept.
  - rewrite stage_4.
    exists 5%nat, nB, rowA, rowB,
      (avg_grade (filter (active_reviews_of (Creation.product_id a))
                    (reviews d))), resB, inserted.
    kept.
  - destruct (active_product_found _ _ _ Hp) as (p0 & Hp0).
    rewrite (stage_5 a rowA resA d p0 Hp0).
    exists 6%nat, nB, rowA, rowB, resA, resB, inserted. kept.
  - rewrite stage_6.
    exists 7%nat, nB, rowA, rowB, resA, resB, inserted. kept.
  - rewrite stage_7.
    exists 8%nat, nB, rowA, rowB, resA, resB, inserted.
    cbn [Concurrent.first Concurrent.second Concurrent.db Concurrent.io].
    kept.
    + cbn [products]. now apply active_product_with_rating with p.
    + intros _ _. destruct (active_product_found _ _ _ Hp) as (p0 & Hp0).
      exists (Product.with_rating (or_zero resA) p0). split.
      * unfold find_Product. cbn [products].
        rewrite find_update_where by reflexivity.
        unfold find_Product in Hp0. now rewrite Hp0.
      * cbn [Product.rating Product.with_rating].
        unfold avg_rating. cbn [reviews]. now rewrite <- RA by lia.
  - rewrite stage_8.
    exists 9%nat, nB, rowA, rowB, resA, resB, inserted. kept.
    intros _ HB. apply Hset; [lia | exact HB].
  - rewrite step_task_finished by reflexivity.
    exists (9 + nA)%nat, nB, rowA, rowB, resA, resB, inserted. kept.
Qed.

End TwoCreations.

Lemma invariant_swap (d0 : Database) (a b : Creation.t)
  (w : Concurrent.World Review.t) :
  Creation.product_id b = Creation.product_id a ->
  Creation.invariant d0 a b w ->
  Creation.invariant d0 b a (Creation.swap w).
Proof.
  intros Hpid
    (nA & nB & rowA & rowB & resA & resB & inserted & Hio & H1 & H2
     & Hp & RA & RB & SA & SB & Hx & Hrev & Hins & Hkey & Hset).
  exists nB, nA, rowB, rowA, resB, resA, inserted.
  unfold Creation.swap.
  cbn [Concurrent.first Concurrent.second Concurrent.db Concurrent.io].
  rewrite Hpid.
  repeat split; try assumption.
  - intros HB. destruct (Creation.in_txn nA); [| reflexivity].
    rewrite Hx in HB by reflexivity. discriminate HB.
  - now apply inserts_sym.
  - intros HB HA. now apply Hset.
Qed.

Section Serialised.

Variable d0 : Database.
Variables a b : Creation.t.

Hypothesis same_product : Creation.product_id b = Creation.product_id a.
Hypothesis grade_a :
  grade_in_range (ReviewCreate.grade (Creation.review a)) = true.
Hypothesis grade_b :
  grade_in_range (ReviewCreate.grade (Creation.review b)) = true.

Lemma turn_invariant (s : Concurrent.Side)
  (w : Concurrent.World Review.t) :
  Creation.invariant d0 a b w ->
  Creation.invariant d0 a b (Concurrent.turn true s w).
Proof.
  intros Hinv. destruct s.
  - now apply turn_First_invariant.
  - rewrite turn_Second_swap.
    apply invariant_swap; [now symmetry |].
    apply turn_First_invariant; [exact grade_b |].
    now apply invariant_swap.
Qed.

Lemma steps_invariant (schedule : list Concurrent.Side)
  (w : Concurrent.World Review.t) :
  Creation.invariant d0 a b w ->
  Creation.invariant d0 a b (Concurrent.steps true schedule w).
Proof.
  revert w. induction schedule as [| s schedule IH]; intros w Hinv;
    [exact Hinv |].
  apply IH. now apply turn_invariant.
Qed.

Lemma spawn_invariant (p : Product.t) :
  hd_error (filter (active_product (Creation.product_id a)) (products d0))
  = Some p ->
  Creation.invariant d0 a b
    (Concurrent.spawn d0 [] (Creation.program a) (Creation.program b)).
Proof.
  intros Hp.
  exists 0%nat, 0%nat, (Creation.model a), (Creation.model b), None, None, [].
  unfold Concurrent.spawn.
  cbn [Concurrent.first Concurrent.second Concurrent.db Concurrent.io].
  repeat split; try reflexivity;
    try (unfold Creation.read, Creation.stored; intros; lia).
  - eauto.
  - now rewrite app_nil_r.
Qed.

End Serialised.

Lemma mean_ext (l1 l2 : list Z) :
  fold_right Z.add 0 l1 = fold_right Z.add 0 l2 ->
  List.length l1 = List.length l2 -> mean l1 = mean l2.
Proof.
  destruct l1 as [| a l1], l2 as [| b l2]; try discriminate; trivial.
  intros Hs Hl. unfold mean. now rewrite Hs, Hl.
Qed.

Lemma mean_last_two (l : list Z) (a b : Z) :
  mean (l ++ [b; a]) = mean (l ++ [a; b]).
Proof.
  apply mean_ext.
  - rewrite !fold_right_app. simpl.
    replace (b + (a + 0)) with (a + (b + 0)) by lia. reflexivity.
  - now rewrite !length_app.
Qed.

Lemma active_grades_inserted (d d0 : Database) (a b : Creation.t)
  (rowA rowB : Review.t) :
  reviews d = reviews d0 ++ [rowA; rowB] ->
  rowA = Review.with_id (Review.id rowA) (Creation.model a) ->
  rowB = Review.with_id (Review.id rowB) (Creation.model b) ->
  Creation.product_id b = Creation.product_id a ->
  active_grades d (Creation.product_id a)
  = active_grades d0 (Creation.product_id a)
    ++ [ReviewCreate.grade (Creation.review a);
        ReviewCreate.grade (Creation.review b)].
Proof.
  intros Hrev HA HB Hpid. unfold active_grades. rewrite Hrev.
  rewrite filter_app, map_app. f_equal. rewrite HA, HB.
  unfold Creation.product_id in *. cbn. rewrite Hpid, Z.eqb_refl.
  reflexivity.
Qed.

(** C5: two review creations for one active product, with grades from 1 to
    5 and the storage answering, scheduled in any way, call by call, with
    their transactions serialised by the database (a request waits while
    the other has a transaction open): once both have ended, both have
    returned their review, both grades are among the active grades of the
    product, and the rating committed is the mean of all of them, as a
    float. No update is lost, though each request commits its review
    before it recomputes: the recomputation that commits last reads after
    both reviews are stored. *)
Theorem isolated_review_creations_both_reflected
  (schedule : list Concurrent.Side) (d : Database) (p : Product.t)
  (review1 review2 : ReviewCreate.t) (user1 user2 : User.t) (now1 now2 : Z) :
  let product_id := ReviewCreate.product_id review1 in
  let grade1 := ReviewCreate.grade review1 in
  let grade2 := ReviewCreate.grade review2 in
  let w := Concurrent.steps true schedule
             (Concurrent.spawn d [] (create_review review1 user1 now1)
                (create_review review2 user2 now2)) in
  ReviewCreate.product_id review2 = product_id ->
  hd_error (filter (active_product product_id) (products d)) = Some p ->
  1 <= grade1 <= 5 -> 1 <= grade2 <= 5 ->
  Concurrent.finished (Concurrent.first w) = true ->
  Concurrent.finished (Concurrent.second w) = true ->
  exists row1 row2 p',
    Concurrent.result (Concurrent.first w) = Some (inr row1) /\
    Concurrent.result (Concurrent.second w) = Some (inr row2) /\
    (active_grades (Concurrent.db w) product_id
     = active_grades d product_id ++ [grade1; grade2]
     \/ active_grades (Concurrent.db w) product_id
        = active_grades d product_id ++ [grade2; grade1]) /\
    find_Product product_id (Concurrent.db w) = Some p' /\
    Product.rating p'
    = binary64 (mean (active_grades (Concurrent.db w) product_id)) /\
    Product.rating p'
    = binary64 (mean (active_grades d product_id ++ [grade1; grade2])) /\
    (Qabs (Product.rating p'
           - mean (active_grades d product_id ++ [grade1; grade2]))
     <= Qabs (mean (active_grades d product_id ++ [grade1; grade2]))
        * (1 # 2 ^ 53))%Q.
Proof.
  intros product_id grade1 grade2 w Hpid Hp Hg1 Hg2 Hf1 Hf2.
  set (a := Creation.mk review1 user1 now1).
  set (b := Creation.mk review2 user2 now2).
  assert (Creation.invariant d a b w) as Hinv.
  { apply steps_invariant;
      [exact Hpid | now apply grade_in_range_spec
      | now apply grade_in_range_spec |].
    now apply (spawn_invariant d a b p). }
  clearbody w.
  destruct Hinv
    as (nA & nB & rowA & rowB & resA & resB & inserted & _ & H1 & H2
        & _ & _ & _ & SA & SB & _ & Hrev & Hins & _ & Hset).
  rewrite H1, finished_task in Hf1. rewrite H2, finished_task in Hf2.
  apply Nat.leb_le in Hf1, Hf2.
  specialize (SA ltac:(lia)). specialize (SB ltac:(lia)).
  destruct (Hset ltac:(lia) ltac:(lia)) as (p' & Hp' & Hr).
  change (Creation.product_id a) with product_id in *.
  assert ((3 <=? nA)%nat = true) as EA by (apply Nat.leb_le; lia).
  assert ((3 <=? nB)%nat = true) as EB by (apply Nat.leb_le; lia).
  rewrite EA, EB in Hins. cbn [Creation.inserts] in Hins.
  assert (active_grades (Concurrent.db w) product_id
          = active_grades d product_id ++ [grade1; grade2]
          \/ active_grades (Concurrent.db w) product_id
             = active_grades d product_id ++ [grade2; grade1]) as Hgrades.
  { destruct Hins as [Hi | Hi]; rewrite Hi in Hrev.
    - left. now apply (active_grades_inserted _ d a b rowA rowB).
    - right.
      pose proof (active_grades_inserted _ d b a rowB rowA Hrev SB SA
                    (eq_sym Hpid)) as G.
      change (Creation.product_id b)
        with (ReviewCreate.product_id review2) in G.
      now rewrite Hpid in G. }
  assert (mean (active_grades (Concurrent.db w) product_id)
          = mean (active_grades d product_id ++ [grade1; grade2])) as Hmean
      by (destruct Hgrades as [-> | ->];
          [reflexivity | apply mean_last_two]).
  exists rowA, rowB, p'.
  split; [rewrite H1; now apply result_task |].
  split; [rewrite H2; now apply result_task |].
  split; [exact Hgrades |]. split; [exact Hp' |].
  rewrite Hr, avg_rating_mean, Hmean.
  split; [reflexivity |]. split; [reflexivity | apply binary64_close].
Qed.

Lemma isolated_review_creations_both_reflected_witness :
  let w := Concurrent.steps true Race.by_transactions Race.two_reviews in
  exists row1 row2 p',
    Concurrent.result (Concurrent.first w) = Some (inr row1) /\
    Concurrent.result (Concurrent.second w) = Some (inr row2) /\
    (active_grades (Concurrent.db w) 1
     = active_grades Example.shop 1 ++ [5; 2]
     \/ active_grades (Concurrent.db w) 1
        = active_grades Example.shop 1 ++ [2; 5]) /\
    find_Product 1 (Concurrent.db w) = Some p' /\
    Product.rating p' = binary64 (mean (active_grades (Concurrent.db w) 1)) /\
    Product.rating p'
    = binary64 (mean (active_grades Example.shop 1 ++ [5; 2])) /\
    (Qabs (Product.rating p'
           - mean (active_grades Example.shop 1 ++ [5; 2]%Z))
     <= Qabs (mean (active_grades Example.shop 1 ++ [5; 2]%Z))
        * (1 # 2 ^ 53))%Q.
Proof.
  apply (isolated_review_creations_both_reflected Race.by_transactions
           Example.shop Example.tea (Example.review 5) (Example.review 2)
           Example.buyer Example.buyer 100 101);
    [reflexivity | reflexivity | simpl; lia | simpl; lia
    | vm_compute; reflexivity | vm_compute; reflexivity].
Defined.

(** The transactions of the two requests do interleave under isolation:
    in [Race.by_transactions], once each request has stored its review and
    the second has begun to recompute, no rating is written yet, neither
    request has ended, and the first waits. *)
Lemma serialised_transactions_interleave :
  let w :=
    Concurrent.steps true
      (repeat Concurrent.First 3 ++ repeat Concurrent.Second 4)
      Race.two_reviews in
  active_grades (Concurrent.db w) 1 = [5; 2] /\
  ratings (Concurrent.db w) = ratings Example.shop /\
  Concurrent.finished (Concurrent.first w) = false /\
  Concurrent.in_transaction (Concurrent.first w) = false /\
  Concurrent.in_transaction (Concurrent.second w) = true /\
  Concurrent.turn true Concurrent.First w = w.
Proof. vm_compute. repeat split. Qed.

(** Without isolation the schedule of [Race.interleaved] loses an update:
    both requests return, both reviews are active, and the rating committed
    last is the one the first request computed before the second review
    was there. *)
Lemma lost_update_without_isolation :
  let w := Concurrent.steps false Race.interleaved Race.two_reviews in
  Concurrent.finished (Concurrent.first w) = true /\
  Concurrent.finished (Concurrent.second w) = true /\
  active_grades (Concurrent.db w) 1 = [5; 2] /\
  ratings (Concurrent.db w) = [(1, 5 # 1)] /\
  ~ (5 # 1 == mean (active_grades (Concurrent.db w) 1))%Q.
Proof.
  repeat split. intros H. vm_compute in H. discriminate H.
Qed.

(** * More of the two routers *)

(** ** Every call, one by one *)

(** What a call can do to the connection: nothing to the committed tables,
    with the open transaction kept, lost or one write longer; or, for
    [Commit], the open transaction applied. *)
Lemma exec_cases {X : Type} (o : Op X) (c : Conn) (r : Exc + X) (c' : Conn) :
  exec o c = (r, c') ->
  (store c' = store c /\
   (txn c' = txn c \/ txn c' = [] \/
    exists w, write_of o = Some w /\ txn c' = txn c ++ [w]))
  \/ (exists keys, flush (txn c) (store c) = Some (store c', keys) /\
                   txn c' = []).
Proof.
  intros He.
  assert (forall f : Database -> Exc + X,
            (forall c, perform o c = query f c) -> awaited o = true ->
            store c' = store c /\ (txn c' = txn c \/ txn c' = [])) as Hquery.
  { intros f Hf Ha.
    destruct (exec_query o f Ha Hf c r c' He) as (Hs & Hr).
    split; [exact Hs |]. destruct r as [e | x]; [now right |].
    destruct Hr as (v & _ & _ & -> & _). now left. }
  destruct o;
    try (left; destruct (Hquery _ (fun _ => eq_refl) eq_refl) as (Hs & Ht);
         split; [exact Hs | tauto]).
  - destruct (exec_awaited (Execute_update_Product where_ values) c eq_refl)
      as [(rest & _ & E) | E]; rewrite E in He; inversion He; subst; simpl;
      left; split; eauto.
  - destruct (exec_awaited (Execute_update_Review where_ values) c eq_refl)
      as [(rest & _ & E) | E]; rewrite E in He; inversion He; subst; simpl;
      left; split; eauto.
  - apply exec_Commit in He. destruct r as [e | keys].
    + left. tauto.
    + right. exists keys. tauto.
  - unfold exec in He. simpl in He. inversion He; subst; simpl.
    left; split; eauto.
  - unfold exec in He. simpl in He. inversion He; subst; simpl.
    left; split; eauto.
  - unfold exec in He. simpl in He. inversion He; subst; simpl.
    left; split; eauto.
Qed.

Section Preserved.

(** A relation between the tables before and after that the writes
    satisfying [ok] keep. *)
Variable R : Database -> Database -> Prop.
Variable ok : Write -> Prop.
Hypothesis R_refl : forall d, R d d.
Hypothesis R_trans : forall d1 d2 d3, R d1 d2 -> R d2 d3 -> R d1 d3.
Hypothesis apply_ok :
  forall w d d' ks, ok w -> apply_write w d = Some (d', ks) -> R d d'.

Lemma flush_preserved (ws : list Write) (d d' : Database) (ks : list Z) :
  Forall ok ws -> flush ws d = Some (d', ks) -> R d d'.
Proof.
  intros Hok. revert d ks.
  induction Hok as [| w ws Hw Hws IH]; simpl; intros d ks H.
  - inversion H; subst. apply R_refl.
  - destruct (apply_write w d) as [[d1 k1] |] eqn:E1; [| discriminate].
    destruct (flush ws d1) as [[d2 k2] |] eqn:E2; [| discriminate].
    inversion H; subst.
    apply R_trans with d1; [now apply apply_ok with w k1 | now apply IH with k2].
Qed.

Lemma exec_preserved {X : Type} (o : Op X) (c : Conn) (r : Exc + X)
  (c' : Conn) :
  (forall w, write_of o = Some w -> ok w) -> Forall ok (txn c) ->
  exec o c = (r, c') ->
  Forall ok (txn c') /\ R (store c) (store c').
Proof.
  intros Ho Hc He.
  destruct (exec_cases o c r c' He)
    as [(Hs & [Ht | [Ht | (w & Hw & Ht)]]) | (keys & Hfl & Ht)];
    rewrite Ht; try rewrite Hs; split; try apply R_refl; trivial.
  - apply Forall_app. split; [exact Hc |]. constructor; auto.
  - now apply flush_preserved with (txn c) keys.
Qed.

(** A program whose writes all satisfy [ok] keeps [R], whatever the
    storage does. *)
Lemma run_preserved {A : Type} (p : Prog A) :
  calls ok p ->
  forall c r c', Forall ok (txn c) -> run p c = (r, c') ->
    Forall ok (txn c') /\ R (store c) (store c').
Proof.
  induction 1 as [a | e | X o k Ho Hk IH]; intros c r c' Hc Hrun.
  - rewrite run_Ret in Hrun. inversion Hrun; subst. auto.
  - rewrite run_Raise in Hrun. inversion Hrun; subst. auto.
  - rewrite run_Call in Hrun.
    destruct (exec o c) as [[e | x] c1] eqn:E;
      destruct (exec_preserved o c _ c1 Ho Hc E) as (Hc1 & Hk1).
    + now inversion Hrun; subst.
    + destruct (IH x c1 r c' Hc1 Hrun) as (Hc' & Hk').
      split; [assumption | now apply R_trans with (store c1)].
Qed.

End Preserved.

Lemma calls_bind {A B : Type} (ok : Write -> Prop) (m : Prog A)
  (f : A -> Prog B) :
  calls ok m -> (forall a, calls ok (f a)) -> calls ok (bind m f).
Proof.
  intros Hm Hf. induction Hm as [a | e | X o k Ho Hk IH].
  - apply Hf.
  - constructor.
  - change (bind (Call o k) f) with (Call o (fun x => bind (k x) f)).
    constructor; assumption.
Qed.

Lemma calls_call {X : Type} (ok : Write -> Prop) (o : Op X) :
  (forall w, write_of o = Some w -> ok w) -> calls ok (call o).
Proof. intros Ho. constructor; [assumption | constructor]. Qed.

Lemma calls_update_product_rating (ok : Write -> Prop) (product_id : Z) :
  (forall pk value,
      ok (UpdateProducts (fun p => Product.id p =? pk)
            (Product.with_rating value))) ->
  calls ok (update_product_rating product_id).
Proof.
  intros Hok. unfold update_product_rating.
  apply calls_bind; [apply calls_call; discriminate | intros result].
  apply calls_bind; [apply calls_call; discriminate | intros [p |]].
  - apply calls_bind;
      [apply calls_call; intros w Hw; inversion Hw; apply Hok | intros _].
    apply calls_bind; [apply calls_call; discriminate | intros _].
    constructor.
  - constructor.
Qed.

(** ** What every endpoint keeps *)

Ltac tame_calls :=
  repeat first
    [ apply calls_Ret
    | apply calls_Raise
    | apply calls_update_product_rating; intros pk value p; split; reflexivity
    | apply calls_call; intros w Hw; inversion Hw; simpl;
      first [ exact I | intros p; split; reflexivity | reflexivity ]
    | apply calls_bind; [| intros ?]
    | match goal with
      | |- calls _ (match ?x with _ => _ end) => destruct x
      end ].

(** The writes of all ten endpoints are [tame]. *)
Lemma handle_tame (is_active_default : bool) (rating_default : Q)
  (rq : Request) :
  calls tame (handle is_active_default rating_default rq).
Proof.
  destruct rq; simpl;
    unfold get_all_products, create_product, get_products_by_category,
      get_product, update_product, delete_product, get_all_reviews,
      get_review_by_product, create_review, delete_review;
    tame_calls.
Qed.

Section ExtendsBy.

Context {A : Type} (rel : A -> A -> Prop).
Hypothesis rel_refl : forall x, rel x x.
Hypothesis rel_trans : forall x y z, rel x y -> rel y z -> rel x z.

Lemma Forall2_rel_refl (l : list A) : Forall2 rel l l.
Proof. induction l; constructor; auto. Qed.

Lemma Forall2_rel_trans (l1 l2 l3 : list A) :
  Forall2 rel l1 l2 -> Forall2 rel l2 l3 -> Forall2 rel l1 l3.
Proof.
  intros H12. revert l3. induction H12 as [| x y l1 l2 Hxy H12 IH];
    intros l3 H23; inversion H23; subst; constructor; eauto.
Qed.

Lemma extends_by_refl (l : list A) : extends_by rel l l.
Proof.
  exists l, []. split; [apply Forall2_rel_refl | now rewrite app_nil_r].
Qed.

Lemma extends_by_trans (l1 l2 l3 : list A) :
  extends_by rel l1 l2 -> extends_by rel l2 l3 -> extends_by rel l1 l3.
Proof.
  intros (k2 & n2 & H12 & ->) (k3 & n3 & H23 & ->).
  apply Forall2_app_inv_l in H23.
  destruct H23 as (a & b & Ha & Hb & ->).
  exists a, (b ++ n3). split; [| now rewrite app_assoc].
  now apply Forall2_rel_trans with k2.
Qed.

Lemma extends_by_update (where_ : A -> bool) (values : A -> A)
  (l : list A) :
  (forall x, rel x (values x)) ->
  extends_by rel l (update_where where_ values l).
Proof.
  intros Hv. exists (update_where where_ values l), [].
  split; [| now rewrite app_nil_r].
  induction l as [| x l IH]; simpl; constructor; trivial.
  destruct (where_ x); auto.
Qed.

Lemma extends_by_insert (l : list A) (x : A) : extends_by rel l (l ++ [x]).
Proof. exists l, [x]. split; [apply Forall2_rel_refl | reflexivity]. Qed.

End ExtendsBy.

Lemma same_owner_refl (p : Product.t) : same_owner p p.
Proof. now split. Qed.

Lemma same_owner_trans (p q r : Product.t) :
  same_owner p q -> same_owner q r -> same_owner p r.
Proof. unfold same_owner. intros [] []. split; congruence. Qed.

Lemma flag_only_refl (r : Review.t) : flag_only r r.
Proof. now left. Qed.

Lemma flag_only_trans (r1 r2 r3 : Review.t) :
  flag_only r1 r2 -> flag_only r2 r3 -> flag_only r1 r3.
Proof.
  unfold flag_only. intros [-> | ->] [-> | ->]; auto.
Qed.

Lemma history_refl (d : Database) : history d d.
Proof.
  repeat split.
  - apply extends_by_refl, same_owner_refl.
  - apply extends_by_refl, flag_only_refl.
Qed.

Lemma history_trans (d1 d2 d3 : Database) :
  history d1 d2 -> history d2 d3 -> history d1 d3.
Proof.
  intros (P12 & C12 & R12) (P23 & C23 & R23). repeat split.
  - eapply extends_by_trans; eauto using same_owner_trans.
  - congruence.
  - eapply extends_by_trans; eauto using flag_only_trans.
Qed.

Lemma apply_write_history (w : Write) (d d' : Database) (ks : list Z) :
  tame w -> apply_write w d = Some (d', ks) -> history d d'.
Proof.
  destruct w as [row | row | where_ values | where_ values]; simpl;
    intros Hw H.
  - inversion H; subst. repeat split; simpl.
    + apply extends_by_insert, same_owner_refl.
    + apply extends_by_refl, flag_only_refl.
  - destruct (Review.check_grade_range row); inversion H; subst.
    repeat split; simpl.
    + apply extends_by_refl, same_owner_refl.
    + apply extends_by_insert, flag_only_refl.
  - inversion H; subst. repeat split; simpl.
    + apply extends_by_update; [exact same_owner_refl | exact Hw].
    + apply extends_by_refl, flag_only_refl.
  - inversion H; subst. repeat split; simpl.
    + apply extends_by_refl, same_owner_refl.
    + apply extends_by_update; [exact flag_only_refl |].
      intros r. right. apply Hw.
Qed.

(** Every request keeps the [history] of the tables. *)
Lemma handle_history (is_active_default : bool) (rating_default : Q)
  (rq : Request) (d : Database) (fl : list bool) :
  history d
    (store (snd (run (handle is_active_default rating_default rq)
                   (connect d fl)))).
Proof.
  destruct (run (handle is_active_default rating_default rq) (connect d fl))
    as [r c'] eqn:E.
  apply (run_preserved history tame history_refl history_trans
           apply_write_history _ (handle_tame _ _ rq)) in E;
    [apply E | constructor].
Qed.

(** X1: whatever the request and whatever the storage does, no review is
    removed or edited: every review that was stored is still there, in its
    place, the same or with [is_active] cleared, and new ones come after. *)
Theorem reviews_append_or_flag_only (is_active_default : bool)
  (rating_default : Q) (rq : Request) (d : Database) (fl : list bool) :
  extends_by flag_only (reviews d)
    (reviews (store (snd (run (handle is_active_default rating_default rq)
                            (connect d fl))))).
Proof. apply handle_history. Qed.

(** X2: whatever the request and whatever the storage does, no product is
    removed, every product keeps its key and its seller, and the categories
    are left as they were. *)
Theorem products_kept_with_key_and_seller (is_active_default : bool)
  (rating_default : Q) (rq : Request) (d : Database) (fl : list bool) :
  let d' := store (snd (run (handle is_active_default rating_default rq)
                          (connect d fl))) in
  extends_by same_owner (products d) (products d') /\
  categories d' = categories d.
Proof.
  intros d'. destruct (handle_history is_active_default rating_default rq d fl)
    as (Hp & Hc & _).
  now split.
Qed.

(** ** Keys and grades *)

Lemma distinct_insert (keys : list Z) (k : Z) :
  distinct keys = true -> (forall k', In k' keys -> k' <> k) ->
  distinct (keys ++ [k]) = true.
Proof.
  induction keys as [| k0 keys IH]; simpl; intros Hd Hne; trivial.
  apply andb_prop in Hd. destruct Hd as [H0 Hd].
  rewrite IH by auto. rewrite existsb_app. simpl.
  apply negb_true_iff in H0. rewrite H0. simpl.
  assert ((k0 =? k) = false) as -> by (apply Z.eqb_neq, Hne; auto).
  reflexivity.
Qed.

Lemma distinct_next_id (keys : list Z) :
  distinct keys = true -> distinct (keys ++ [next_id keys]) = true.
Proof.
  intros Hd. apply distinct_insert; trivial.
  intros k Hk. apply next_id_above in Hk. lia.
Qed.

Lemma map_update_where {A B : Type} (key : A -> B) (where_ : A -> bool)
  (values : A -> A) (rows : list A) :
  (forall x, key (values x) = key x) ->
  map key (update_where where_ values rows) = map key rows.
Proof.
  intros Hk. unfold update_where. rewrite map_map. apply map_ext.
  intros x. now destruct (where_ x).
Qed.

Lemma apply_write_unique_keys (w : Write) (d d' : Database) (ks : list Z) :
  tame w -> apply_write w d = Some (d', ks) ->
  unique_keys d = true -> unique_keys d' = true.
Proof.
  unfold unique_keys.
  destruct w as [row | row | where_ values | where_ values]; simpl;
    intros Hw H Hu; apply andb_prop in Hu; destruct Hu as [Hp Hr].
  - inversion H; subst; simpl. rewrite map_app. simpl.
    now rewrite distinct_next_id, Hr.
  - destruct (Review.check_grade_range row); inversion H; subst; simpl.
    rewrite map_app. simpl. now rewrite distinct_next_id, Hp.
  - inversion H; subst; simpl.
    rewrite map_update_where by (intros p; apply Hw). now rewrite Hp, Hr.
  - inversion H; subst; simpl.
    rewrite map_update_where by (intros r; now rewrite Hw).
    now rewrite Hp, Hr.
Qed.

Lemma apply_write_grades_in_range (w : Write) (d d' : Database)
  (ks : list Z) :
  tame w -> apply_write w d = Some (d', ks) ->
  grades_in_range d = true -> grades_in_range d' = true.
Proof.
  unfold grades_in_range.
  destruct w as [row | row | where_ values | where_ values]; simpl;
    intros Hw H Hg.
  - now inversion H; subst.
  - destruct (Review.check_grade_range row) eqn:E; inversion H; subst; simpl.
    rewrite forallb_app, Hg. simpl. unfold Review.check_grade_range in *.
    simpl. now rewrite E.
  - now inversion H; subst.
  - inversion H; subst; simpl. unfold update_where.
    rewrite forallb_forall in *. intros r' Hin. apply in_map_iff in Hin.
    destruct Hin as (r & <- & Hin). specialize (Hg r Hin).
    destruct (where_ r); trivial. now rewrite Hw.
Qed.

(** X3: primary keys stay unique: when no two products and no two reviews
    share an [id], the same holds after any request, whatever the storage
    does. *)
Theorem unique_keys_kept (is_active_default : bool) (rating_default : Q)
  (rq : Request) (d : Database) (fl : list bool) :
  unique_keys d = true ->
  unique_keys
    (store (snd (run (handle is_active_default rating_default rq)
                   (connect d fl)))) = true.
Proof.
  destruct (run (handle is_active_default rating_default rq) (connect d fl))
    as [r c'] eqn:E.
  apply (run_preserved
           (fun d d' => unique_keys d = true -> unique_keys d' = true) tame)
    in E; [apply E | auto | auto | | apply handle_tame | constructor].
  intros w d1 d2 ks. apply apply_write_unique_keys.
Qed.

Lemma unique_keys_kept_witness :
  unique_keys
    (store (snd (run (handle true 0
                        (POST_reviews (Example.review 3) Example.buyer 103))
                   (connect Example.shop_55x [])))) = true.
Proof.
  exact (unique_keys_kept true 0
           (POST_reviews (Example.review 3) Example.buyer 103)
           Example.shop_55x [] eq_refl).
Defined.

(** X4: stored grades stay from 1 to 5: when every review in the tables has
    such a grade, so it is after any request, whatever the storage does
    (the grade test of [create_review], the CHECK constraint, and no
    endpoint that edits a grade). *)
Theorem grades_in_range_kept (is_active_default : bool) (rating_default : Q)
  (rq : Request) (d : Database) (fl : list bool) :
  grades_in_range d = true ->
  grades_in_range
    (store (snd (run (handle is_active_default rating_default rq)
                   (connect d fl)))) = true.
Proof.
  destruct (run (handle is_active_default rating_default rq) (connect d fl))
    as [r c'] eqn:E.
  apply (run_preserved
           (fun d d' => grades_in_range d = true -> grades_in_range d' = true)
           tame)
    in E; [apply E | auto | auto | | apply handle_tame | constructor].
  intros w d1 d2 ks. apply apply_write_grades_in_range.
Qed.

Lemma grades_in_range_kept_witness :
  grades_in_range
    (store (snd (run (handle true 0
                        (POST_reviews (Example.review 3) Example.buyer 103))
                   (connect Example.shop_55x [])))) = true.
Proof.
  exact (grades_in_range_kept true 0
           (POST_reviews (Example.review 3) Example.buyer 103)
           Example.shop_55x [] eq_refl).
Defined.

(** ** Reads, and checks before writes *)

Lemma exec_reads {X : Type} (o : Op X) (c : Conn) (r : Exc + X) (c' : Conn) :
  reads o = true -> exec o c = (r, c') -> store c' = store c.
Proof.
  intros Hr He. destruct o; try discriminate; invert_query He; apply He.
Qed.

Lemma handle_get_calls (is_active_default : bool) (rating_default : Q)
  (rq : Request) :
  is_get rq = true ->
  calls (fun _ => False) (handle is_active_default rating_default rq).
Proof.
  destruct rq; simpl; intros H; try discriminate;
    unfold get_all_products, get_products_by_category, get_product,
      get_all_reviews, get_review_by_product;
    repeat first
      [ apply calls_Ret
      | apply calls_Raise
      | apply calls_call; discriminate
      | apply calls_bind; [| intros ?]
      | match goal with
        | |- calls _ (match ?x with _ => _ end) => destruct x
        end ].
Qed.

(** X5: the five GET endpoints leave the committed tables as they were,
    whether they answer, raise their 404 or the storage fails. *)
Theorem get_endpoints_write_nothing (is_active_default : bool)
  (rating_default : Q) (rq : Request) (d : Database) (fl : list bool) :
  is_get rq = true ->
  store (snd (run (handle is_active_default rating_default rq)
                (connect d fl))) = d.
Proof.
  intros Hget.
  destruct (run (handle is_active_default rating_default rq) (connect d fl))
    as [r c'] eqn:E.
  apply (run_preserved (fun d d' => d' = d) (fun _ => False)) in E;
    [apply E | auto | congruence | tauto | now apply handle_get_calls
    | constructor].
Qed.

Lemma get_endpoints_write_nothing_witness :
  store (snd (run (handle true 0 (GET_reviews_of_product 1))
                (connect Example.shop_551 [false; true]))) = Example.shop_551.
Proof.
  exact (get_endpoints_write_nothing true 0 (GET_reviews_of_product 1)
           Example.shop_551 [false; true] eq_refl).
Defined.

Lemma raises_no_http_free {A : Type} (p : Prog A) :
  raises_no_http p -> http_free p.
Proof.
  induction 1 as [a | e He | X o k Hk IH]; intros c e' c'.
  - rewrite run_Ret. discriminate.
  - rewrite run_Raise. congruence.
  - rewrite run_Call. destruct (exec o c) as [[e1 | x] c1] eqn:E.
    + intros H; inversion H; subst. eapply exec_not_http, E.
    + apply IH.
Qed.

Lemma raises_no_http_bind {A B : Type} (m : Prog A) (f : A -> Prog B) :
  raises_no_http m -> (forall a, raises_no_http (f a)) ->
  raises_no_http (bind m f).
Proof.
  intros Hm Hf. induction Hm as [a | e He | X o k Hk IH].
  - apply Hf.
  - now constructor.
  - change (bind (Call o k) f) with (Call o (fun x => bind (k x) f)).
    constructor. assumption.
Qed.

Lemma raises_no_http_call {X : Type} (o : Op X) : raises_no_http (call o).
Proof. constructor. constructor. Qed.

Lemma raises_no_http_update_product_rating (product_id : Z) :
  raises_no_http (update_product_rating product_id).
Proof.
  unfold update_product_rating.
  apply raises_no_http_bind; [apply raises_no_http_call | intros result].
  apply raises_no_http_bind; [apply raises_no_http_call | intros [p |]].
  - repeat (apply raises_no_http_bind; [apply raises_no_http_call | intros ?]).
    constructor.
  - now constructor.
Qed.

Lemma validates_first_read {A X : Type} (o : Op X) (f : X -> Prog A) :
  reads o = true -> (forall x, validates_first (f x)) ->
  validates_first (bind (call o) f).
Proof.
  intros Hr Hf.
  change (bind (call o) f) with (Call o (fun x => bind (Ret x) f)).
  apply validates_first_Call; [exact Hr | exact Hf].
Qed.

Lemma validates_first_bind {A B : Type} (m : Prog A) (f : A -> Prog B) :
  validates_first m -> (forall a, raises_no_http (f a)) ->
  validates_first (bind m f).
Proof.
  intros Hm Hf. induction Hm as [p Hp | e | X o k Ho Hk IH].
  - apply validates_first_rest. now apply raises_no_http_bind.
  - apply validates_first_Raise.
  - change (bind (Call o k) f) with (Call o (fun x => bind (k x) f)).
    apply validates_first_Call; assumption.
Qed.

(** A program that validates first and ends in an [HTTPException] has
    committed nothing. *)
Lemma run_validates_first {A : Type} (p : Prog A) :
  validates_first p ->
  forall c e c', run p c = (inl e, c') -> is_http e = true ->
    store c' = store c.
Proof.
  induction 1 as [p Hp | e0 | X o k Ho Hk IH]; intros c e c' Hrun He.
  - apply raises_no_http_free in Hp. apply Hp in Hrun. congruence.
  - rewrite run_Raise in Hrun. now inversion Hrun.
  - rewrite run_Call in Hrun.
    destruct (exec o c) as [[e1 | x] c1] eqn:E.
    + inversion Hrun; subst. apply exec_not_http in E. congruence.
    + apply (exec_reads o c _ c1 Ho) in E. rewrite <- E.
      exact (IH x c1 e c' Hrun He).
Qed.

Ltac no_http :=
  repeat first
    [ apply raises_no_http_Ret
    | apply raises_no_http_call
    | apply raises_no_http_update_product_rating
    | apply raises_no_http_bind; [| intros ?] ].

Ltac validates :=
  repeat first
    [ apply validates_first_Raise
    | match goal with
      | |- validates_first (match ?x with _ => _ end) => destruct x
      end
    | apply validates_first_read; [reflexivity | intros ?]
    | apply validates_first_rest; solve [no_http] ].

Lemma handle_validates_first (is_active_default : bool) (rating_default : Q)
  (rq : Request) :
  validates_first (handle is_active_default rating_default rq).
Proof.
  destruct rq; simpl;
    (apply validates_first_bind; [| intros ?; apply raises_no_http_Ret]);
    unfold get_all_products, create_product, get_products_by_category,
      get_product, update_product, delete_product, get_all_reviews,
      get_review_by_product, create_review, delete_review;
    validates.
Qed.

(** X6: every endpoint raises its [HTTPException]s (the 400, 403 and 404 of
    the two routers) before it writes: a request that ends in one has left
    the committed tables as they were. *)
Theorem http_exception_commits_nothing (is_active_default : bool)
  (rating_default : Q) (rq : Request) (d : Database) (fl : list bool)
  (e : Exc) (c' : Conn) :
  run (handle is_active_default rating_default rq) (connect d fl)
  = (inl e, c') ->
  is_http e = true ->
  store c' = d.
Proof.
  intros Hrun He.
  exact (run_validates_first _ (handle_validates_first _ _ rq) _ _ _ Hrun He).
Qed.

Lemma http_exception_commits_nothing_witness :
  store (snd (run (handle true 0
                     (PUT_product 1 Example.green_tea Example.buyer))
                (connect Example.shop_551 []))) = Example.shop_551.
Proof.
  exact (http_exception_commits_nothing true 0
           (PUT_product 1 Example.green_tea Example.buyer)
           Example.shop_551 []
           (HTTPException 403 "You can only update your own products")
           (snd (run (handle true 0
                        (PUT_product 1 Example.green_tea Example.buyer))
                   (connect Example.shop_551 [])))
           eq_refl eq_refl).
Defined.

(** ** [create_review] and [delete_review], whatever the storage does *)

Lemma view_connect (d : Database) (fl : list bool) :
  view (connect d fl) = Some d.
Proof. reflexivity. Qed.

Lemma view_committed (c : Conn) : txn c = [] -> view c = Some (store c).
Proof. intros H. unfold view. now rewrite H. Qed.

(** Every run of [create_review] on a fresh session. When it returns, the
    review is stored and the rating recomputed. When it raises, either
    nothing is committed, or the review is and the rating is not yet, or
    both are. *)
Lemma create_review_run (review : ReviewCreate.t) (current_user : User.t)
  (now : Z) (d : Database) (fl : list bool) (r : Exc + Review.t)
  (c' : Conn) :
  let product_id := ReviewCreate.product_id review in
  let row := stored_review d review current_user now in
  let accepted :=
    (exists p,
        hd_error (filter (active_product product_id) (products d)) = Some p)
    /\ grade_in_range (ReviewCreate.grade review) = true in
  run (create_review review current_user now) (connect d fl) = (r, c') ->
  match r with
  | inr x =>
      accepted /\ x = row /\
      store c' = rated (with_review row d) product_id
  | inl e =>
      store c' = d \/
      (accepted /\ is_http e = false /\
       (store c' = with_review row d \/
        store c' = rated (with_review row d) product_id))
  end.
Proof.
  intros product_id row accepted. unfold create_review.
  rewrite run_bind, run_call.
  destruct (exec (Scalars_Product
                    (active_product (ReviewCreate.product_id review)))
              (connect d fl)) as [[e1 | rows] c1] eqn:E1; invert_query E1;
    [intros H; inversion H; subst; left; apply E1 |].
  destruct E1 as (S1 & v & Hv & Hrows & T1 & _).
  cbn [connect store txn] in S1, T1.
  rewrite view_connect in Hv. inversion Hv; subst v.
  inversion Hrows; subst rows. clear Hv Hrows.
  destruct (hd_error _) as [p |] eqn:Hhd;
    [| rewrite run_Raise; intros H; inversion H; subst; now left].
  fold (grade_in_range (ReviewCreate.grade review)).
  destruct (grade_in_range (ReviewCreate.grade review)) eqn:Eg; cbn [negb];
    [| rewrite run_Raise; intros H; inversion H; subst; now left].
  assert accepted as Hacc by (split; [now exists p | reflexivity]).
  rewrite run_bind, run_call. unfold exec at 1. cbn [awaited perform].
  rewrite run_bind, run_call.
  match goal with |- context [exec Commit ?cc] =>
    destruct (exec Commit cc) as [[e3 | keys] c3] eqn:E3 end;
    apply exec_Commit in E3; cbn [enqueue store txn] in E3;
    rewrite ?S1, ?T1 in E3;
    [intros H; inversion H; subst; left; apply E3 |].
  destruct E3 as (Hfl & T3 & _). cbn [app flush apply_write] in Hfl.
  assert (Review.check_grade_range
            (ReviewModel review (User.id current_user) now) = true) as Hck
      by exact Eg.
  rewrite Hck in Hfl. inversion Hfl as [[Hs3 Hkeys]]. clear Hfl.
  fold (stored_review d review current_user now) in Hs3. fold row in Hs3.
  fold (with_review row d) in Hs3. cbn [app last].
  rewrite run_bind, run_call.
  match goal with |- context [exec ?o c3] =>
    destruct (exec o c3) as [[e4 | x] c4] eqn:E4 end.
  { pose proof (exec_not_http _ _ _ _ E4) as Hne. invert_query E4.
    intros H; inversion H; subst. right. split; [exact Hacc |].
    split; [exact Hne |]. left. destruct E4 as (-> & _). now symmetry. }
  invert_query E4. destruct E4 as (S4 & v4 & Hv4 & Hx & T4 & _).
  rewrite (view_committed c3 T3), <- Hs3 in Hv4. inversion Hv4; subst v4.
  change (next_id (map Review.id (reviews d))) with (Review.id row) in Hx.
  rewrite find_Review_stored in Hx by reflexivity. inversion Hx; subst x.
  rewrite run_bind.
  destruct (run (update_product_rating (ReviewCreate.product_id review)) c4)
    as [[e5 | []] c5] eqn:E5.
  { pose proof (http_free_update_product_rating _ _ _ _ E5) as Hne.
    apply update_product_rating_run in E5.
    intros H; inversion H; subst. right. split; [exact Hacc |].
    split; [exact Hne |]. left. now rewrite E5, S4. }
  apply update_product_rating_run in E5.
  destruct E5 as (v5 & p5 & Hv5 & _ & S5 & T5 & _).
  rewrite (view_committed c4) in Hv5 by congruence.
  inversion Hv5; subst v5. rewrite S4, <- Hs3 in S5.
  rewrite run_bind, run_call.
  destruct (exec Commit c5) as [[e6 | keys6] c6] eqn:E6.
  { pose proof (exec_not_http _ _ _ _ E6) as Hne. apply exec_Commit in E6.
    intros H; inversion H; subst. right. split; [exact Hacc |].
    split; [exact Hne |]. right. destruct E6 as (-> & _). exact S5. }
  apply exec_Commit in E6. destruct E6 as (Hfl6 & _).
  rewrite T5 in Hfl6. cbn [flush] in Hfl6. inversion Hfl6 as [[Hs6 Hk6]].
  rewrite run_Ret. intros H; inversion H; subst.
  split; [exact Hacc |]. split; [reflexivity | now rewrite <- Hs6].
Qed.

Lemma selected_review_found (review_id : Z) (d : Database)
  (review : Review.t) :
  hd_error (filter (fun r => (Review.id r =? review_id)
                             && Bool.eqb (Review.is_active r) true)
              (reviews d)) = Some review ->
  Review.id review = review_id /\ Review.is_active review = true /\
  exists r0, find_Review review_id d = Some r0.
Proof.
  intros H.
  assert (In review
            (filter (fun r => (Review.id r =? review_id)
                              && Bool.eqb (Review.is_active r) true)
               (reviews d))) as Hin.
  { destruct (filter _ (reviews d)); inversion H; subst; simpl; auto. }
  apply filter_In in Hin. destruct Hin as (Hin & Hsel).
  apply andb_prop in Hsel. destruct Hsel as (Hid & Hact).
  split; [lia |]. split; [now destruct (Review.is_active review) |].
  unfold find_Review.
  destruct (find (fun r => Review.id r =? review_id) (reviews d)) as [r0 |]
    eqn:E; [eauto |].
  apply (find_none _ _ E) in Hin. simpl in Hin. congruence.
Qed.

(** Every run of [delete_review] on a fresh session. When it returns, the
    review is flagged and the rating of its product recomputed. When it
    raises, either nothing is committed, or the flag is and the rating is
    not. *)
Lemma delete_review_run (review_id : Z) (current_user : User.t)
  (d : Database) (fl : list bool) (r : Exc + string) (c' : Conn) :
  let selected :=
    exists review,
      hd_error (filter (fun r => (Review.id r =? review_id)
                                 && Bool.eqb (Review.is_active r) true)
                  (reviews d)) = Some review in
  run (delete_review review_id current_user) (connect d fl) = (r, c') ->
  match r with
  | inr message =>
      selected /\ message = "Review deleted"%string /\
      exists r0, find_Review review_id d = Some r0 /\
        store c'
        = rated (deactivated review_id d) (Review.product_id r0)
  | inl e =>
      store c' = d \/
      (selected /\ is_http e = false /\ store c' = deactivated review_id d)
  end.
Proof.
  intros selected. unfold delete_review. rewrite run_bind, run_call.
  match goal with |- context [exec ?o (connect d fl)] =>
    destruct (exec o (connect d fl)) as [[e1 | rows] c1] eqn:E1 end;
    invert_query E1;
    [intros H; inversion H; subst; left; apply E1 |].
  destruct E1 as (S1 & v & Hv & Hrows & T1 & _).
  cbn [connect store txn] in S1, T1.
  rewrite view_connect in Hv. inversion Hv; subst v.
  inversion Hrows; subst rows. clear Hv Hrows.
  destruct (hd_error _) as [review |] eqn:Hhd;
    [| rewrite run_Raise; intros H; inversion H; subst; now left].
  assert selected as Hsel by now exists review.
  destruct (selected_review_found _ _ _ Hhd) as (Hid & _ & r0 & Hr0).
  rewrite run_bind, run_call.
  match goal with |- context [exec ?o c1] =>
    destruct (exec_awaited o c1 eq_refl) as [(rest & _ & E2) | E2] end;
    rewrite E2;
    [intros H; inversion H; subst; now left |].
  cbn [perform]. rewrite run_bind, run_call.
  match goal with |- context [exec Commit ?cc] =>
    destruct (exec Commit cc) as [[e3 | keys] c3] eqn:E3 end;
    apply exec_Commit in E3; cbn [enqueue store txn] in E3;
    rewrite ?S1, ?T1 in E3;
    [intros H; inversion H; subst; left; apply E3 |].
  destruct E3 as (Hfl & T3 & _). cbn [app flush apply_write] in Hfl.
  inversion Hfl as [[Hs3 Hkeys]]. clear Hfl.
  fold (deactivated review_id d) in Hs3.
  rewrite run_bind, run_call.
  match goal with |- context [exec ?o c3] =>
    destruct (exec o c3) as [[e4 | x] c4] eqn:E4 end.
  { pose proof (exec_not_http _ _ _ _ E4) as Hne. invert_query E4.
    intros H; inversion H; subst. right. split; [exact Hsel |].
    split; [exact Hne |]. destruct E4 as (-> & _). now symmetry. }
  invert_query E4. destruct E4 as (S4 & v4 & Hv4 & Hx & T4 & _).
  rewrite (view_committed c3 T3), <- Hs3 in Hv4. inversion Hv4; subst v4.
  rewrite Hid, (find_Review_deactivated _ _ _ Hr0) in Hx.
  inversion Hx; subst x. cbn [Review.product_id Review.with_is_active].
  rewrite run_bind.
  destruct (run (update_product_rating (Review.product_id r0)) c4)
    as [[e5 | []] c5] eqn:E5.
  { pose proof (http_free_update_product_rating _ _ _ _ E5) as Hne.
    apply update_product_rating_run in E5.
    intros H; inversion H; subst. right. split; [exact Hsel |].
    split; [exact Hne |]. now rewrite E5, S4. }
  apply update_product_rating_run in E5.
  destruct E5 as (v5 & p5 & Hv5 & _ & S5 & _).
  rewrite (view_committed c4) in Hv5 by congruence.
  inversion Hv5; subst v5. rewrite S4, <- Hs3 in S5.
  rewrite run_Ret. intros H; inversion H; subst.
  split; [exact Hsel |]. split; [reflexivity |]. now exists r0.
Qed.

(** ** Who writes [rating] in the two routers *)

Lemma rating_free_by_recomputation {A : Type} (p : Prog A) :
  rating_free p -> rating_by_recomputation p.
Proof.
  induction 1 as [a | e | X o k Ho Hk IH].
  - constructor.
  - constructor.
  - change (Call o k) with (bind (call o) k).
    apply by_bind; [now apply by_call | exact IH].
Qed.

(** A program that assigns [rating] only in the recomputation does not
    begin by assigning it. *)
Lemma rating_by_recomputation_first {A : Type} (p : Prog A) :
  rating_by_recomputation p -> assigns_rating_first p = false.
Proof.
  induction 1 as [A a | A e | X o Ho | product_id | A B m f Hm IHm Hf IHf];
    try reflexivity.
  - destruct o; try reflexivity. contradiction.
  - destruct m as [a | e | X o k]; [apply IHf | reflexivity | exact IHm].
Qed.

Ltac by_recomputation :=
  repeat first
    [ apply by_Ret
    | apply by_Raise
    | apply by_update_product_rating
    | apply by_call; exact I
    | apply by_bind; [| intros ?]
    | match goal with
      | |- rating_by_recomputation (match ?x with _ => _ end) => destruct x
      | |- rating_by_recomputation (if ?x then _ else _) => destruct x
      end ].

Lemma handle_by_recomputation (is_active_default : bool) (rating_default : Q)
  (rq : Request) :
  rating_by_recomputation (handle is_active_default rating_default rq).
Proof.
  destruct (triggers_recomputation rq) eqn:E.
  - destruct rq; try discriminate; cbn [handle];
      unfold create_review, delete_review; by_recomputation.
  - now apply rating_free_by_recomputation, handle_rating_free.
Qed.

(** C7: every endpoint assigns [rating] nowhere but in a call of
    [update_product_rating]. An endpoint other than review creation and
    review soft-deletion makes no call that assigns it, and every product
    has the rating it had once the request is over, whatever the storage
    does. After one of those two, either every product has the rating it
    had, or the tables are those the recomputation leaves for the product
    of the review: the tables the request began on with the review stored
    or flagged, and the rating of that product set to the value computed
    from them. *)
Theorem rating_written_only_by_recomputation (is_active_default : bool)
  (rating_default : Q) (rq : Request) (d : Database) (fl : list bool) :
  let program := handle is_active_default rating_default rq in
  let c' := snd (run program (connect d fl)) in
  rating_by_recomputation program
  /\
  (triggers_recomputation rq = false ->
   rating_free program /\ ratings_kept d (store c'))
  /\
  (triggers_recomputation rq = true ->
   ratings_kept d (store c') \/
   exists v product_id,
     review_event rq d v product_id /\
     ratings v = ratings d /\
     store c' = rated v product_id).
Proof.
  intros program c'.
  split; [apply handle_by_recomputation |].
  split; intros Htrig.
  - pose proof (handle_rating_free is_active_default rating_default rq Htrig)
      as Hfree.
    split; [exact Hfree |]. subst c'.
    destruct (run program (connect d fl)) as [r c1] eqn:E.
    apply (run_rating_free program Hfree (connect d fl) r c1);
      [constructor | exact E].
  - subst c' program.
    destruct rq; try discriminate; cbn [handle]; rewrite run_bind.
    + destruct (run (create_review review current_user now) (connect d fl))
        as [[e | x] c1] eqn:E; apply create_review_run in E;
        rewrite ?run_Ret; cbn [snd].
      * destruct E as [E | (_ & _ & [E | E])].
        -- left. now apply ratings_kept_same.
        -- left. apply ratings_kept_products. now rewrite E.
        -- right. eexists _, _. split; [split; reflexivity |].
           split; [reflexivity | exact E].
      * destruct E as (_ & _ & E).
        right. eexists _, _. split; [split; reflexivity |].
        split; [reflexivity | exact E].
    + destruct (run (delete_review review_id current_user) (connect d fl))
        as [[e | x] c1] eqn:E; apply delete_review_run in E;
        rewrite ?run_Ret; cbn [snd].
      * destruct E as [E | (_ & _ & E)].
        -- left. now apply ratings_kept_same.
        -- left. apply ratings_kept_products. now rewrite E.
      * destruct E as (_ & _ & r0 & Hr0 & E).
        right. exists (deactivated review_id d), (Review.product_id r0).
        split; [split; [reflexivity | eauto] |].
        split; [reflexivity | exact E].
Qed.

Lemma rating_written_only_by_recomputation_witness :
  ratings_kept Example.shop
    (store (snd (run (handle true 0 (PUT_product 1 Example.green_tea
                                       Example.seller))
                   (connect Example.shop []))))
  /\
  (let rq := POST_reviews (Example.review 5) Example.buyer 100 in
   let c' := snd (run (handle true 0 rq) (connect Example.shop [])) in
   ratings_kept Example.shop (store c') \/
   exists v product_id,
     review_event rq Example.shop v product_id /\
     ratings v = ratings Example.shop /\
     store c' = rated v product_id).
Proof.
  split.
  - exact (proj2 (proj1 (proj2 (rating_written_only_by_recomputation true 0
                                  (PUT_product 1 Example.green_tea
                                     Example.seller)
                                  Example.shop [])) eq_refl)).
  - exact (proj2 (proj2 (rating_written_only_by_recomputation true 0
                           (POST_reviews (Example.review 5) Example.buyer 100)
                           Example.shop [])) eq_refl).
Defined.

(** The next call of a run, with what the storage answers written out. *)
Ltac stepped :=
  rewrite run_bind, run_call; unfold exec;
  cbn [awaited faults store txn]; cbn [perform];
  unfold query, view, enqueue, rollback;
  cbn [flush apply_write txn store faults app].

(** X7: [create_review] commits the review and the rating apart. A request
    that returns has stored the review and the recomputed rating; one that
    raises has committed nothing, or the review without the new rating, or
    both. The middle case happens: when the storage fails at the first
    call of the recomputation, the request raises, the review stays stored
    and every rating is as before. *)
Theorem create_review_outcomes (review : ReviewCreate.t)
  (current_user : User.t) (now : Z) (d : Database) :
  let product_id := ReviewCreate.product_id review in
  let row := stored_review d review current_user now in
  (forall fl r c',
     run (create_review review current_user now) (connect d fl) = (r, c') ->
     match r with
     | inr x => x = row /\ store c' = rated (with_review row d) product_id
     | inl e =>
         store c' = d \/ store c' = with_review row d \/
         store c' = rated (with_review row d) product_id
     end)
  /\
  (forall p,
     hd_error (filter (active_product product_id) (products d)) = Some p ->
     1 <= ReviewCreate.grade review <= 5 ->
     exists c',
       run (create_review review current_user now)
         (connect d [false; false; false; true])
       = (inl OperationalError, c') /\
       store c' = with_review row d /\ ratings (store c') = ratings d).
Proof.
  intros product_id row. split.
  - intros fl r c' Hrun. apply create_review_run in Hrun.
    destruct r as [e | x]; [| tauto].
    destruct Hrun as [H | (_ & _ & [H | H])]; auto.
  - intros p Hp Hg. apply grade_in_range_spec in Hg.
    exists (mkConn (with_review row d) [] []). split; [| now split].
    unfold product_id in Hp.
    unfold create_review, connect. stepped. rewrite Hp.
    unfold grade_in_range in Hg. rewrite Hg. cbn [negb hd_error].
    stepped. stepped.
    assert (Review.check_grade_range
              (ReviewModel review (User.id current_user) now) = true) as ->
        by exact Hg.
    fold (stored_review d review current_user now). fold row.
    fold (with_review row d). cbn [app last].
    stepped. change (next_id (map Review.id (reviews d))) with (Review.id row).
    rewrite find_Review_stored by reflexivity.
    rewrite run_bind. unfold update_product_rating. stepped. reflexivity.
Qed.

Lemma create_review_outcomes_witness :
  exists c',
    run (create_review (Example.review 4) Example.buyer 100)
      (connect Example.shop [false; false; false; true])
    = (inl OperationalError, c') /\
    store c'
    = with_review (stored_review Example.shop (Example.review 4)
                     Example.buyer 100) Example.shop /\
    ratings (store c') = ratings Example.shop.
Proof.
  apply (proj2 (create_review_outcomes (Example.review 4) Example.buyer 100
                  Example.shop) Example.tea);
    [reflexivity | simpl; lia].
Defined.

(** X8: [delete_review] commits the flag and the rating apart. A request
    that returns has flagged the review and recomputed the rating of its
    product; one that raises has committed nothing, or the flag without the
    new rating. The second case happens: when the storage fails at the
    first call of the recomputation, the request raises, the review stays
    inactive and every rating is as before. *)
Theorem delete_review_outcomes (review_id : Z) (current_user : User.t)
  (d : Database) :
  (forall fl r c',
     run (delete_review review_id current_user) (connect d fl) = (r, c') ->
     match r with
     | inr _ =>
         exists r0, find_Review review_id d = Some r0 /\
           store c'
           = rated (deactivated review_id d) (Review.product_id r0)
     | inl e => store c' = d \/ store c' = deactivated review_id d
     end)
  /\
  (forall review,
     find_Review review_id d = Some review ->
     Review.is_active review = true ->
     exists c',
       run (delete_review review_id current_user)
         (connect d [false; false; false; false; true])
       = (inl OperationalError, c') /\
       store c' = deactivated review_id d /\
       ratings (store c') = ratings d).
Proof.
  split.
  - intros fl r c' Hrun. apply delete_review_run in Hrun.
    destruct r as [e | x]; [| tauto].
    destruct Hrun as [H | (_ & _ & H)]; auto.
  - intros review Hfind Hact.
    exists (mkConn (deactivated review_id d) [] []). split; [| now split].
    unfold delete_review, connect. stepped.
    rewrite (active_review_selected _ _ _ Hfind Hact).
    stepped. stepped. fold (deactivated review_id d).
    assert (Review.id review = review_id) as ->
        by (unfold find_Review in Hfind; apply find_some in Hfind; lia).
    stepped. rewrite (find_Review_deactivated _ _ _ Hfind).
    rewrite run_bind. unfold update_product_rating. stepped. reflexivity.
Qed.

Lemma delete_review_outcomes_witness :
  exists c',
    run (delete_review 3 Example.admin)
      (connect Example.shop_551 [false; false; false; false; true])
    = (inl OperationalError, c') /\
    store c' = deactivated 3 Example.shop_551 /\
    ratings (store c') = ratings Example.shop_551.
Proof.
  exact (proj2 (delete_review_outcomes 3 Example.admin Example.shop_551)
           (Review.mk 3 9 1 (Some "fine"%string) 102 1 true)
           eq_refl eq_refl).
Defined.

(** ** The foreign key of a review *)

Lemma existsb_id_update (k : Z) (where_ : Product.t -> bool)
  (values : Product.t -> Product.t) (rows : list Product.t) :
  (forall p, Product.id (values p) = Product.id p) ->
  existsb (fun p => Product.id p =? k) (update_where where_ values rows)
  = existsb (fun p => Product.id p =? k) rows.
Proof.
  intros Hid. induction rows as [| p rows IH]; simpl; trivial.
  rewrite IH. now destruct (where_ p); rewrite ?Hid.
Qed.

Lemma apply_write_references (w : Write) (d d' : Database) (ks : list Z) :
  tame_no_review w -> apply_write w d = Some (d', ks) ->
  references_products d = true -> references_products d' = true.
Proof.
  unfold references_products.
  destruct w as [row | row | where_ values | where_ values]; simpl;
    intros (Hw & Hno) H Hr; try contradiction; inversion H; subst; simpl.
  - rewrite forallb_forall in *. intros r Hin.
    rewrite existsb_app, (Hr r Hin). reflexivity.
  - rewrite forallb_forall in *. intros r Hin.
    rewrite existsb_id_update by (intros p; apply Hw). auto.
  - rewrite forallb_forall in *. intros r' Hin. unfold update_where in Hin.
    apply in_map_iff in Hin. destruct Hin as (r & <- & Hin).
    specialize (Hr r Hin). destruct (where_ r); trivial. now rewrite Hw.
Qed.

Lemma references_rated (d : Database) (product_id : Z) :
  references_products (rated d product_id) = references_products d.
Proof.
  unfold references_products, rated. cbn [products reviews].
  induction (reviews d) as [| r rows IH]; simpl; trivial.
  now rewrite IH, existsb_id_update.
Qed.

Lemma references_with_review (row : Review.t) (d : Database) (p : Product.t) :
  find_Product (Review.product_id row) d = Some p ->
  references_products d = true ->
  references_products (with_review row d) = true.
Proof.
  unfold references_products, with_review. cbn [products reviews].
  intros Hp Hr. rewrite forallb_app, Hr. simpl. rewrite andb_true_r.
  apply existsb_exists. exists p. unfold find_Product in Hp.
  apply find_some in Hp. exact Hp.
Qed.

Lemma handle_tame_no_review (is_active_default : bool) (rating_default : Q)
  (rq : Request) :
  (forall review u now, rq <> POST_reviews review u now) ->
  calls tame_no_review (handle is_active_default rating_default rq).
Proof.
  intros Hrq.
  destruct rq; simpl; try (exfalso; now eapply Hrq);
    unfold get_all_products, create_product, get_products_by_category,
      get_product, update_product, delete_product, get_all_reviews,
      get_review_by_product, delete_review;
    repeat first
      [ apply calls_Ret
      | apply calls_Raise
      | apply calls_update_product_rating; intros pk value;
        split; [intros p; split; reflexivity | exact I]
      | apply calls_call; intros w Hw; inversion Hw; split; simpl;
        first [ exact I | intros p; split; reflexivity | reflexivity ]
      | apply calls_bind; [| intros ?]
      | match goal with
        | |- calls _ (match ?x with _ => _ end) => destruct x
        end ].
Qed.

(** X9: the foreign key of reviews is kept: when every review is of a
    product in the tables, so it is after any request, whatever the
    storage does ([create_review] stores a review only for a product it
    has found, and no endpoint removes a product or changes its key). *)
Theorem references_products_kept (is_active_default : bool)
  (rating_default : Q) (rq : Request) (d : Database) (fl : list bool) :
  references_products d = true ->
  references_products
    (store (snd (run (handle is_active_default rating_default rq)
                   (connect d fl)))) = true.
Proof.
  intros Hr.
  assert ((exists review u now, rq = POST_reviews review u now) \/
          (forall review u now, rq <> POST_reviews review u now))
    as [(review & u & now & ->) | Hrq]
      by (destruct rq; try (right; discriminate); left; eauto).
  - cbn [handle]. rewrite run_bind.
    destruct (run (create_review review u now) (connect d fl))
      as [[e | x] c1] eqn:E; pose proof (create_review_run _ _ _ _ _ _ _ E)
      as H; cbn [snd]; rewrite ?run_Ret; cbn [snd].
    + destruct H as [-> | (((p & Hp) & _) & _ & H)]; [exact Hr |].
      destruct (active_product_found _ _ _ Hp) as (p' & Hp').
      destruct H as [-> | ->]; rewrite ?references_rated;
        now apply references_with_review with p'.
    + destruct H as (((p & Hp) & _) & _ & ->).
      destruct (active_product_found _ _ _ Hp) as (p' & Hp').
      rewrite references_rated. now apply references_with_review with p'.
  - destruct (run (handle is_active_default rating_default rq)
                (connect d fl)) as [r c'] eqn:E.
    apply (run_preserved
             (fun d d' => references_products d = true ->
                          references_products d' = true) tame_no_review)
      in E; [now apply E | auto | auto | | now apply handle_tame_no_review
            | constructor].
    intros w d1 d2 ks. apply apply_write_references.
Qed.

Lemma references_products_kept_witness :
  references_products
    (store (snd (run (handle true 0
                        (POST_reviews (Example.review 3) Example.buyer 103))
                   (connect Example.shop_55x [false; false; true])))) = true.
Proof.
  exact (references_products_kept true 0
           (POST_reviews (Example.review 3) Example.buyer 103)
           Example.shop_55x [false; false; true] eq_refl).
Defined.

(** X10: with the foreign key kept and the storage answering,
    [delete_review] of an active review returns: the product whose rating
    it recomputes is there. *)
Theorem delete_review_returns (review_id : Z) (current_user : User.t)
  (d : Database) (review : Review.t) :
  references_products d = true ->
  find_Review review_id d = Some review ->
  Review.is_active review = true ->
  run (delete_review review_id current_user) (connect d [])
  = (inr "Review deleted"%string,
     connect (rated (deactivated review_id d) (Review.product_id review)) []).
Proof.
  intros Hr Hfind Hact.
  assert (exists p, find_Product (Review.product_id review) d = Some p)
    as (p & Hp).
  { unfold references_products in Hr. rewrite forallb_forall in Hr.
    unfold find_Review in Hfind. apply find_some in Hfind.
    specialize (Hr review (proj1 Hfind)). unfold find_Product.
    destruct (find (fun p => Product.id p =? Review.product_id review)
                (products d)) as [p |] eqn:E; [eauto |].
    apply existsb_exists in Hr. destruct Hr as (q & Hq & Hid).
    apply (find_none _ _ E) in Hq. simpl in Hq. congruence. }
  now apply delete_review_completes with p.
Qed.

Lemma delete_review_returns_witness :
  run (delete_review 3 Example.admin) (connect Example.shop_551 [])
  = (inr "Review deleted"%string,
     connect (rated (deactivated 3 Example.shop_551) 1) []).
Proof.
  exact (delete_review_returns 3 Example.admin Example.shop_551
           (Review.mk 3 9 1 (Some "fine"%string) 102 1 true)
           eq_refl eq_refl eq_refl).
Defined.

(** ** [app/routers/products.py] *)

Lemma hd_error_filter {A : Type} (f : A -> bool) (l : list A) :
  hd_error (filter f l) = find f l.
Proof.
  induction l as [| x l IH]; simpl; trivial. now destruct (f x).
Qed.

Lemma find_Product_stored (d : Database) (row : Product.t) :
  Product.id row = next_id (map Product.id (products d)) ->
  find_Product (Product.id row) (with_product row d) = Some row.
Proof.
  intros Hid. unfold find_Product, with_product. cbn [products].
  assert (forall rows,
            (forall p, In p rows -> Product.id p <> Product.id row) ->
            find (fun p => Product.id p =? Product.id row) (rows ++ [row])
            = Some row) as Hfind.
  { induction rows as [| p rows IH]; simpl; intros Hne.
    - now rewrite Z.eqb_refl.
    - destruct (Product.id p =? Product.id row) eqn:E.
      + apply Z.eqb_eq in E. exfalso. apply (Hne p); auto.
      + apply IH. intros p' Hp'. apply Hne. auto. }
  apply Hfind. intros p Hp. rewrite Hid.
  assert (Product.id p < next_id (map Product.id (products d)))
    by (apply next_id_above, in_map, Hp).
  lia.
Qed.

Lemma no_active_product_stored (d : Database) (row : Product.t) :
  Product.id row = next_id (map Product.id (products d)) ->
  filter (active_product (Product.id row)) (products d) = [].
Proof.
  intros Hid.
  assert (forall p, In p (products d) ->
            active_product (Product.id row) p = false) as Hnone.
  { intros p Hp. unfold active_product.
    assert (Product.id p < next_id (map Product.id (products d)))
      by (apply next_id_above, in_map, Hp).
    assert ((Product.id p =? Product.id row) = false) as -> by lia.
    reflexivity. }
  revert Hnone. generalize (products d) as rows.
  induction rows as [| p rows IH]; simpl; intros Hnone; trivial.
  rewrite Hnone by auto. apply IH. auto.
Qed.

(** X11: with the storage answering, [create_product] for an active
    category stores the product under a key above every key in use, with
    the current user as its seller and the payload as its values, and
    returns the stored row; when products are active by default,
    [get_product] on the new key then returns that row. Without an active
    category the request ends in the 400 and nothing is stored. *)
Theorem create_product_stores (is_active_default : bool) (rating_default : Q)
  (product : ProductCreate.t) (current_user : User.t) (d : Database) :
  let row :=
    stored_product is_active_default rating_default d product current_user in
  let category :=
    hd_error (filter (active_category (ProductCreate.category_id product))
                (categories d)) in
  (category = None ->
   run (create_product is_active_default rating_default product current_user)
     (connect d [])
   = (inl (HTTPException 400 "Category not found or inactive"),
      connect d []))
  /\
  (category <> None ->
   run (create_product is_active_default rating_default product current_user)
     (connect d [])
   = (inr row, connect (with_product row d) []) /\
   (forall p, In p (products d) -> Product.id p < Product.id row) /\
   Product.seller_id row = User.id current_user /\
   Product.with_values product row = row /\
   (is_active_default = true ->
    run (get_product (Product.id row)) (connect (with_product row d) [])
    = (inr row, connect (with_product row d) []))).
Proof.
  intros row category. split; intros Hc.
  - unfold create_product, connect. answered. fold category. now rewrite Hc.
  - split; [| split; [| split; [| split]]].
    + unfold create_product, connect. answered. fold category.
      destruct category as [c |]; [| congruence].
      answered. answered.
      fold (stored_product is_active_default rating_default d product
              current_user).
      fold row. fold (with_product row d). cbn [app last].
      answered.
      change (next_id (map Product.id (products d))) with (Product.id row).
      now rewrite find_Product_stored.
    + intros p Hp.
      change (Product.id row) with (next_id (map Product.id (products d))).
      apply next_id_above. now apply in_map.
    + reflexivity.
    + reflexivity.
    + intros Hact. unfold get_product, connect. answered.
      unfold with_product. cbn [products]. rewrite filter_app.
      rewrite no_active_product_stored by reflexivity.
      cbn [app filter]. unfold active_product at 1.
      rewrite Z.eqb_refl. cbn [andb].
      assert (Product.is_active row = true) as -> by exact Hact.
      reflexivity.
Qed.

Lemma create_product_stores_witness :
  let row := stored_product true 0 Example.shop Example.green_tea
               Example.seller in
  run (create_product true 0 Example.green_tea Example.seller)
    (connect Example.shop [])
  = (inr row, connect (with_product row Example.shop) []) /\
  (forall p, In p (products Example.shop) -> Product.id p < Product.id row) /\
  Product.seller_id row = User.id Example.seller /\
  Product.with_values Example.green_tea row = row /\
  (true = true ->
   run (get_product (Product.id row))
     (connect (with_product row Example.shop) [])
   = (inr row, connect (with_product row Example.shop) [])).
Proof.
  apply (proj2 (create_product_stores true 0 Example.green_tea
                  Example.seller Example.shop)).
  simpl. discriminate.
Defined.

(** Every run of [update_product] on a fresh session: the UPDATE is
    committed only past the three checks, and all at once. *)
Lemma update_product_run (product_id : Z) (product : ProductCreate.t)
  (current_user : User.t) (d : Database) (fl : list bool)
  (r : Exc + Product.t) (c' : Conn) :
  let allowed :=
    exists p0, find_Product product_id d = Some p0 /\
      Product.seller_id p0 = User.id current_user in
  run (update_product product_id product current_user) (connect d fl)
  = (r, c') ->
  match r with
  | inr x =>
      allowed /\ store c' = updated product_id product d /\
      exists p0, find_Product product_id d = Some p0 /\
        x = Product.with_values product p0
  | inl e =>
      store c' = d \/
      (allowed /\ is_http e = false /\
       store c' = updated product_id product d)
  end.
Proof.
  intros allowed. unfold update_product. rewrite run_bind, run_call.
  match goal with |- context [exec ?o (connect d fl)] =>
    destruct (exec o (connect d fl)) as [[e1 | rows] c1] eqn:E1 end;
    invert_query E1;
    [intros H; inversion H; subst; left; apply E1 |].
  destruct E1 as (S1 & v & Hv & Hrows & T1 & _).
  cbn [connect store txn] in S1, T1.
  rewrite view_connect in Hv. inversion Hv; subst v.
  inversion Hrows; subst rows. clear Hv Hrows.
  rewrite hd_error_filter. fold (find_Product product_id d).
  destruct (find_Product product_id d) as [p0 |] eqn:Hp0;
    [| rewrite run_Raise; intros H; inversion H; subst; now left].
  destruct (Product.seller_id p0 =? User.id current_user) eqn:Hseller;
    cbn [negb];
    [| rewrite run_Raise; intros H; inversion H; subst; now left].
  assert allowed as Hall by (exists p0; split; [reflexivity | lia]).
  rewrite run_bind, run_call.
  match goal with |- context [exec ?o c1] =>
    destruct (exec o c1) as [[e2 | cats] c2] eqn:E2 end;
    invert_query E2;
    [intros H; inversion H; subst; left; destruct E2; congruence |].
  destruct E2 as (S2 & _ & _ & _ & T2 & _).
  destruct (hd_error cats);
    [| rewrite run_Raise; intros H; inversion H; subst; left; congruence].
  rewrite run_bind, run_call.
  match goal with |- context [exec ?o c2] =>
    destruct (exec_awaited o c2 eq_refl) as [(rest & _ & E3) | E3] end;
    rewrite E3;
    [intros H; inversion H; subst; left; cbn; congruence |].
  cbn [perform]. rewrite run_bind, run_call.
  match goal with |- context [exec Commit ?cc] =>
    destruct (exec Commit cc) as [[e4 | keys] c4] eqn:E4 end;
    apply exec_Commit in E4; cbn [enqueue store txn] in E4;
    rewrite ?S2, ?T2, ?S1, ?T1 in E4;
    [intros H; inversion H; subst; left; apply E4 |].
  destruct E4 as (Hfl & T4 & _). cbn [app flush apply_write] in Hfl.
  inversion Hfl as [[Hs4 Hkeys]]. clear Hfl.
  fold (updated product_id product d) in Hs4.
  rewrite run_bind, run_call.
  match goal with |- context [exec ?o c4] =>
    destruct (exec o c4) as [[e5 | x] c5] eqn:E5 end.
  { pose proof (exec_not_http _ _ _ _ E5) as Hne. invert_query E5.
    intros H; inversion H; subst. right. split; [exact Hall |].
    split; [exact Hne |]. destruct E5 as (-> & _). now symmetry. }
  invert_query E5. destruct E5 as (S5 & v5 & Hv5 & Hx & _).
  rewrite (view_committed c4 T4), <- Hs4 in Hv5. inversion Hv5; subst v5.
  rewrite (find_Product_id _ _ _ Hp0) in Hx.
  unfold find_Product, updated in Hx. cbn [products] in Hx.
  rewrite find_update_where in Hx by reflexivity.
  fold (find_Product product_id d) in Hx. rewrite Hp0 in Hx.
  inversion Hx; subst x.
  rewrite run_Ret. intros H; inversion H; subst.
  split; [exact Hall |]. split; [congruence |]. now exists p0.
Qed.

(** Every run of [delete_product] on a fresh session. *)
Lemma delete_product_run (product_id : Z) (current_user : User.t)
  (d : Database) (fl : list bool) (r : Exc + Product.t) (c' : Conn) :
  let allowed :=
    exists p,
      hd_error (filter (active_product product_id) (products d)) = Some p /\
      Product.seller_id p = User.id current_user in
  run (delete_product product_id current_user) (connect d fl) = (r, c') ->
  match r with
  | inr x =>
      allowed /\ store c' = soft_deleted product_id d /\
      exists p0, find_Product product_id d = Some p0 /\
        x = Product.with_is_active false p0
  | inl e =>
      store c' = d \/
      (allowed /\ is_http e = false /\ store c' = soft_deleted product_id d)
  end.
Proof.
  intros allowed. unfold delete_product. rewrite run_bind, run_call.
  match goal with |- context [exec ?o (connect d fl)] =>
    destruct (exec o (connect d fl)) as [[e1 | rows] c1] eqn:E1 end;
    invert_query E1;
    [intros H; inversion H; subst; left; apply E1 |].
  destruct E1 as (S1 & v & Hv & Hrows & T1 & _).
  cbn [connect store txn] in S1, T1.
  rewrite view_connect in Hv. inversion Hv; subst v.
  inversion Hrows; subst rows. clear Hv Hrows.
  destruct (hd_error _) as [p |] eqn:Hp;
    [| rewrite run_Raise; intros H; inversion H; subst; now left].
  destruct (Product.seller_id p =? User.id current_user) eqn:Hseller;
    cbn [negb];
    [| rewrite run_Raise; intros H; inversion H; subst; now left].
  assert allowed as Hall by (exists p; split; [reflexivity | lia]).
  destruct (active_product_found _ _ _ Hp) as (p0 & Hp0).
  assert (Product.id p = product_id) as Hid.
  { rewrite hd_error_filter in Hp. apply find_some in Hp.
    unfold active_product in Hp. lia. }
  rewrite run_bind, run_call.
  match goal with |- context [exec ?o c1] =>
    destruct (exec_awaited o c1 eq_refl) as [(rest & _ & E3) | E3] end;
    rewrite E3;
    [intros H; inversion H; subst; left; cbn; congruence |].
  cbn [perform]. rewrite run_bind, run_call.
  match goal with |- context [exec Commit ?cc] =>
    destruct (exec Commit cc) as [[e4 | keys] c4] eqn:E4 end;
    apply exec_Commit in E4; cbn [enqueue store txn] in E4;
    rewrite ?S1, ?T1 in E4;
    [intros H; inversion H; subst; left; apply E4 |].
  destruct E4 as (Hfl & T4 & _). cbn [app flush apply_write] in Hfl.
  inversion Hfl as [[Hs4 Hkeys]]. clear Hfl.
  fold (soft_deleted product_id d) in Hs4.
  rewrite run_bind, run_call.
  match goal with |- context [exec ?o c4] =>
    destruct (exec o c4) as [[e5 | x] c5] eqn:E5 end.
  { pose proof (exec_not_http _ _ _ _ E5) as Hne. invert_query E5.
    intros H; inversion H; subst. right. split; [exact Hall |].
    split; [exact Hne |]. destruct E5 as (-> & _). now symmetry. }
  invert_query E5. destruct E5 as (S5 & v5 & Hv5 & Hx & _).
  rewrite (view_committed c4 T4), <- Hs4 in Hv5. inversion Hv5; subst v5.
  rewrite Hid in Hx.
  unfold find_Product, soft_deleted in Hx. cbn [products] in Hx.
  rewrite find_update_where in Hx by reflexivity.
  fold (find_Product product_id d) in Hx. rewrite Hp0 in Hx.
  inversion Hx; subst x.
  rewrite run_Ret. intros H; inversion H; subst.
  split; [exact Hall |]. split; [congruence |]. now exists p0.
Qed.

Lemma distinct_In (keys : list Z) (k : Z) :
  distinct (k :: keys) = true -> ~ In k keys.
Proof.
  simpl. intros H Hin. apply andb_prop in H. destruct H as [H _].
  apply negb_true_iff in H.
  assert (existsb (Z.eqb k) keys = true); [| congruence].
  apply existsb_exists. exists k. split; [exact Hin | apply Z.eqb_refl].
Qed.

Lemma distinct_keys_rows (rows : list Product.t) (a b : Product.t) :
  distinct (map Product.id rows) = true ->
  In a rows -> In b rows -> Product.id a = Product.id b -> a = b.
Proof.
  induction rows as [| x rows IH]; [contradiction |].
  intros Hd Ha Hb Hid. pose proof (distinct_In _ _ Hd) as Hx.
  simpl in Hd. apply andb_prop in Hd. destruct Hd as [_ Hd].
  destruct Ha as [-> | Ha], Hb as [-> | Hb]; trivial.
  - exfalso. apply Hx. rewrite Hid. now apply in_map.
  - exfalso. apply Hx. rewrite <- Hid. now apply in_map.
  - now apply IH.
Qed.

Lemma update_where_keeps_others (product_id : Z)
  (values : Product.t -> Product.t) (rows : list Product.t) (q : Product.t) :
  In q rows -> Product.id q <> product_id ->
  In q (update_where (fun p => Product.id p =? product_id) values rows).
Proof.
  intros Hin Hne. unfold update_where. apply in_map_iff. exists q.
  split; [| exact Hin].
  assert ((Product.id q =? product_id) = false) as -> by lia. reflexivity.
Qed.

(** X12: a seller changes only products of their own: with unique keys,
    after [update_product] or [delete_product] by a user, whatever the
    payload, the key and what the storage does, every product of another
    seller is in the tables as it was. *)
Theorem other_sellers_products_untouched (product_id : Z)
  (product : ProductCreate.t) (current_user : User.t) (d : Database)
  (fl : list bool) (q : Product.t) :
  unique_keys d = true ->
  In q (products d) ->
  Product.seller_id q <> User.id current_user ->
  In q (products
          (store (snd (run (update_product product_id product current_user)
                         (connect d fl)))))
  /\
  In q (products
          (store (snd (run (delete_product product_id current_user)
                         (connect d fl))))).
Proof.
  intros Hu Hq Hseller. unfold unique_keys in Hu. apply andb_prop in Hu.
  destruct Hu as [Hu _]. split.
  - destruct (run (update_product product_id product current_user)
                (connect d fl)) as [r c'] eqn:E.
    apply update_product_run in E. cbn [snd].
    assert (store c' = d \/
            ((exists p0, find_Product product_id d = Some p0 /\
                Product.seller_id p0 = User.id current_user) /\
             store c' = updated product_id product d))
      as [-> | ((p0 & Hp0 & Hs0) & ->)]
        by (destruct r; [destruct E as [E | E]; [now left | right; tauto]
                        | right; tauto]);
      [exact Hq |].
    cbn [updated products]. apply update_where_keeps_others; [exact Hq |].
    intros Hid. apply Hseller. rewrite <- Hs0. f_equal.
    unfold find_Product in Hp0. apply find_some in Hp0.
    apply (distinct_keys_rows (products d)); trivial; [tauto | lia].
  - destruct (run (delete_product product_id current_user) (connect d fl))
      as [r c'] eqn:E.
    apply delete_product_run in E. cbn [snd].
    assert (store c' = d \/
            ((exists p,
                 hd_error (filter (active_product product_id) (products d))
                 = Some p /\
                 Product.seller_id p = User.id current_user) /\
             store c' = soft_deleted product_id d))
      as [-> | ((p0 & Hp0 & Hs0) & ->)]
        by (destruct r; [destruct E as [E | E]; [now left | right; tauto]
                        | right; tauto]);
      [exact Hq |].
    cbn [soft_deleted products]. apply update_where_keeps_others;
      [exact Hq |].
    intros Hid. apply Hseller. rewrite <- Hs0. f_equal.
    rewrite hd_error_filter in Hp0. apply find_some in Hp0.
    unfold active_product in Hp0.
    apply (distinct_keys_rows (products d)); trivial; [tauto | lia].
Qed.

Lemma other_sellers_products_untouched_witness :
  In Example.tea
    (products
       (store (snd (run (update_product 1 Example.green_tea Example.buyer)
                      (connect Example.shop [])))))
  /\
  In Example.tea
    (products
       (store (snd (run (delete_product 1 Example.buyer)
                      (connect Example.shop []))))).
Proof.
  apply (other_sellers_products_untouched 1 Example.green_tea Example.buyer
           Example.shop [] Example.tea);
    [reflexivity | simpl; auto | simpl; lia].
Defined.

Lemma find_update_where_other (k product_id : Z)
  (values : Product.t -> Product.t) (rows : list Product.t) :
  k <> product_id ->
  (forall p, Product.id (values p) = Product.id p) ->
  find (fun p => Product.id p =? k)
    (update_where (fun p => Product.id p =? product_id) values rows)
  = find (fun p => Product.id p =? k) rows.
Proof.
  intros Hk Hid. induction rows as [| p rows IH]; simpl; trivial.
  destruct (Product.id p =? product_id) eqn:E.
  - rewrite Hid. assert ((Product.id p =? k) = false) as -> by lia.
    exact IH.
  - now rewrite IH.
Qed.

(** X13: with the storage answering, [update_product] by the seller of the
    product, for an active category, replaces the six values of the payload
    and returns the row; the key, the seller, [is_active] and [rating] stay,
    so do the products of other keys, the categories and the reviews. The
    product need not be active: a soft-deleted product is updated all the
    same. *)
Theorem update_product_effect (product_id : Z) (product : ProductCreate.t)
  (current_user : User.t) (d : Database) (p0 : Product.t) (c : Category.t) :
  find_Product product_id d = Some p0 ->
  Product.seller_id p0 = User.id current_user ->
  hd_error (filter (active_category (ProductCreate.category_id product))
              (categories d)) = Some c ->
  let row := Product.with_values product p0 in
  let d' := updated product_id product d in
  run (update_product product_id product current_user) (connect d [])
  = (inr row, connect d' []) /\
  find_Product product_id d' = Some row /\
  (Product.id row, Product.seller_id row, Product.is_active row,
   Product.rating row)
  = (Product.id p0, Product.seller_id p0, Product.is_active p0,
     Product.rating p0) /\
  (forall k, k <> product_id -> find_Product k d' = find_Product k d) /\
  categories d' = categories d /\ reviews d' = reviews d.
Proof.
  intros Hp0 Hseller Hc row d'.
  assert (find_Product product_id d' = Some row) as Hrow.
  { unfold find_Product, d', updated. cbn [products].
    rewrite find_update_where by reflexivity.
    fold (find_Product product_id d). now rewrite Hp0. }
  split; [| split; [exact Hrow | split; [reflexivity | split]]].
  - unfold update_product, connect. answered.
    rewrite hd_error_filter. fold (find_Product product_id d). rewrite Hp0.
    assert ((Product.seller_id p0 =? User.id current_user) = true) as ->
        by lia.
    cbn [negb]. answered. rewrite Hc. answered. answered.
    fold (updated product_id product d). fold d'.
    answered. rewrite (find_Product_id _ _ _ Hp0), Hrow. reflexivity.
  - intros k Hk. unfold find_Product, d', updated. cbn [products].
    now apply find_update_where_other.
  - now split.
Qed.

Lemma update_product_effect_witness :
  let row := Product.with_values Example.green_tea
               (Product.with_is_active false Example.tea) in
  let d := soft_deleted 1 Example.shop in
  let d' := updated 1 Example.green_tea d in
  run (update_product 1 Example.green_tea Example.seller) (connect d [])
  = (inr row, connect d' []) /\
  find_Product 1 d' = Some row /\
  (Product.id row, Product.seller_id row, Product.is_active row,
   Product.rating row)
  = (1, 7, false, 0%Q) /\
  (forall k, k <> 1 -> find_Product k d' = find_Product k d) /\
  categories d' = categories d /\ reviews d' = reviews d.
Proof.
  exact (update_product_effect 1 Example.green_tea Example.seller
           (soft_deleted 1 Example.shop)
           (Product.with_is_active false Example.tea)
           (Category.mk 1 "drinks" None true) eq_refl eq_refl eq_refl).
Defined.

Lemma active_product_selected (product_id : Z) (d : Database)
  (p : Product.t) :
  find_Product product_id d = Some p -> Product.is_active p = true ->
  hd_error (filter (active_product product_id) (products d)) = Some p.
Proof.
  unfold find_Product. intros Hfind Hact.
  induction (products d) as [| q rows IH]; simpl in *; [discriminate |].
  unfold active_product at 1.
  destruct (Product.id q =? product_id) eqn:E; cbn [andb].
  - inversion Hfind; subst. now rewrite Hact.
  - now apply IH.
Qed.

Lemma soft_deleted_inactive (product_id : Z) (d : Database) (q : Product.t) :
  In q (products (soft_deleted product_id d)) ->
  Product.id q = product_id -> Product.is_active q = false.
Proof.
  unfold soft_deleted, update_where. cbn [products]. intros Hin Hid.
  apply in_map_iff in Hin. destruct Hin as (p & Hq & _).
  destruct (Product.id p =? product_id) eqn:E; subst q; [reflexivity |].
  lia.
Qed.

Lemma soft_deleted_no_active (product_id : Z) (d : Database) :
  filter (active_product product_id) (products (soft_deleted product_id d))
  = [].
Proof.
  destruct (filter _ _) as [| q rows] eqn:E; trivial.
  assert (In q (filter (active_product product_id)
                  (products (soft_deleted product_id d)))) as Hin
      by (rewrite E; simpl; auto).
  apply filter_In in Hin. destruct Hin as (Hin & Hact).
  unfold active_product in Hact. apply andb_prop in Hact.
  destruct Hact as (Hid & Hact).
  rewrite (soft_deleted_inactive product_id d q Hin) in Hact by lia.
  discriminate.
Qed.

Lemma In_join_Category (where_ : Product.t -> Category.t -> bool)
  (d : Database) (p : Product.t) :
  In p (join_Category where_ d) <->
  In p (products d) /\
  exists c, In c (categories d) /\
    Category.id c = Product.category_id p /\ where_ p c = true.
Proof.
  unfold join_Category. rewrite in_flat_map. split.
  - intros (q & Hq & Hin). apply in_map_iff in Hin.
    destruct Hin as (c & <- & Hc). apply filter_In in Hc.
    destruct Hc as (Hc & Hsel). apply andb_prop in Hsel.
    split; [exact Hq |]. exists c. repeat split; [exact Hc | lia | tauto].
  - intros (Hp & c & Hc & Hid & Hw). exists p. split; [exact Hp |].
    apply in_map_iff. exists c. split; [reflexivity |].
    apply filter_In. split; [exact Hc |]. rewrite Hw.
    assert ((Category.id c =? Product.category_id p) = true) as -> by lia.
    reflexivity.
Qed.

(** X14: with the storage answering, [get_all_products] lists exactly the
    products that are active, in stock and of an active category: not the
    soft-deleted ones, not those with no stock, not those whose category is
    inactive or missing. *)
Theorem get_all_products_lists (d : Database) :
  exists listed,
    run get_all_products (connect d []) = (inr listed, connect d []) /\
    forall p,
      In p listed <->
      In p (products d) /\ Product.is_active p = true /\
      0 < Product.stock p /\
      exists c, In c (categories d) /\
        Category.id c = Product.category_id p /\
        Category.is_active c = true.
Proof.
  eexists. split.
  - unfold get_all_products, connect. rewrite run_call, exec_no_fault.
    reflexivity.
  - intros p. rewrite In_join_Category. split.
    + intros (Hp & c & Hc & Hid & Hw).
      apply andb_prop in Hw. destruct Hw as (Hw & Hstock).
      apply andb_prop in Hw. destruct Hw as (Hact & Hcat).
      split; [exact Hp |].
      split; [now destruct (Product.is_active p) |].
      split; [lia |]. exists c.
      repeat split; trivial. now destruct (Category.is_active c).
    + intros (Hp & Hact & Hstock & c & Hc & Hid & Hcat).
      split; [exact Hp |]. exists c. repeat split; trivial.
      rewrite Hact, Hcat. cbn [Bool.eqb andb]. lia.
Qed.

(** X15: with the storage answering, [delete_product] by the seller of an
    active product clears [is_active] and returns the row; ratings and
    reviews stay. From then on [get_product], [get_review_by_product],
    [create_review] for that product and a second [delete_product] all end
    in their 404, and [get_all_products] lists no product of that key. *)
Theorem delete_product_effect (product_id : Z) (current_user : User.t)
  (d : Database) (p : Product.t) :
  find_Product product_id d = Some p ->
  Product.is_active p = true ->
  Product.seller_id p = User.id current_user ->
  let d' := soft_deleted product_id d in
  let not_found :=
    HTTPException 404 "Product not found or inactive" in
  run (delete_product product_id current_user) (connect d [])
  = (inr (Product.with_is_active false p), connect d' []) /\
  ratings d' = ratings d /\ reviews d' = reviews d /\
  run (get_product product_id) (connect d' [])
  = (inl not_found, connect d' []) /\
  run (get_review_by_product product_id) (connect d' [])
  = (inl not_found, connect d' []) /\
  (forall review user now,
     ReviewCreate.product_id review = product_id ->
     run (create_review review user now) (connect d' [])
     = (inl not_found, connect d' [])) /\
  run (delete_product product_id current_user) (connect d' [])
  = (inl not_found, connect d' []) /\
  (forall listed c' q,
     run get_all_products (connect d' []) = (inr listed, c') ->
     In q listed -> Product.id q <> product_id).
Proof.
  intros Hp Hact Hseller d' not_found.
  pose proof (soft_deleted_no_active product_id d) as Hnone. fold d' in Hnone.
  split; [| split; [| split; [| split; [| split; [| split; [| split]]]]]].
  - unfold delete_product, connect. answered.
    rewrite (active_product_selected _ _ _ Hp Hact).
    assert ((Product.seller_id p =? User.id current_user) = true) as ->
        by lia.
    cbn [negb]. answered. answered.
    fold (soft_deleted product_id d). fold d'. answered.
    rewrite (find_Product_id _ _ _ Hp).
    unfold find_Product, d', soft_deleted. cbn [products].
    rewrite find_update_where by reflexivity.
    fold (find_Product product_id d). now rewrite Hp.
  - unfold ratings, d', soft_deleted, update_where. cbn [products].
    rewrite map_map. apply map_ext. intros q.
    now destruct (Product.id q =? product_id).
  - reflexivity.
  - unfold get_product, connect. answered. now rewrite Hnone.
  - unfold get_review_by_product, connect. answered. now rewrite Hnone.
  - intros review user now Hid. unfold create_review, connect. answered.
    now rewrite Hid, Hnone.
  - unfold delete_product, connect. answered. now rewrite Hnone.
  - intros listed c' q Hrun Hq Hid.
    unfold get_all_products, connect in Hrun.
    rewrite run_call, exec_no_fault in Hrun. cbn [perform] in Hrun.
    unfold query, view in Hrun. cbn [flush txn store] in Hrun.
    inversion Hrun; subst listed. apply In_join_Category in Hq.
    destruct Hq as (Hin & c & _ & _ & Hw).
    rewrite (soft_deleted_inactive product_id d q Hin Hid) in Hw.
    discriminate.
Qed.

Lemma delete_product_effect_witness :
  let d' := soft_deleted 1 Example.shop_551 in
  let not_found :=
    HTTPException 404 "Product not found or inactive" in
  run (delete_product 1 Example.seller) (connect Example.shop_551 [])
  = (inr (Product.with_is_active false
            (Product.with_rating (binary64 (11 # 3)) Example.tea)), connect d' []) /\
  ratings d' = ratings Example.shop_551 /\
  reviews d' = reviews Example.shop_551 /\
  run (get_product 1) (connect d' []) = (inl not_found, connect d' []) /\
  run (get_review_by_product 1) (connect d' [])
  = (inl not_found, connect d' []) /\
  (forall review user now,
     ReviewCreate.product_id review = 1 ->
     run (create_review review user now) (connect d' [])
     = (inl not_found, connect d' [])) /\
  run (delete_product 1 Example.seller) (connect d' [])
  = (inl not_found, connect d' []) /\
  (forall listed c' q,
     run get_all_products (connect d' []) = (inr listed, c') ->
     In q listed -> Product.id q <> 1).
Proof.
  exact (delete_product_effect 1 Example.seller Example.shop_551
           (Product.with_rating (binary64 (11 # 3)) Example.tea)
           eq_refl eq_refl eq_refl).
Defined.

(** ** The rating: bounds and frame *)

Lemma sum_grades_bounds (rows : list Review.t) :
  forallb Review.check_grade_range rows = true ->
  Z.of_nat (List.length rows) <= sum_grades rows
  <= 5 * Z.of_nat (List.length rows).
Proof.
  induction rows as [| r rows IH]; intros H; [simpl; lia |].
  cbn [forallb] in H. apply andb_prop in H. destruct H as (Hr & H).
  specialize (IH H). unfold Review.check_grade_range in Hr.
  change (sum_grades (r :: rows)) with (Review.grade r + sum_grades rows).
  apply andb_prop in Hr. destruct Hr as (Hlo & Hhi).
  cbn [List.length]. rewrite Nat2Z.inj_succ. lia.
Qed.

Lemma quotient_bounds (s n : Z) :
  0 < n -> n <= s <= 5 * n -> (1 <= inject_Z s / inject_Z n <= 5)%Q.
Proof.
  intros Hn Hs.
  assert (0 < inject_Z n)%Q as Hn'
      by (change 0%Q with (inject_Z 0); now rewrite <- Zlt_Qlt).
  split.
  - apply Qle_shift_div_l; [exact Hn' |]. rewrite Qmult_1_l.
    rewrite <- Zle_Qle. lia.
  - apply Qle_shift_div_r; [exact Hn' |].
    change 5%Q with (inject_Z 5). rewrite <- inject_Z_mult, <- Zle_Qle. lia.
Qed.

Lemma avg_grade_bounds (r : Review.t) (rows : list Review.t) (q : Q) :
  forallb Review.check_grade_range (r :: rows) = true ->
  avg_grade (r :: rows) = Some q -> (1 <= q <= 5)%Q.
Proof.
  intros Hg Hq. apply sum_grades_bounds in Hg.
  unfold avg_grade in Hq. injection Hq as <-.
  apply (binary64_between 1 5); [lia | lia |].
  apply quotient_bounds; [| exact Hg].
  cbn [List.length]. lia.
Qed.

Lemma forallb_filter {A : Type} (f g : A -> bool) (l : list A) :
  forallb f l = true -> forallb f (filter g l) = true.
Proof.
  rewrite !forallb_forall. intros H x Hx. apply filter_In in Hx.
  apply H, Hx.
Qed.

(** X16: with every stored grade from 1 to 5, the rating a completed
    [update_product_rating] leaves is 0 when the product has no active
    review and otherwise lies between 1 and 5. *)
Theorem update_product_rating_bounds (product_id : Z) (c c' : Conn) :
  run (update_product_rating product_id) c = (inr tt, c') ->
  grades_in_range (store c') = true ->
  exists p, find_Product product_id (store c') = Some p /\
    ((active_grades (store c') product_id = [] /\ Product.rating p = 0%Q)
     \/ (active_grades (store c') product_id <> [] /\
         (1 <= Product.rating p <= 5)%Q)).
Proof.
  intros H Hg. apply update_product_rating_run in H.
  destruct H as (v & p & _ & Hp & Hs & _). rewrite Hs in *.
  exists (Product.with_rating (avg_rating v product_id) p).
  split; [now apply find_Product_rated |].
  cbn [Product.rating Product.with_rating].
  unfold grades_in_range, rated in Hg. cbn [reviews] in Hg.
  unfold active_grades, rated. cbn [reviews].
  unfold avg_rating. rewrite active_reviews_of_spec.
  apply (forallb_filter _
           (fun r => (Review.product_id r =? product_id)
                     && Review.is_active r)) in Hg.
  destruct (filter _ (reviews v)) as [| r rows]; [left; now split |].
  right. split; [discriminate |].
  destruct (avg_grade (r :: rows)) as [q |] eqn:Eq; [| discriminate].
  pose proof (avg_grade_bounds r rows q Hg Eq) as Hb.
  unfold or_zero. destruct (Qeq_bool q 0) eqn:E; [| exact Hb].
  apply Qeq_bool_eq in E. rewrite E in Hb. destruct Hb as [Hb _].
  now apply Qle_bool_iff in Hb.
Qed.

Lemma update_product_rating_bounds_witness :
  let c' := snd (run (update_product_rating 1) (connect Example.stale [])) in
  exists p, find_Product 1 (store c') = Some p /\
    ((active_grades (store c') 1 = [] /\ Product.rating p = 0%Q)
     \/ (active_grades (store c') 1 <> [] /\
         (1 <= Product.rating p <= 5)%Q)).
Proof.
  exact (update_product_rating_bounds 1 (connect Example.stale []) _
           eq_refl eq_refl).
Defined.

Lemma find_Product_rated_other (v : Database) (product_id k : Z) :
  k <> product_id ->
  find_Product k (rated v product_id) = find_Product k v.
Proof.
  intros Hk. unfold find_Product, rated. cbn [products].
  now apply find_update_where_other.
Qed.

(** X17: a review event touches one product only. Whatever the storage
    does, after [create_review] every product of another key than the
    reviewed one is, by key, the row it was; the same after
    [delete_review], for every key other than the product of the review
    with that key. *)
Theorem review_events_leave_other_products (d : Database) (fl : list bool)
  (k : Z) :
  (forall review current_user now,
     k <> ReviewCreate.product_id review ->
     find_Product k
       (store (snd (run (create_review review current_user now)
                      (connect d fl))))
     = find_Product k d)
  /\
  (forall review_id current_user r0,
     find_Review review_id d = Some r0 ->
     k <> Review.product_id r0 ->
     find_Product k
       (store (snd (run (delete_review review_id current_user)
                      (connect d fl))))
     = find_Product k d).
Proof.
  split.
  - intros review current_user now Hk.
    destruct (run (create_review review current_user now) (connect d fl))
      as [r c'] eqn:E.
    apply create_review_run in E. cbn [snd].
    assert (store c' = d \/
            store c' = with_review (stored_review d review current_user now) d
            \/ store c'
               = rated (with_review
                          (stored_review d review current_user now) d)
                   (ReviewCreate.product_id review))
      as [-> | [-> | ->]]
        by (destruct r; [destruct E as [E | E]; tauto | tauto]);
      trivial.
    now rewrite find_Product_rated_other.
  - intros review_id current_user r0 Hr0 Hk.
    destruct (run (delete_review review_id current_user) (connect d fl))
      as [r c'] eqn:E.
    apply delete_review_run in E. cbn [snd].
    destruct r as [e | message].
    + destruct E as [-> | (_ & _ & ->)]; reflexivity.
    + destruct E as (_ & _ & r1 & Hr1 & ->).
      rewrite Hr0 in Hr1. inversion Hr1; subst r1.
      now rewrite find_Product_rated_other.
Qed.

Lemma review_events_leave_other_products_witness :
  find_Product 2
    (store (snd (run (create_review (Example.review 4) Example.buyer 100)
                   (connect Market.stalls []))))
  = find_Product 2 Market.stalls
  /\
  find_Product 2
    (store (snd (run (delete_review 3 Example.admin)
                   (connect Market.stalls []))))
  = find_Product 2 Market.stalls.
Proof.
  split.
  - apply (proj1 (review_events_leave_other_products Market.stalls [] 2)).
    simpl. lia.
  - apply (proj2 (review_events_leave_other_products Market.stalls [] 2)
             3 Example.admin
             (Review.mk 3 9 1 (Some "fine"%string) 102 1 true));
      [reflexivity | simpl; lia].
Defined.

(** ** Writing a review and reading it back *)

(** X18: with the storage answering, a review that [create_review] accepts
    is read back: the request returns the stored row, with a key above
    every key in use, the current user, the clock and the payload in it and
    [is_active] set, and then [get_review_by_product] for its product and
    [get_all_reviews] return the active reviews they returned before,
    followed by that row. *)
Theorem create_review_read_back (review : ReviewCreate.t)
  (current_user : User.t) (now : Z) (d : Database) (p : Product.t) :
  let product_id := ReviewCreate.product_id review in
  hd_error (filter (active_product product_id) (products d)) = Some p ->
  1 <= ReviewCreate.grade review <= 5 ->
  exists row d',
    run (create_review review current_user now) (connect d [])
    = (inr row, connect d' []) /\
    row = Review.mk (next_id (map Review.id (reviews d)))
            (User.id current_user) product_id (ReviewCreate.comment review)
            now (ReviewCreate.grade review) true /\
    (forall r, In r (reviews d) -> Review.id r < Review.id row) /\
    (forall before,
       run (get_review_by_product product_id) (connect d [])
       = (inr before, connect d []) ->
       run (get_review_by_product product_id) (connect d' [])
       = (inr (before ++ [row]), connect d' [])) /\
    (forall before,
       run get_all_reviews (connect d []) = (inr before, connect d []) ->
       run get_all_reviews (connect d' [])
       = (inr (before ++ [row]), connect d' [])).
Proof.
  intros product_id Hp Hg.
  set (row := stored_review d review current_user now).
  exists row, (rated (with_review row d) product_id).
  split; [apply create_review_completes with p;
          [exact Hp | now apply grade_in_range_spec] |].
  split; [reflexivity |].
  split; [intros r Hr; apply next_id_above; now apply in_map |].
  destruct (active_product_rated product_id product_id (with_review row d) p Hp)
    as (p' & Hp').
  split.
  - intros before. unfold get_review_by_product, connect.
    answered. rewrite Hp. rewrite run_call, exec_no_fault.
    cbn [perform]. unfold query, view. cbn [flush txn store].
    intros H; inversion H; subst before. clear H.
    answered. rewrite Hp'. rewrite run_call, exec_no_fault.
    cbn [perform]. unfold query, view. cbn [flush txn store].
    unfold rated, with_review. cbn [reviews]. rewrite filter_app.
    cbn [filter row stored_review ReviewModel Review.with_id
           Review.is_active Review.product_id Bool.eqb andb].
    fold product_id. now rewrite Z.eqb_refl.
  - intros before. unfold get_all_reviews, connect.
    rewrite !run_call, !exec_no_fault.
    cbn [perform]. unfold query, view. cbn [flush txn store].
    intros H; inversion H; subst before. clear H.
    unfold rated, with_review. cbn [reviews]. now rewrite filter_app.
Qed.

Lemma create_review_read_back_witness :
  exists row d',
    run (create_review (Example.review 4) Example.buyer 103)
      (connect Example.shop_55x [])
    = (inr row, connect d' []) /\
    row = Review.mk (next_id (map Review.id (reviews Example.shop_55x)))
            (User.id Example.buyer) 1 (Some "fine"%string) 103 4 true /\
    (forall r, In r (reviews Example.shop_55x) ->
               Review.id r < Review.id row) /\
    (forall before,
       run (get_review_by_product 1) (connect Example.shop_55x [])
       = (inr before, connect Example.shop_55x []) ->
       run (get_review_by_product 1) (connect d' [])
       = (inr (before ++ [row]), connect d' [])) /\
    (forall before,
       run get_all_reviews (connect Example.shop_55x [])
       = (inr before, connect Example.shop_55x []) ->
       run get_all_reviews (connect d' [])
       = (inr (before ++ [row]), connect d' [])).
Proof.
  apply (create_review_read_back (Example.review 4) Example.buyer 103
           Example.shop_55x (Product.with_rating 5 Example.tea));
    [reflexivity | simpl; lia].
Defined.

Lemma deactivated_not_selected (review_id : Z) (d : Database) :
  filter (fun r => (Review.id r =? review_id)
                   && Bool.eqb (Review.is_active r) true)
    (reviews (deactivated review_id d)) = [].
Proof.
  unfold deactivated, update_where. cbn [reviews].
  induction (reviews d) as [| r rows IH]; simpl; trivial.
  destruct (Review.id r =? review_id) eqn:E; simpl; rewrite E; simpl;
    exact IH.
Qed.

Lemma deactivated_active (review_id : Z) (d : Database) :
  filter (fun r => Bool.eqb (Review.is_active r) true)
    (reviews (deactivated review_id d))
  = filter (fun r => Bool.eqb (Review.is_active r) true
                     && negb (Review.id r =? review_id))
      (reviews d).
Proof.
  unfold deactivated, update_where. cbn [reviews].
  induction (reviews d) as [| r rows IH]; simpl; trivial.
  destruct (Review.id r =? review_id) eqn:E; simpl.
  - now rewrite andb_false_r.
  - rewrite andb_true_r.
    destruct (Bool.eqb (Review.is_active r) true); now rewrite IH.
Qed.

(** X19: with the storage answering, a review that [delete_review] has
    flagged stays in the tables, inactive and otherwise as it was;
    [get_all_reviews] returns what it would have returned without the
    reviews of that key, and a second [delete_review] of the key ends in
    the 404 with nothing changed. *)
Theorem delete_review_read_back (review_id : Z) (current_user : User.t)
  (d : Database) (review : Review.t) (p : Product.t) :
  find_Review review_id d = Some review ->
  Review.is_active review = true ->
  find_Product (Review.product_id review) d = Some p ->
  exists d',
    run (delete_review review_id current_user) (connect d [])
    = (inr "Review deleted"%string, connect d' []) /\
    find_Review review_id d' = Some (Review.with_is_active false review) /\
    run get_all_reviews (connect d' [])
    = (inr (filter (fun r => Bool.eqb (Review.is_active r) true
                             && negb (Review.id r =? review_id))
              (reviews d)), connect d' []) /\
    (forall user,
       run (delete_review review_id user) (connect d' [])
       = (inl (HTTPException 404 "Review not found or inactive"),
          connect d' [])).
Proof.
  intros Hfind Hact Hp.
  exists (rated (deactivated review_id d) (Review.product_id review)).
  split; [now apply delete_review_completes with p |].
  split; [exact (find_Review_deactivated _ _ _ Hfind) |].
  split.
  - unfold get_all_reviews, connect. rewrite run_call, exec_no_fault.
    cbn [perform]. unfold query, view. cbn [flush txn store].
    change (reviews (rated (deactivated review_id d)
                       (Review.product_id review)))
      with (reviews (deactivated review_id d)).
    now rewrite deactivated_active.
  - intros user. unfold delete_review, connect. answered.
    change (reviews (rated (deactivated review_id d)
                       (Review.product_id review)))
      with (reviews (deactivated review_id d)).
    now rewrite deactivated_not_selected.
Qed.

Lemma delete_review_read_back_witness :
  exists d',
    run (delete_review 3 Example.admin) (connect Example.shop_551 [])
    = (inr "Review deleted"%string, connect d' []) /\
    find_Review 3 d'
    = Some (Review.with_is_active false
              (Review.mk 3 9 1 (Some "fine"%string) 102 1 true)) /\
    run get_all_reviews (connect d' [])
    = (inr (filter (fun r => Bool.eqb (Review.is_active r) true
                             && negb (Review.id r =? 3))
              (reviews Example.shop_551)), connect d' []) /\
    (forall user,
       run (delete_review 3 user) (connect d' [])
       = (inl (HTTPException 404 "Review not found or inactive"),
          connect d' [])).
Proof.
  exact (delete_review_read_back 3 Example.admin Example.shop_551
           (Review.mk 3 9 1 (Some "fine"%string) 102 1 true)
           (Product.with_rating (binary64 (11 # 3)) Example.tea)
           eq_refl eq_refl eq_refl).
Defined.

(** ** Two review creations that interleave *)

(** The handlers take no lock and every commit is seen by the other session
    at once: the schedule of [Race.interleaved] is followed call by call,
    from any tables. *)

Lemma turn_First_step {A : Type} (d d' : Database) (fl fl' : list bool)
  (t1 t2 t' : Concurrent.Task A) :
  Concurrent.step_task t1 d fl = (t', d', fl') ->
  Concurrent.turn false Concurrent.First (Concurrent.mkWorld d fl t1 t2)
  = Concurrent.mkWorld d' fl' t' t2.
Proof. intros H. unfold Concurrent.turn. cbn. now rewrite H. Qed.

Lemma turn_Second_step {A : Type} (d d' : Database) (fl fl' : list bool)
  (t1 t2 t' : Concurrent.Task A) :
  Concurrent.step_task t2 d fl = (t', d', fl') ->
  Concurrent.turn false Concurrent.Second (Concurrent.mkWorld d fl t1 t2)
  = Concurrent.mkWorld d' fl' t1 t'.
Proof. intros H. unfold Concurrent.turn. cbn. now rewrite H. Qed.

Lemma mean_snoc_same (grades : list Z) (g : Z) :
  grades <> [] ->
  (mean (grades ++ [g]) == mean grades)%Q <-> (inject_Z g == mean grades)%Q.
Proof.
  intros Hne.
  assert (forall l : list Z, l <> [] ->
            mean l = (inject_Z (fold_right Z.add 0%Z l)
                      / inject_Z (Z.of_nat (List.length l)))%Q) as Hm
      by (intros [| y l] H; [contradiction | reflexivity]).
  rewrite (Hm (grades ++ [g])) by (destruct grades; discriminate).
  rewrite (Hm grades Hne).
  rewrite fold_right_app, length_app. cbn [fold_right List.length].
  assert (forall a, fold_right Z.add a grades
                    = fold_right Z.add 0 grades + a) as Hs.
  { intros a. induction grades as [| y l IH]; simpl; [lia |].
    destruct l as [| z l]; [simpl; lia |].
    rewrite IH by discriminate. lia. }
  rewrite (Hs (g + 0)), Z.add_0_r, Nat2Z.inj_add, !inject_Z_plus.
  assert (0 < Z.of_nat (List.length grades)) as Hlen
      by (destruct grades; [contradiction | simpl; lia]).
  set (a := inject_Z (fold_right Z.add 0 grades)).
  set (b := inject_Z (Z.of_nat (List.length grades))).
  set (x := inject_Z g).
  change (inject_Z (Z.of_nat 1)) with 1%Q.
  assert (0 < b)%Q as Hb by (unfold b; rewrite <- (Zlt_Qlt 0); exact Hlen).
  assert (~ (b == 0)%Q) as Hb0
      by (intros E; rewrite E in Hb; discriminate Hb).
  assert (~ (b + 1 == 0)%Q) as Hb1.
  { intros E. assert (0 < b + 1)%Q as H.
    { apply Qlt_trans with b; [exact Hb |].
      rewrite <- (Qplus_0_r b) at 1. apply Qplus_lt_r. reflexivity. }
    rewrite E in H. discriminate H. }
  split; intros H.
  - assert (x == (a + x) / (b + 1) * (b + 1) - a)%Q as -> by (field; exact Hb1).
    rewrite H. field. exact Hb0.
  - rewrite H. field. split; assumption.
Qed.


Lemma interleaved_creations_run (d : Database) (p : Product.t)
  (a b : Creation.t) :
  let product_id := Creation.product_id a in
  let row1 :=
    stored_review d (Creation.review a) (Creation.current_user a)
      (Creation.now a) in
  let row2 :=
    stored_review (with_review row1 d) (Creation.review b)
      (Creation.current_user b) (Creation.now b) in
  Creation.product_id b = product_id ->
  hd_error (filter (active_product product_id) (products d)) = Some p ->
  grade_in_range (ReviewCreate.grade (Creation.review a)) = true ->
  grade_in_range (ReviewCreate.grade (Creation.review b)) = true ->
  Concurrent.steps false Race.interleaved
    (Concurrent.spawn d [] (Creation.program a) (Creation.program b))
  = Concurrent.mkWorld
      (rated_from (with_review row1 d)
         (rated (with_review row2 (with_review row1 d)) product_id)
         product_id)
      [] (Concurrent.mkTask (Ret row1) [] false)
      (Concurrent.mkTask (Ret row2) [] false).
Proof.
  intros product_id row1 row2 Hpid Hp Ha Hb.
  destruct (active_product_found _ _ _ Hp) as (p0 & Hp0).
  set (d1 := with_review row1 d). set (d2 := with_review row2 d1).
  set (resA := avg_grade (filter (active_reviews_of product_id) (reviews d1))).
  set (resB := avg_grade (filter (active_reviews_of product_id) (reviews d2))).
  assert (hd_error (filter (active_product (Creation.product_id b))
                      (products d1)) = Some p) as Hp1
      by (rewrite Hpid; exact Hp).
  assert (find_Product (Creation.product_id b) d2 = Some p0) as Hp2
      by (rewrite Hpid; exact Hp0).
  assert (find_Product product_id (rated d2 product_id)
          = Some (Product.with_rating (avg_rating d2 product_id) p0)) as Hp3
      by (now apply find_Product_rated).
  unfold Race.interleaved, Concurrent.steps, Concurrent.spawn.
  cbn [repeat app fold_left].
  change (Concurrent.mkTask (Creation.program a) [] false)
    with (Creation.task a 0 row1 None).
  change (Concurrent.mkTask (Creation.program b) [] false)
    with (Creation.task b 0 row2 None).
  (* the first request, up to its reading of the average *)
  rewrite (turn_First_step _ _ _ _ _ _ _ (stage_0 a _ _ d Ha p Hp)).
  rewrite (turn_First_step _ _ _ _ _ _ _ (stage_1 a _ _ d)).
  rewrite (turn_First_step _ _ _ _ _ _ _ (stage_2 a _ _ d Ha)).
  cbv zeta. fold row1 d1.
  rewrite (turn_First_step _ _ _ _ _ _ _
             (stage_3 a row1 _ d1 (find_Review_stored d row1 eq_refl))).
  rewrite (turn_First_step _ _ _ _ _ _ _ (stage_4 a row1 _ d1)).
  fold product_id resA.
  (* the second request, from start to end *)
  rewrite (turn_Second_step _ _ _ _ _ _ _ (stage_0 b _ _ d1 Hb p Hp1)).
  rewrite (turn_Second_step _ _ _ _ _ _ _ (stage_1 b _ _ d1)).
  rewrite (turn_Second_step _ _ _ _ _ _ _ (stage_2 b _ _ d1 Hb)).
  cbv zeta. fold row2 d2.
  rewrite (turn_Second_step _ _ _ _ _ _ _
             (stage_3 b row2 _ d2 (find_Review_stored d1 row2 eq_refl))).
  rewrite (turn_Second_step _ _ _ _ _ _ _ (stage_4 b row2 _ d2)).
  rewrite Hpid. fold resB.
  rewrite (turn_Second_step _ _ _ _ _ _ _ (stage_5 b row2 resB d2 p0 Hp2)).
  rewrite (turn_Second_step _ _ _ _ _ _ _ (stage_6 b row2 resB d2)).
  rewrite (turn_Second_step _ _ _ _ _ _ _ (stage_7 b row2 resB d2)).
  rewrite Hpid.
  change (mkDatabase _ (categories d2) (reviews d2))
    with (rated d2 product_id).
  rewrite (turn_Second_step _ _ _ _ _ _ _
             (stage_8 b row2 resB (rated d2 product_id))).
  (* the first request, to its end *)
  rewrite (turn_First_step _ _ _ _ _ _ _
             (stage_5 a row1 resA (rated d2 product_id) _ Hp3)).
  rewrite (turn_First_step _ _ _ _ _ _ _
             (stage_6 a row1 resA (rated d2 product_id))).
  rewrite (turn_First_step _ _ _ _ _ _ _
             (stage_7 a row1 resA (rated d2 product_id))).
  rewrite (turn_First_step _ _ _ _ _ _ _ (stage_8 a row1 resA _)).
  (* the second request has ended *)
  rewrite !(turn_Second_step _ _ _ _ _ _ _
              (step_task_finished (Creation.task b 9 row2 resB) _ _
                 eq_refl)).
  reflexivity.
Qed.

Lemma stale_rating_differs (x y : Z) :
  1 <= x <= 5 -> 1 <= y <= 5 -> x <> y ->
  binary64 (mean [x]) <> binary64 (mean [x; y]).
Proof.
  intros Hx Hy Hne.
  assert (x = 1 \/ x = 2 \/ x = 3 \/ x = 4 \/ x = 5) as Cx by lia.
  assert (y = 1 \/ y = 2 \/ y = 3 \/ y = 4 \/ y = 5) as Cy by lia.
  destruct Cx as [-> | [-> | [-> | [-> | ->]]]];
    destruct Cy as [-> | [-> | [-> | [-> | ->]]]];
    try (exfalso; apply Hne; reflexivity);
    vm_compute; discriminate.
Qed.

(** X20: two review creations for one active product, with grades from 1 to
    5 and the storage answering, whose calls interleave as in
    [Race.interleaved] with nothing isolating them: both return their
    review and both grades are among the active grades, but the rating
    committed last is the one the first request computed before the second
    review was there, the mean without the second grade as a float. That
    mean is the mean of the active grades only if the second grade happens
    to equal it; for a product without earlier reviews and two different
    grades, the rating left is not the one the active grades give. *)
Theorem interleaved_review_creations_lose_update
  (d : Database) (p : Product.t)
  (review1 review2 : ReviewCreate.t) (user1 user2 : User.t) (now1 now2 : Z) :
  let product_id := ReviewCreate.product_id review1 in
  let grade1 := ReviewCreate.grade review1 in
  let grade2 := ReviewCreate.grade review2 in
  let w := Concurrent.steps false Race.interleaved
             (Concurrent.spawn d [] (create_review review1 user1 now1)
                (create_review review2 user2 now2)) in
  ReviewCreate.product_id review2 = product_id ->
  hd_error (filter (active_product product_id) (products d)) = Some p ->
  1 <= grade1 <= 5 -> 1 <= grade2 <= 5 ->
  exists row1 row2 p',
    Concurrent.result (Concurrent.first w) = Some (inr row1) /\
    Concurrent.result (Concurrent.second w) = Some (inr row2) /\
    active_grades (Concurrent.db w) product_id
    = active_grades d product_id ++ [grade1; grade2] /\
    find_Product product_id (Concurrent.db w) = Some p' /\
    Product.rating p' = binary64 (mean (active_grades d product_id ++ [grade1]))
    /\
    ((mean (active_grades (Concurrent.db w) product_id)
      == mean (active_grades d product_id ++ [grade1]))%Q
     <-> (inject_Z grade2 == mean (active_grades d product_id ++ [grade1]))%Q)
    /\
    (active_grades d product_id = [] -> grade1 <> grade2 ->
     Product.rating p'
     <> binary64 (mean (active_grades (Concurrent.db w) product_id))).
Proof.
  intros product_id grade1 grade2 w Hpid Hp Hg1 Hg2.
  assert (grade_in_range grade1 = true) as Hr1
      by (unfold grade_in_range; lia).
  assert (grade_in_range grade2 = true) as Hr2
      by (unfold grade_in_range; lia).
  destruct (active_product_found _ _ _ Hp) as (p0 & Hp0).
  set (row1 := stored_review d review1 user1 now1).
  set (row2 := stored_review (with_review row1 d) review2 user2 now2).
  assert (w = Concurrent.mkWorld
                (rated_from (with_review row1 d)
                   (rated (with_review row2 (with_review row1 d)) product_id)
                   product_id)
                [] (Concurrent.mkTask (Ret row1) [] false)
                (Concurrent.mkTask (Ret row2) [] false)) as Hw
      by exact (interleaved_creations_run d p
                  (Creation.mk review1 user1 now1)
                  (Creation.mk review2 user2 now2) Hpid Hp Hr1 Hr2).
  clearbody w. subst w. cbn [Concurrent.db].
  assert (active_grades (with_review row1 d) product_id
          = active_grades d product_id ++ [grade1]) as G1
      by (apply active_grades_with_review; reflexivity).
  assert (active_grades (with_review row2 (with_review row1 d)) product_id
          = (active_grades d product_id ++ [grade1]) ++ [grade2]) as G2
      by (rewrite <- G1; apply active_grades_with_review;
          [exact Hpid | reflexivity]).
  change (active_grades
            (rated_from (with_review row1 d)
               (rated (with_review row2 (with_review row1 d)) product_id)
               product_id) product_id)
    with (active_grades (with_review row2 (with_review row1 d)) product_id).
  exists row1, row2,
    (Product.with_rating (avg_rating (with_review row1 d) product_id)
       (Product.with_rating
          (avg_rating (with_review row2 (with_review row1 d)) product_id)
          p0)).
  split; [reflexivity |]. split; [reflexivity |].
  split; [now rewrite G2, <- app_assoc |].
  split.
  { unfold find_Product, rated_from. cbn [products].
    rewrite find_update_where by reflexivity.
    change (find (fun p1 => Product.id p1 =? product_id)
              (products (rated (with_review row2 (with_review row1 d))
                           product_id)))
      with (find_Product product_id
              (rated (with_review row2 (with_review row1 d)) product_id)).
    now rewrite (find_Product_rated
                   (with_review row2 (with_review row1 d)) _ p0 Hp0). }
  cbn [Product.rating Product.with_rating].
  rewrite avg_rating_mean, G1, G2.
  split; [reflexivity |]. split.
  - apply mean_snoc_same.
    intros E. apply app_eq_nil in E. destruct E. discriminate.
  - intros Hnone Hne. rewrite Hnone. cbn [app].
    now apply stale_rating_differs.
Qed.

Lemma interleaved_review_creations_lose_update_witness :
  let w := Concurrent.steps false Race.interleaved Race.two_reviews in
  exists row1 row2 p',
    Concurrent.result (Concurrent.first w) = Some (inr row1) /\
    Concurrent.result (Concurrent.second w) = Some (inr row2) /\
    active_grades (Concurrent.db w) 1
    = active_grades Example.shop 1 ++ [5; 2] /\
    find_Product 1 (Concurrent.db w) = Some p' /\
    Product.rating p' = binary64 (mean (active_grades Example.shop 1 ++ [5]))
    /\
    ((mean (active_grades (Concurrent.db w) 1)
      == mean (active_grades Example.shop 1 ++ [5]%Z))%Q
     <-> (inject_Z 2 == mean (active_grades Example.shop 1 ++ [5]%Z))%Q)
    /\
    (active_grades Example.shop 1 = [] -> 5 <> 2 ->
     Product.rating p'
     <> binary64 (mean (active_grades (Concurrent.db w) 1))).
Proof.
  apply (interleaved_review_creations_lose_update
           Example.shop Example.tea (Example.review 5) (Example.review 2)
           Example.buyer Example.buyer 100 101);
    [reflexivity | reflexivity | simpl; lia | simpl; lia].
Defined.
